(** * Signal evaluation and monitoring engine: backtester, window merge,
      monitor tick and strategy store, embedded from the Python sources

    Sources embedded here:
    - [src/quant/backtester.py]       ([VectorBacktester])
    - [src/quant/monitor.py]          ([RealTimeMonitor])
    - [src/quant/strategy_manager.py] ([StrategyManager])
    - [src/quant/runner.py]           ([QuantRunner])
    - [src/quant/llm_strategy.py]     ([StrategyGenerator._clean_code])
    - [api/v1/endpoints/quant.py]     (two endpoints)
    - [quant_main.py]                 ([run_monitor_mode])

    Conventions of the embedding.
    - A Python float is a value of [fl]: a rational number, one of the two
      infinities, or NaN.  Finite arithmetic is exact: rounding, overflow and
      the sign of zero are left out.  The special values follow IEEE 754, so
      that a division by zero and [fillna] mean what they mean in pandas.
      The statements about statistics are kept to what rounding leaves
      alone: values computed from 0 and 1 alone, bounds that rounding to the
      nearest preserves, and comparisons of such values; a statement that
      needs prices within a range, or no commission, for that says so.
    - A pandas Series is the list of its values, floats; rows are addressed
      by position.  A DataFrame is its number of rows and its columns in
      order.
    - DataFrames are objects: they live in a heap and are passed by
      reference, so that copying and in-place updates are distinguishable.
    - A raised exception is a value ([Raise e]) threaded through the code;
      [try ... except Exception] catches the subclasses of [Exception] and
      lets [SystemExit] and [KeyboardInterrupt] pass.
    - A date is its day number: the two dates of a comparison are of one
      kind, so that comparing them does not raise. *)

From Stdlib Require Import QArith Qabs Lqa String.
From stdpp Require Import base option list strings gmap.

Local Open Scope string_scope.
Local Open Scope list_scope.

(** ** Floating point values *)

Module Float.

Inductive fl : Type :=
| Num (q : Q)
| PInf
| NInf
| NaN.

Definition isnan (x : fl) : bool :=
  match x with NaN => true | _ => false end.

Definition Qltb (a b : Q) : bool := negb (Qle_bool b a).

(** Sign of a rational as an infinity: the value of [a / 0.0] and of
    [a * inf]. *)
Definition inf_of_sign (a : Q) : fl :=
  if Qltb 0 a then PInf else if Qltb a 0 then NInf else NaN.

Definition fneg (x : fl) : fl :=
  match x with
  | Num a => Num (- a)
  | PInf => NInf
  | NInf => PInf
  | NaN => NaN
  end.

Definition fadd (x y : fl) : fl :=
  match x, y with
  | NaN, _ | _, NaN => NaN
  | Num a, Num b => Num (a + b)
  | PInf, NInf | NInf, PInf => NaN
  | PInf, _ | _, PInf => PInf
  | NInf, _ | _, NInf => NInf
  end.

Definition fsub (x y : fl) : fl := fadd x (fneg y).

Definition fmul (x y : fl) : fl :=
  match x, y with
  | NaN, _ | _, NaN => NaN
  | Num a, Num b => Num (a * b)
  | Num a, PInf | PInf, Num a => inf_of_sign a
  | Num a, NInf | NInf, Num a => inf_of_sign (- a)
  | PInf, PInf | NInf, NInf => PInf
  | PInf, NInf | NInf, PInf => NaN
  end.

Definition fdiv (x y : fl) : fl :=
  match x, y with
  | NaN, _ | _, NaN => NaN
  | Num a, Num b => if Qeq_bool b 0 then inf_of_sign a else Num (a / b)
  | Num _, (PInf | NInf) => Num 0
  | (PInf | NInf), (PInf | NInf) => NaN
  | PInf, Num b => if Qltb b 0 then NInf else PInf
  | NInf, Num b => if Qltb b 0 then PInf else NInf
  end.

Definition fabs (x : fl) : fl :=
  match x with
  | Num a => Num (Qabs a)
  | PInf | NInf => PInf
  | NaN => NaN
  end.

(** Python's [x < y], [x > y], [x == y], [x != y]; every comparison with
    NaN is false, except [!=]. *)
Definition flt (x y : fl) : bool :=
  match x, y with
  | NaN, _ | _, NaN => false
  | Num a, Num b => Qltb a b
  | NInf, (Num _ | PInf) => true
  | Num _, PInf => true
  | _, _ => false
  end.

Definition fgt (x y : fl) : bool := flt y x.

Definition feqb (x y : fl) : bool :=
  match x, y with
  | Num a, Num b => Qeq_bool a b
  | PInf, PInf | NInf, NInf => true
  | _, _ => false
  end.

Definition fneb (x y : fl) : bool := negb (feqb x y).

End Float.
Export Float.

Definition f0 : fl := Num 0.
Definition f1 : fl := Num 1.

(** ** Exceptions and outcomes *)

(** What can be raised.  The first six are subclasses of [Exception]
    ([StrategyError] stands for whatever a strategy raises of that kind);
    [SystemExit] and [KeyboardInterrupt] are not: a handler
    [except Exception] lets them pass. *)
Inductive exn : Type :=
| KeyError (key : string)
| IndexError
| TypeError
| ValueError
| OSError
| StrategyError (msg : string)
| SystemExit
| KeyboardInterrupt.

(** [isinstance(e, Exception)] *)
Definition is_exception (e : exn) : bool :=
  match e with
  | SystemExit | KeyboardInterrupt => false
  | _ => true
  end.

(** [str(e)] *)
Definition str (e : exn) : string :=
  match e with
  | KeyError k => "'" ++ k ++ "'"
  | IndexError => "single positional indexer is out-of-bounds"
  | TypeError => "'NoneType' object is not subscriptable"
  | ValueError => "Expecting value: line 1 column 1 (char 0)"
  | OSError => "os error"
  | StrategyError m => m
  | SystemExit | KeyboardInterrupt => EmptyString
  end.

Inductive Outcome (A : Type) : Type :=
| Ret (a : A)
| Raise (e : exn).
Arguments Ret {A} a.
Arguments Raise {A} e.

(** ** Series *)

Abbreviation Series := (list fl).

(** [s.shift(1)]: every value moves one row down, the first row gets a
    missing value and the last value falls off. *)
Definition shift1 (s : Series) : Series :=
  take (length s) (NaN :: s).

(** [s.fillna(v)] *)
Definition fillna (v : fl) (s : Series) : Series :=
  map (fun x => if isnan x then v else x) s.

(** Element-wise arithmetic of two Series over the same index. *)
Definition smul (a b : Series) : Series := zip_with fmul a b.
Definition ssub (a b : Series) : Series := zip_with fsub a b.
Definition sdiv (a b : Series) : Series := zip_with fdiv a b.

(** [s.pct_change()]: [s / s.shift(1) - 1] (prices are expected to be
    present: no forward fill of missing values is modelled). *)
Definition pct_change (s : Series) : Series :=
  map (fun x => fsub x f1) (sdiv s (shift1 s)).

(** [s.diff()] *)
Definition diff (s : Series) : Series := ssub s (shift1 s).

(** [s.abs()] *)
Definition sabs (s : Series) : Series := map fabs s.

(** [s.cumprod()]: a missing value stays missing and is skipped by the
    running product. *)
Fixpoint cumprod_from (acc : fl) (s : Series) : Series :=
  match s with
  | [] => []
  | x :: t =>
      if isnan x then NaN :: cumprod_from acc t
      else fmul acc x :: cumprod_from (fmul acc x) t
  end.
Definition cumprod (s : Series) : Series := cumprod_from f1 s.

(** Maximum and minimum of two values where missing values are skipped. *)
Definition fmax_skipna (a b : fl) : fl :=
  match a, b with
  | NaN, _ => b
  | _, NaN => a
  | _, _ => if flt a b then b else a
  end.

Definition fmin_skipna (a b : fl) : fl :=
  match a, b with
  | NaN, _ => b
  | _, NaN => a
  | _, _ => if flt b a then b else a
  end.

(** [s.expanding().max()] *)
Fixpoint expanding_max_from (acc : fl) (s : Series) : Series :=
  match s with
  | [] => []
  | x :: t => fmax_skipna acc x :: expanding_max_from (fmax_skipna acc x) t
  end.
Definition expanding_max (s : Series) : Series := expanding_max_from NaN s.

(** [s.min()] *)
Definition smin (s : Series) : fl := fold_left fmin_skipna s NaN.

(** [s.iloc[-1]] *)
Definition iloc_last (s : Series) : Outcome fl :=
  match last s with
  | Some x => Ret x
  | None => Raise IndexError
  end.

(** ** State and exception monad *)

(** A computation over a mutable state [S] that returns a value or raises. *)
Definition SE (S A : Type) : Type := S -> S * Outcome A.

Definition ret {S A} (a : A) : SE S A := fun s => (s, Ret a).

Definition raise {S A} (e : exn) : SE S A := fun s => (s, Raise e).

Definition bind {S A B} (m : SE S A) (k : A -> SE S B) : SE S B :=
  fun s =>
    match m s with
    | (s', Ret a) => k a s'
    | (s', Raise e) => (s', Raise e)
    end.

(** [try: m except Exception as e: handler e]; what [m] did to the state
    before it raised stays done, and what is not an [Exception] goes on to
    the caller. *)
Definition try_except {S A} (m : SE S A) (handler : exn -> SE S A) : SE S A :=
  fun s =>
    match m s with
    | (s', Ret a) => (s', Ret a)
    | (s', Raise e) => if is_exception e then handler e s' else (s', Raise e)
    end.

Notation "x <- m ;; k" := (bind m (fun x => k))
  (at level 100, m at next level, right associativity).
Notation "m ;;; k" := (bind m (fun _ => k))
  (at level 100, right associativity).

(** ** DataFrames *)

(** The columns of a frame all have [nrows] values.  Reading a column
    ([getitem]) and writing one ([setitem]) both fit the values to [nrows],
    so that no definition below depends on that invariant. *)
Record DataFrame : Type := mkDF {
  nrows : nat;
  cols : list (string * Series)
}.

(** What a strategy function can hand back, as far as it is modelled: a
    [pd.Series] of floats over [range(len(s))], or a scalar number.  (A list
    or a Series of other values is not: pandas raises on them, at the
    assignment or in the arithmetic, inside the handlers of the callers.) *)
Inductive pyval : Type :=
| PSeries (s : Series)
| PScalar (x : fl).

(** Ordered dictionaries with string keys ([d[c]] and [d[c] = v]): a new
    key goes last, an old key keeps its place. *)
Fixpoint assoc_get {V} (c : string) (l : list (string * V)) : option V :=
  match l with
  | [] => None
  | (k, v) :: t => if String.eqb k c then Some v else assoc_get c t
  end.

Fixpoint assoc_set {V} (c : string) (v : V) (l : list (string * V))
  : list (string * V) :=
  match l with
  | [] => [(c, v)]
  | (k, w) :: t =>
      if String.eqb k c then (c, v) :: t else (k, w) :: assoc_set c v t
  end.

(** [s.reindex(range(n))] for a Series over [range(len(s))]. *)
Definition reindex (n : nat) (s : Series) : Series :=
  take n (s ++ repeat NaN n).

(** [df.columns] *)
Definition column_names (d : DataFrame) : list string := map fst (cols d).

(** [col in df.columns] *)
Definition has_column (d : DataFrame) (c : string) : bool :=
  existsb (String.eqb c) (column_names d).

(** [df.empty] *)
Definition df_empty (d : DataFrame) : bool :=
  (nrows d =? 0)%nat || (length (cols d) =? 0)%nat.

(** The values of column [c], when the frame has it. *)
Definition getcol (c : string) (d : DataFrame) : option Series :=
  reindex (nrows d) <$> assoc_get c (cols d).

(** [df[c]] *)
Definition getitem (c : string) : SE DataFrame Series :=
  fun d =>
    match getcol c d with
    | Some s => (d, Ret s)
    | None => (d, Raise (KeyError c))
    end.

(** pandas' [_ensure_valid_index]: a frame without rows takes the index of
    the first list-like value assigned to it. *)
Definition ensure_valid_index (v : pyval) (d : DataFrame) : DataFrame :=
  match v with
  | PSeries s =>
      if ((nrows d =? 0)%nat && negb (length s =? 0)%nat)%bool
      then mkDF (length s) (map (fun kv => (kv.1, repeat NaN (length s))) (cols d))
      else d
  | PScalar _ => d
  end.

(** pandas' [_sanitize_column]: a Series is aligned on the frame's index, a
    scalar is broadcast. *)
Definition sanitize_column (v : pyval) (d : DataFrame) : Series :=
  match v with
  | PSeries s => reindex (nrows d) s
  | PScalar x => repeat x (nrows d)
  end.

(** [df[c] = v] *)
Definition setitem (c : string) (v : pyval) : SE DataFrame unit :=
  fun d =>
    let d := ensure_valid_index v d in
    (mkDF (nrows d) (assoc_set c (sanitize_column v d) (cols d)), Ret tt).

(** ** The heap of DataFrame objects *)

Abbreviation ref := nat.
Abbreviation Heap := (list DataFrame).

Definition empty_frame : DataFrame := mkDF 0 [].

(** The object a reference denotes.  References handed to the code always
    denote live objects; any other reference reads as the empty frame. *)
Definition deref (h : Heap) (r : ref) : DataFrame := default empty_frame (h !! r).

(** Allocation of a new object. *)
Definition alloc (d : DataFrame) : SE Heap ref :=
  fun h => (h ++ [d], Ret (length h)).

(** [df.copy()] *)
Definition copy (r : ref) : SE Heap ref :=
  fun h => alloc (deref h r) h.

(** Run a computation on the object [r]: its effects are effects on that
    object, in place. *)
Definition on {A} (r : ref) (m : SE DataFrame A) : SE Heap A :=
  fun h => let '(d, o) := m (deref h r) in (<[r := d]> h, o).

(** A loop [for x in l: acc = body acc x] over a local accumulator. *)
Fixpoint for_each {S A B} (l : list A) (acc : B) (body : B -> A -> SE S B)
  : SE S B :=
  match l with
  | [] => ret acc
  | x :: t => acc' <- body acc x ;; for_each t acc' body
  end.

(** ** Strategies *)

(** A compiled strategy [generate_signals(df)]: a computation on its
    argument, which it can update in place, and which returns or raises. *)
Definition strategy_fn := SE DataFrame pyval.

(** ** backtester.py *)

Module VectorBacktester.

Definition required_cols : list string := ["open"; "close"; "high"; "low"].

(** The statistics of a run.  [total_return] is the number stored in the
    result; [max_drawdown] and [win_rate] are the numbers that the result
    renders as percentages.  The three statistics that need real powers and
    square roots (annual return, volatility, Sharpe ratio) are left out;
    they raise no exception. *)
Record Metrics : Type := mkMetrics {
  total_return : fl;
  max_drawdown : fl;
  win_rate : fl
}.

(** What [run] returns: [{}], [{"error": msg}], or the statistics together
    with the working frame under the key ['data']. *)
Inductive BacktestResult : Type :=
| EmptyDict
| ErrorDict (error : string)
| Stats (m : Metrics) (data : ref).

(** The maximum drawdown of an equity curve:
    [rolling_max = equity.expanding().max()],
    [drawdown = (equity - rolling_max) / rolling_max], [drawdown.min()]. *)
Definition max_drawdown_of (equity : Series) : fl :=
  let rolling_max := expanding_max equity in
  let drawdown := sdiv (ssub equity rolling_max) rolling_max in
  smin drawdown.

(** The share of the holding days (position not 0) with a positive net
    return; 0 without holding days. *)
Definition win_rate_of (position net : Series) : fl :=
  let holding_days := filter (fun pn => fneb pn.1 f0 = true) (zip position net) in
  let wins := filter (fun pn => fgt pn.2 f0 = true) holding_days in
  if (0 <? length holding_days)%nat
  then Num (inject_Z (Z.of_nat (length wins)) / inject_Z (Z.of_nat (length holding_days)))
  else f0.

Definition _calculate_metrics (initial_capital : fl) : SE DataFrame Metrics :=
  equity <- getitem "equity_curve" ;;
  last_equity <- (fun d => (d, iloc_last equity)) ;;
  let total_return := fdiv (fsub last_equity initial_capital) initial_capital in
  let max_drawdown := max_drawdown_of equity in
  position <- getitem "position" ;;
  net <- getitem "net_strategy_ret" ;;
  let win_rate := win_rate_of position net in
  ret (mkMetrics total_return max_drawdown win_rate).

Definition run_body (strategy_func : strategy_fn) (initial_capital commission : fl)
  : SE DataFrame Metrics :=
  signal <- strategy_func ;;
  setitem "signal" signal ;;;
  signal <- getitem "signal" ;;
  setitem "position" (PSeries (fillna f0 (shift1 signal))) ;;;
  close <- getitem "close" ;;
  setitem "market_ret" (PSeries (fillna f0 (pct_change close))) ;;;
  position <- getitem "position" ;;
  market_ret <- getitem "market_ret" ;;
  setitem "strategy_ret" (PSeries (smul position market_ret)) ;;;
  position <- getitem "position" ;;
  setitem "trade_occurred" (PSeries (fillna f0 (sabs (diff position)))) ;;;
  trade_occurred <- getitem "trade_occurred" ;;
  setitem "cost" (PSeries (map (fun x => fmul x commission) trade_occurred)) ;;;
  strategy_ret <- getitem "strategy_ret" ;;
  cost <- getitem "cost" ;;
  setitem "net_strategy_ret" (PSeries (ssub strategy_ret cost)) ;;;
  net <- getitem "net_strategy_ret" ;;
  setitem "equity_curve"
    (PSeries (map (fun x => fmul x initial_capital) (cumprod (map (fadd f1) net)))) ;;;
  _calculate_metrics initial_capital.

Definition run (strategy_func : strategy_fn) (df : ref)
    (initial_capital commission : fl) : SE Heap BacktestResult :=
  data <- copy df ;;
  columns <- on data (fun d => (d, Ret (column_names d))) ;;
  if negb (forallb (fun col => existsb (String.eqb col) columns) required_cols)
  then ret EmptyDict
  else
    try_except
      (result <- on data (run_body strategy_func initial_capital commission) ;;
       ret (Stats result data))
      (fun e => ret (ErrorDict (str e))).

End VectorBacktester.

Import VectorBacktester.

(** ** strategy_manager.py *)

Module StrategyManager.

(** One stored strategy, a JSON object with these six keys. *)
Record Strategy : Type := mkStrategy {
  id : string;
  name : string;
  description : string;
  code : string;
  created_at : string;
  status : string
}.

Inductive level : Type := ERROR | INFO.

(** The JSON file of a manager: it does not exist, or it holds a list of
    strategies, or it holds what a write that failed on its way left of one
    (a text that is cut off and is not JSON; nothing at all when the failure
    came right after the file was opened). *)
Inductive File : Type :=
| Absent
| Holds (content : list Strategy)
| CutOff.

(** The manager: the list it holds in memory, its JSON file and what it has
    logged. *)
Record Manager : Type := mkManager {
  strategies : list Strategy;
  strategy_file : File;
  log : list (level * string)
}.

(** How the file system answers one call of [_save_strategies]: whether
    creating the directory fails, whether opening or writing the file fails,
    and, for a failure of the second kind, whether it comes after the file
    has been opened.  [open(..., 'w')] empties the file that it opens, so
    that a failure after it leaves the file cut off. *)
Record IO : Type := mkIO {
  makedirs_fails : bool;
  write_fails : bool;
  after_open : bool
}.

Definition logger (l : level) (msg : string) : SE Manager unit :=
  fun m => (mkManager (strategies m) (strategy_file m) (log m ++ [(l, msg)]), Ret tt).

(** [os.makedirs(os.path.dirname(self.strategy_file), exist_ok=True)] *)
Definition makedirs (io : IO) : SE Manager unit :=
  if makedirs_fails io then raise OSError else ret tt.

(** [with open(..., 'w') as f: json.dump(self.strategies, f, ...)]: a
    failure of [open] leaves the file as it was, a later one leaves it cut
    off. *)
Definition dump (io : IO) : SE Manager unit :=
  fun m =>
    if write_fails io then
      (mkManager (strategies m)
         (if after_open io then CutOff else strategy_file m) (log m),
       Raise OSError)
    else (mkManager (strategies m) (Holds (strategies m)) (log m), Ret tt).

Definition _save_strategies (io : IO) : SE Manager unit :=
  makedirs io ;;;
  try_except (dump io)
    (fun e => logger ERROR ("Failed to save strategies: " ++ str e)).

(** [strategy_id] is [str(uuid.uuid4())[:8]] and [now] is
    [datetime.now().isoformat()], both drawn by the call. *)
Definition add_strategy (io : IO) (strategy_id now : string)
    (name description code : string) : SE Manager string :=
  let new_strategy := mkStrategy strategy_id name description code now "active" in
  (fun m => (mkManager (strategies m ++ [new_strategy]) (strategy_file m) (log m), Ret tt)) ;;;
  _save_strategies io ;;;
  logger INFO ("Strategy '" ++ name ++ "' added with ID " ++ strategy_id) ;;;
  ret strategy_id.

Definition delete_strategy (io : IO) (strategy_id : string) : SE Manager bool :=
  fun m =>
    let initial_len := length (strategies m) in
    let kept := filter (fun s => id s <> strategy_id) (strategies m) in
    let m := mkManager kept (strategy_file m) (log m) in
    if (length kept <? initial_len)%nat then
      (_save_strategies io ;;;
       logger INFO ("Strategy " ++ strategy_id ++ " deleted.") ;;;
       ret true) m
    else (m, Ret false).

Definition set_status (new_status : string) (s : Strategy) : Strategy :=
  mkStrategy (id s) (name s) (description s) (code s) (created_at s) new_status.

(** The loop of [toggle_strategy]: the first strategy with the id gets the
    new status; [None] when the loop ends without finding one. *)
Fixpoint toggle_first (strategy_id new_status : string) (l : list Strategy)
  : option (list Strategy) :=
  match l with
  | [] => None
  | s :: t =>
      if String.eqb (id s) strategy_id then Some (set_status new_status s :: t)
      else cons s <$> toggle_first strategy_id new_status t
  end.

Definition toggle_strategy (io : IO) (strategy_id new_status : string)
  : SE Manager bool :=
  fun m =>
    match toggle_first strategy_id new_status (strategies m) with
    | Some l =>
        (_save_strategies io ;;; ret true)
          (mkManager l (strategy_file m) (log m))
    | None => (m, Ret false)
    end.

Fixpoint find_strategy (strategy_id : string) (l : list Strategy) : option Strategy :=
  match l with
  | [] => None
  | s :: t => if String.eqb (id s) strategy_id then Some s else find_strategy strategy_id t
  end.

Definition get_strategy (m : Manager) (strategy_id : string) : option Strategy :=
  find_strategy strategy_id (strategies m).

Definition get_active_strategies (m : Manager) : list Strategy :=
  filter (fun s => status s = "active") (strategies m).

Definition list_strategies (m : Manager) : list Strategy := strategies m.

(** [_load_strategies]: the empty list while the file does not exist;
    otherwise what the file holds, or the empty list and an error in the log
    when opening or reading it fails ([read_fails]) or when [json.load]
    rejects what it holds (a JSONDecodeError, which is a ValueError). *)
Definition _load_strategies (read_fails : bool) : SE Manager (list Strategy) :=
  fun self =>
    match strategy_file self with
    | Absent => (self, Ret [])
    | file =>
        try_except
          (if read_fails then raise OSError
           else match file with
                | Holds content => ret content
                | _ => raise ValueError
                end)
          (fun e => logger ERROR ("Failed to load strategies: " ++ str e) ;;; ret [])
          self
    end.

(** [StrategyManager(strategy_file)]: a new manager over the file as it is,
    in a process that has logged [logged] so far. *)
Definition __init__ (read_fails : bool) (file : File)
    (logged : list (level * string)) : Manager * Outcome unit :=
  (loaded <- _load_strategies read_fails ;;
   fun self => (mkManager loaded (strategy_file self) (log self), Ret tt))
    (mkManager [] file logged).

End StrategyManager.

Import StrategyManager.

(** ** monitor.py *)

Module RealTimeMonitor.

(** One live quote, the dict that [_fetch_realtime_snapshot] builds for a
    code.  A date is carried as its day number ([pd.to_datetime] of the date
    strings of the quote and of the history). *)
Record Snapshot : Type := mkSnapshot {
  date : fl;
  open : fl;
  high : fl;
  low : fl;
  close : fl;
  volume : fl
}.

Record Alert : Type := mkAlert {
  stock : string;
  price : fl;
  strategy : string;
  signal : string;
  time : string
}.

Record Monitor : Type := mkMonitor {
  strategy_mgr : Manager;
  compiled_strategies : list (string * strategy_fn);
  history_cache : gmap string ref
}.

(** What a tick acts on: the DataFrame objects and the alert batches handed
    to [_send_alerts] so far. *)
Record World : Type := mkWorld {
  heap : Heap;
  sent : list (list Alert)
}.

Definition in_heap {A} (m : SE Heap A) : SE World A :=
  fun w => let '(h, o) := m (heap w) in (mkWorld h (sent w), o).

Definition lift {S A} (o : Outcome A) : SE S A := fun s => (s, o).

(** [pd.DataFrame([snapshot])] *)
Definition frame_of_snapshot (snapshot : Snapshot) : DataFrame :=
  mkDF 1 [("date", [date snapshot]); ("open", [open snapshot]);
          ("high", [high snapshot]); ("low", [low snapshot]);
          ("close", [close snapshot]); ("volume", [volume snapshot])].

Definition column_or_nan (c : string) (d : DataFrame) : Series :=
  default (repeat NaN (nrows d)) (getcol c d).

(** [pd.concat([a, b], ignore_index=True)]: the rows of [a] then those of
    [b], over the columns of [a] followed by the new ones of [b]; a value
    that a frame does not have is missing. *)
Definition concat_frames (da db : DataFrame) : DataFrame :=
  let names :=
    column_names da ++
    filter (fun c => has_column da c = false) (column_names db) in
  mkDF (nrows da + nrows db)
    (map (fun c => (c, column_or_nan c da ++ column_or_nan c db)) names).

Definition concat (a b : ref) : SE Heap ref :=
  fun h => alloc (concat_frames (deref h a) (deref h b)) h.

(** [df.at[df.index[-1], c] = v]; a column that the frame does not have is
    added, its other values missing. *)
Definition set_last (c : string) (v : fl) (d : DataFrame) : DataFrame :=
  mkDF (nrows d) (assoc_set c (<[pred (nrows d) := v]> (column_or_nan c d)) (cols d)).

Definition at_last_set (c : string) (v : fl) : SE DataFrame unit :=
  fun d =>
    match nrows d with
    | O => (d, Raise IndexError)
    | S _ => (set_last c v d, Ret tt)
    end.

(** Step 2 of [run_once]: the frame to evaluate, built from the cached
    history and the live quote. *)
Definition merge_window (hist_df : ref) (snapshot : Snapshot) : SE Heap ref :=
  let snapshot_date := date snapshot in
  dates <- on hist_df (getitem "date") ;;
  last_hist_date <- lift (iloc_last dates) ;;
  if fgt snapshot_date last_hist_date then
    new_row <- alloc (frame_of_snapshot snapshot) ;;
    concat hist_df new_row
  else if feqb snapshot_date last_hist_date then
    eval_df <- copy hist_df ;;
    for_each [("open", open snapshot); ("high", high snapshot);
              ("low", low snapshot); ("close", close snapshot);
              ("volume", volume snapshot)] tt
      (fun _ cv => on eval_df (at_last_set cv.1 cv.2)) ;;;
    ret eval_df
  else
    copy hist_df.

(** Step 3 of [run_once] for one strategy: the body of the inner loop.
    The clock is read once for each alert: [now k] is the reading for the
    alert that follows [k] others of the tick.  Logging is not modelled. *)
Definition check_strategy (self : Monitor) (stock_code : string)
    (snapshot : Snapshot) (now : nat -> string) (eval_df : ref)
    (alerts : list Alert) (entry : string * strategy_fn) : SE Heap (list Alert) :=
  let '(s_id, strategy_func) := entry in
  try_except
    (signals <- on eval_df strategy_func ;;
     match signals with
     | PSeries ((_ :: _) as s) =>
         last_signal <- lift (iloc_last s) ;;
         if feqb last_signal f1 then
           match get_strategy (strategy_mgr self) s_id with
           | Some strategy_info =>
               ret (alerts ++ [mkAlert stock_code (close snapshot)
                                 (name strategy_info) "BUY" (now (length alerts))])
           | None => raise TypeError
           end
         else ret alerts
     | _ => ret alerts
     end)
    (fun e => ret alerts).

(** The body of the outer loop of [run_once], for one quote. *)
Definition check_stock (self : Monitor) (now : nat -> string) (alerts : list Alert)
    (item : string * Snapshot) : SE Heap (list Alert) :=
  let '(stock_code, snapshot) := item in
  match history_cache self !! stock_code with
  | None => ret alerts
  | Some hist_df =>
      eval_df <- merge_window hist_df snapshot ;;
      for_each (compiled_strategies self) alerts
        (check_strategy self stock_code snapshot now eval_df)
  end.

(** [_send_alerts]: the batch goes to the console and, when a notifier is
    configured, to the notifier. *)
Definition _send_alerts (alerts : list Alert) : SE World unit :=
  fun w => (mkWorld (heap w) (sent w ++ [alerts]), Ret tt).

(** One tick.  [realtime_data] is what [_fetch_realtime_snapshot] returned
    and [now] the clock readings put on the alerts. *)
Definition run_once (self : Monitor) (realtime_data : list (string * Snapshot))
    (now : nat -> string) : SE World unit :=
  if (length (compiled_strategies self) =? 0)%nat then ret tt
  else if bool_decide (history_cache self = ∅) then ret tt
  else
    alerts <- in_heap (for_each realtime_data [] (check_stock self now)) ;;
    match alerts with
    | [] => ret tt
    | _ => _send_alerts alerts
    end.

(** [df.tail(n)] *)
Definition tail_rows (n : nat) (d : DataFrame) : DataFrame :=
  mkDF (min n (nrows d))
    (map (fun kv => (kv.1, drop (nrows d - n) (reindex (nrows d) kv.2))) (cols d)).

(** [load_context]: [compile_strategy] is the strategy generator's compiler
    and [load_history] the data storage's reader, which makes a new frame. *)
Definition load_context (mgr : Manager)
    (compile_strategy : string -> option strategy_fn)
    (load_history : string -> option DataFrame)
    (stock_list : list string) (days_lookback : nat) : SE Heap Monitor :=
  let active_strategies := get_active_strategies mgr in
  let compiled :=
    fold_left
      (fun acc s =>
         match compile_strategy (code s) with
         | Some func => assoc_set (id s) func acc
         | None => acc
         end)
      active_strategies [] in
  cache <- for_each stock_list (∅ : gmap string ref)
    (fun cache stock =>
       match load_history stock with
       | Some df =>
           if df_empty df then ret cache
           else r <- alloc (tail_rows days_lookback df) ;; ret (<[stock := r]> cache)
       | None => ret cache
       end) ;;
  ret (mkMonitor mgr compiled cache).

(** The bar (date, open, high, low, close, volume) in row [i] of a frame
    that has these six columns. *)
Definition bar_columns : list string :=
  ["date"; "open"; "high"; "low"; "close"; "volume"].

Definition cell (c : string) (i : nat) (d : DataFrame) : option fl :=
  getcol c d ≫= (.!! i).

Definition bar_at (d : DataFrame) (i : nat) : option Snapshot :=
  dt ← cell "date" i d; o ← cell "open" i d; hi ← cell "high" i d;
  lo ← cell "low" i d; cl ← cell "close" i d; v ← cell "volume" i d;
  Some (mkSnapshot dt o hi lo cl v).

(** The intraday refresh: the frame after the five assignments. *)
Definition refreshed (snapshot : Snapshot) (d : DataFrame) : DataFrame :=
  set_last "volume" (volume snapshot)
    (set_last "close" (close snapshot)
       (set_last "low" (low snapshot)
          (set_last "high" (high snapshot)
             (set_last "open" (open snapshot) d)))).

(** A frame that has the six columns of a bar. *)
Definition price_frame (d : DataFrame) : Prop :=
  Forall (fun c => is_Some (getcol c d)) bar_columns.

(** [x <= y] on floats: false when either is NaN. *)
Definition fle (x y : fl) : bool := flt x y || feqb x y.

(** One row of the market snapshot of akshare, as far as it is read: the
    code (the column of the codes as a string) and the cells of the columns
    of the latest price, today's open, the highest, the lowest and the
    volume, each as [float] converts it; [None] for a cell that [float]
    rejects (akshare has "-" for some) or that is not there. *)
Record SpotRow : Type := mkSpotRow {
  spot_code : string;
  latest_price : option fl;
  today_open : option fl;
  highest : option fl;
  lowest : option fl;
  spot_volume : option fl
}.

(** The body of the loop of [_fetch_realtime_snapshot] over the rows: a row
    whose cells cannot be converted, or whose price is at most 0, is
    skipped. *)
Definition snapshot_of_row (today_str : fl) (data_map : list (string * Snapshot))
    (row : SpotRow) : list (string * Snapshot) :=
  match latest_price row with
  | None => data_map
  | Some price =>
      if fle price f0 then data_map
      else
        match today_open row, highest row, lowest row, spot_volume row with
        | Some o, Some hi, Some lo, Some v =>
            assoc_set (spot_code row) (mkSnapshot today_str o hi lo price v) data_map
        | _, _, _, _ => data_map
        end
  end.

(** [_fetch_realtime_snapshot]: [spot_df] is the market snapshot that
    akshare returned, [None] when the call (or the reading of the column of
    the codes) raised, which the function logs; [today_str] is the date of
    the day. *)
Definition _fetch_realtime_snapshot (spot_df : option (list SpotRow))
    (today_str : fl) (codes : list string) : list (string * Snapshot) :=
  match spot_df with
  | None => []
  | Some rows =>
      let filtered_df :=
        match codes with
        | [] => rows
        | _ => filter (fun row => spot_code row ∈ codes) rows
        end in
      match filtered_df with
      | [] => []
      | _ => fold_left (snapshot_of_row today_str) filtered_df []
      end
  end.

End RealTimeMonitor.

Import RealTimeMonitor.

(** ** runner.py *)

Module QuantRunner.

(** The report of a backtest, [{"stock": ..., "metrics": ..., "last_signal": ...}];
    [run_backtest] returns one, or [{"error": msg}], here [inl msg]. *)
Record Report : Type := mkReport {
  stock : string;
  metrics : Metrics;
  last_signal : Z
}.

(** [int(x)] of a float: the value cut off towards zero.  NaN raises
    ValueError and an infinity OverflowError; the messages are given. *)
Definition int (x : fl) : Z + string :=
  match x with
  | Num q => inl (Z.quot (Qnum q) (Z.pos (Qden q)))
  | NaN => inr "cannot convert float NaN to integer"
  | PInf | NInf => inr "cannot convert float infinity to integer"
  end.

(** [run_backtest]: [current_strategy_func] is the strategy built last, if
    any, and [_fetch_history_data stock_code days] the frame fetched for the
    [days] before today ([None] when the fetch fails or finds nothing).  The
    two dates of the range are computed before the handler; [days] is taken
    to be a number of days that can be subtracted from today's date, as the
    default 365 and the 200 of [scan_market] are.  An exception of [int],
    raised as the last step inside the handler, is given as the reply of the
    handler. *)
Definition run_backtest (current_strategy_func : option strategy_fn)
    (_fetch_history_data : string -> nat -> option DataFrame)
    (stock_code : string) (days : nat) : SE Heap (string + Report) :=
  match current_strategy_func with
  | None => ret (inl "No strategy compiled. Please build_strategy first.")
  | Some strategy_func =>
      try_except
        (match _fetch_history_data stock_code days with
         | None => ret (inl ("No data found for " ++ stock_code)%string)
         | Some fetched =>
             if df_empty fetched then ret (inl ("No data found for " ++ stock_code)%string)
             else
               df <- alloc fetched ;;
               result <- run strategy_func df (Num 100000) (Num 0.0003) ;;
               match result with
               | Stats m data =>
                   empty <- on data (fun d => (d, Ret (df_empty d))) ;;
                   if empty then ret (inr (mkReport stock_code m 0))
                   else
                     signal <- on data (getitem "signal") ;;
                     last_value <- lift (iloc_last signal) ;;
                     match int last_value with
                     | inl n => ret (inr (mkReport stock_code m n))
                     | inr msg => ret (inl msg)
                     end
               | _ => raise (KeyError "data")
               end
         end)
        (fun e => ret (inl (str e)))
  end.

(** [scan_market]: the reports with a last signal of 1, over 200 days. *)
Definition scan_market (current_strategy_func : option strategy_fn)
    (_fetch_history_data : string -> nat -> option DataFrame)
    (stock_list : list string) : SE Heap (list Report) :=
  for_each stock_list []
    (fun results stock =>
       res <- run_backtest current_strategy_func _fetch_history_data stock 200 ;;
       match res with
       | inl _ => ret results
       | inr report =>
           if (last_signal report =? 1)%Z then ret (results ++ [report])
           else ret results
       end).

End QuantRunner.

(** ** api/v1/endpoints/quant.py *)

Module QuantApi.

(** The objects of the module: its strategy manager, the monitor (which
    was made without a stock list and has a strategy manager of its own) and
    the frames. *)
Record Server : Type := mkServer {
  strategy_mgr : Manager;
  monitor_instance : Monitor;
  frames : Heap
}.

(** What an endpoint answers: a message, or the HTTPException it raises. *)
Inductive Response : Type :=
| Message (message : string)
| HTTPException (status_code : nat) (detail : string).

(** [update_strategy_status]: [compile_strategy] and [load_history] are the
    compiler and the data storage of the monitor. *)
Definition update_strategy_status (io : IO)
    (compile_strategy : string -> option strategy_fn)
    (load_history : string -> option DataFrame)
    (strategy_id status : string) : SE Server Response :=
  fun server =>
    match toggle_strategy io strategy_id status (strategy_mgr server) with
    | (mgr, Raise e) =>
        (mkServer mgr (monitor_instance server) (frames server), Raise e)
    | (mgr, Ret false) =>
        (mkServer mgr (monitor_instance server) (frames server),
         Ret (HTTPException 404 "Strategy not found"))
    | (mgr, Ret true) =>
        match load_context (RealTimeMonitor.strategy_mgr (monitor_instance server))
                compile_strategy load_history [] 100 (frames server) with
        | (h, Ret monitor) =>
            (mkServer mgr monitor h, Ret (Message ("Status updated to " ++ status)%string))
        | (h, Raise e) => (mkServer mgr (monitor_instance server) h, Raise e)
        end
    end.

(** [delete_strategy] *)
Definition delete_strategy (io : IO) (strategy_id : string) : SE Server Response :=
  fun server =>
    match StrategyManager.delete_strategy io strategy_id (strategy_mgr server) with
    | (mgr, Raise e) =>
        (mkServer mgr (monitor_instance server) (frames server), Raise e)
    | (mgr, Ret false) =>
        (mkServer mgr (monitor_instance server) (frames server),
         Ret (HTTPException 404 "Strategy not found"))
    | (mgr, Ret true) =>
        (mkServer mgr (monitor_instance server) (frames server), Ret (Message "Deleted"))
    end.

End QuantApi.

(** ** llm_strategy.py *)

Module StrategyGenerator.

(** A Python [str] is the list of its code points. *)
Abbreviation pystr := (list N).

(** Three backticks, and three backticks followed by [python]. *)
Definition fence : pystr := [96; 96; 96]%N.
Definition fence_python : pystr := [96; 96; 96; 112; 121; 116; 104; 111; 110]%N.

(** The lower case of a code point, as far as the patterns here can tell:
    no character outside A-Z has one of the letters of [python] as its
    lower case. *)
Definition lower (x : N) : N :=
  if ((65 <=? x) && (x <=? 90))%N then (x + 32)%N else x.

Definition eq_ignorecase (p x : N) : bool := (lower p =? lower x)%N.

(** Whether the literal pattern matches at the start of [s]. *)
Fixpoint starts_with (eq : N -> N -> bool) (pat s : pystr) : bool :=
  match pat, s with
  | [], _ => true
  | p :: pat', x :: s' => eq p x && starts_with eq pat' s'
  | _ :: _, [] => false
  end.

(** [re.sub(pat, '', s)] for a literal pattern that is not empty: the scan
    goes from the left; where the pattern matches the match is dropped and
    the scan goes on behind it, elsewhere the character is kept.  [skip]
    counts the characters of a match that are still to drop. *)
Fixpoint sub_from (eq : N -> N -> bool) (pat : pystr) (skip : nat) (s : pystr) : pystr :=
  match s with
  | [] => []
  | x :: t =>
      match skip with
      | S k => sub_from eq pat k t
      | O =>
          if starts_with eq pat s then sub_from eq pat (length pat - 1) t
          else x :: sub_from eq pat 0 t
      end
  end.

Definition re_sub (eq : N -> N -> bool) (pat s : pystr) : pystr := sub_from eq pat 0 s.

(** [str.isspace] of a character *)
Definition isspace (x : N) : bool :=
  (((9 <=? x) && (x <=? 13)) || ((28 <=? x) && (x <=? 32)) ||
   (x =? 133) || (x =? 160) || (x =? 5760) ||
   ((8192 <=? x) && (x <=? 8202)) || (x =? 8232) || (x =? 8233) ||
   (x =? 8239) || (x =? 8287) || (x =? 12288))%N.

Fixpoint lstrip (s : pystr) : pystr :=
  match s with
  | [] => []
  | x :: t => if isspace x then lstrip t else s
  end.

Fixpoint rstrip (s : pystr) : pystr :=
  match s with
  | [] => []
  | x :: t =>
      match rstrip t with
      | [] => if isspace x then [] else [x]
      | r => x :: r
      end
  end.

(** [s.strip()] *)
Definition strip (s : pystr) : pystr := rstrip (lstrip s).

Definition _clean_code (code : pystr) : pystr :=
  let code := re_sub eq_ignorecase fence_python code in
  let code := re_sub N.eqb fence code in
  strip code.

End StrategyGenerator.

(** ** quant_main.py *)

Module QuantMain.

(** [run_monitor_mode], up to a number of rounds of its loop: the monitor
    is made over the manager as loaded and the stocks, the context is loaded
    with the default lookback, and each round is one [run_once].  [ticks] has
    the quotes fetched in each round and the clock readings of the round.  An
    exception ends the loop; the function returns on a KeyboardInterrupt and
    raises any other. *)
Definition run_monitor_mode (mgr : Manager)
    (compile_strategy : string -> option strategy_fn)
    (load_history : string -> option DataFrame)
    (stocks : list string)
    (ticks : list (list (string * Snapshot) * (nat -> string))) : SE World unit :=
  monitor <- in_heap (load_context mgr compile_strategy load_history stocks 100) ;;
  fun w =>
    match for_each ticks tt (fun _ tick => run_once monitor tick.1 tick.2) w with
    | (w', Raise KeyboardInterrupt) => (w', Ret tt)
    | (w', outcome) => (w', outcome)
    end.

End QuantMain.

(** ** Vocabulary of the statements *)

(** The frame [d] with the values [s] in column [c]. *)
Definition with_col (c : string) (s : Series) (d : DataFrame) : DataFrame :=
  mkDF (nrows d) (assoc_set c s (cols d)).

(** The part of [run_body] that follows the assignment of the signal. *)
Definition after_signal (initial_capital commission : fl) : SE DataFrame Metrics :=
  signal <- getitem "signal" ;;
  setitem "position" (PSeries (fillna f0 (shift1 signal))) ;;;
  close <- getitem "close" ;;
  setitem "market_ret" (PSeries (fillna f0 (pct_change close))) ;;;
  position <- getitem "position" ;;
  market_ret <- getitem "market_ret" ;;
  setitem "strategy_ret" (PSeries (smul position market_ret)) ;;;
  position <- getitem "position" ;;
  setitem "trade_occurred" (PSeries (fillna f0 (sabs (diff position)))) ;;;
  trade_occurred <- getitem "trade_occurred" ;;
  setitem "cost" (PSeries (map (fun x => fmul x commission) trade_occurred)) ;;;
  strategy_ret <- getitem "strategy_ret" ;;
  cost <- getitem "cost" ;;
  setitem "net_strategy_ret" (PSeries (ssub strategy_ret cost)) ;;;
  net <- getitem "net_strategy_ret" ;;
  setitem "equity_curve"
    (PSeries (map (fun x => fmul x initial_capital) (cumprod (map (fadd f1) net)))) ;;;
  _calculate_metrics initial_capital.

(** [m] leaves the objects of [h0] alone: started in a heap that extends
    [h0], it ends in a heap that extends [h0] (it allocates, and updates
    only what was allocated after [h0]); [Q] holds of what it returns. *)
Definition preserves {A} (h0 : Heap) (m : SE Heap A) (Q : A -> Prop) : Prop :=
  forall h, h0 `prefix_of` h ->
    h0 `prefix_of` (m h).1 /\ forall a, (m h).2 = Ret a -> Q a.


(** A strategy that leaves the frame it is given as it is, as the strategy
    contract has it: it computes from its input and assigns nothing to it. *)
Definition leaves_frame (f : strategy_fn) : Prop :=
  forall d, (f d).1 = d.

(** A strategy that raises nothing but subclasses of [Exception]: it does
    not call [sys.exit], for one. *)
Definition raises_only_exceptions (f : strategy_fn) : Prop :=
  forall d e, (f d).2 = Raise e -> is_exception e = true.

(** A finite value whose rational satisfies [P]. *)
Definition num_sat (P : Q -> Prop) (x : fl) : Prop :=
  exists q, x = Num q /\ P q.

(** [a <= l1 <= l2 <= ...] and [a < l1 < l2 < ...] *)
Fixpoint nondecr (a : Q) (l : list Q) : Prop :=
  match l with
  | [] => True
  | x :: t => (a <= x)%Q /\ nondecr x t
  end.

Fixpoint increasing_from (a : Q) (l : list Q) : Prop :=
  match l with
  | [] => True
  | x :: t => (a < x)%Q /\ increasing_from x t
  end.


(** The strategy that is always long: [pd.Series(1, index=df.index)]. *)
Definition always_long : strategy_fn :=
  fun d => (d, Ret (PSeries (repeat f1 (nrows d)))).

(** A strategy that returns a fixed Series, and a price frame whose four
    price columns are the given closes: the inputs of the examples. *)
Definition fixed_signal (l : list Q) : strategy_fn :=
  fun d => (d, Ret (PSeries (map Num l))).

Definition frame_of_closes (closes : list Q) : DataFrame :=
  let s := map Num closes in
  mkDF (length closes) [("open", s); ("high", s); ("low", s); ("close", s)].

(** A store with one inactive strategy, and a file system on which the
    directory exists and every write fails, after the file was opened. *)
Definition example_store : Manager :=
  mkManager [mkStrategy "ffee0011" "old" "" "" "" "inactive"] Absent [].

Definition failing_disk : IO := mkIO false true true.

(** What a file holds of strategies. *)
Definition file_content (file : File) : list Strategy :=
  match file with
  | Holds content => content
  | _ => []
  end.

(** A backtest of a fixed signal on five bars. *)
Definition example_backtest : Heap * Outcome BacktestResult :=
  run (fixed_signal [0; 0; 1; 1; 0]%Q) 0 (Num 100000) (Num 0.0003)
    [frame_of_closes [10; 10; 11; 12; 11]%Q].

(** A window of three bars, a live quote for a given day, a strategy that
    raises, and a monitor with that strategy and the always long one: more
    inputs of the examples. *)
Definition example_window : DataFrame :=
  mkDF 3 [("date", [Num 1; Num 2; Num 3]);
          ("open", [Num 10; Num 11; Num 12]);
          ("high", [Num 11; Num 12; Num 13]);
          ("low", [Num 9; Num 10; Num 11]);
          ("close", [Num 10.5; Num 11.5; Num 12.5]);
          ("volume", [Num 100; Num 200; Num 300])].

Definition example_quote (day : Q) : Snapshot :=
  mkSnapshot (Num day) (Num 12.5) (Num 14) (Num 12) (Num 13.5) (Num 400).

Definition failing_strategy : strategy_fn :=
  fun d => (d, Raise (StrategyError "division by zero")).




Definition example_manager : Manager :=
  mkManager
    [mkStrategy "0a1b2c3d" "broken" "" "" "" "active";
     mkStrategy "ffee0011" "buy and hold" "" "" "" "active"]
    Absent [].

Definition example_monitor : Monitor :=
  mkMonitor example_manager
    [("0a1b2c3d", failing_strategy); ("ffee0011", always_long)]
    {["600519" := 0%nat]}.

(** Every compiled strategy is a strategy of the monitor's manager, which
    is how [load_context] fills [compiled_strategies]. *)
Definition known_strategies (self : Monitor) : Prop :=
  forall s_id f, (s_id, f) ∈ compiled_strategies self ->
    is_Some (get_strategy (strategy_mgr self) s_id).


(** Every cached window is an object of the heap. *)
Definition cache_live (self : Monitor) (h : Heap) : Prop :=
  forall stock_code r, history_cache self !! stock_code = Some r -> r < length h.

(** The window that a tick builds from a cached history and a live quote,
    as a value: the history with the quote as one more row, the history with
    its last bar refreshed, or the history as it is.  There is none for a
    history without a date column or without a row. *)
Definition merged_frame (hist : DataFrame) (snapshot : Snapshot) : option DataFrame :=
  dates ← getcol "date" hist;
  D ← last dates;
  Some (if fgt (date snapshot) D then concat_frames hist (frame_of_snapshot snapshot)
        else if feqb (date snapshot) D then refreshed snapshot hist
        else hist).

(** Whether a strategy returns, on a frame, a Series whose last value is
    equal to 1. *)
Definition final_signal_is_one (f : strategy_fn) (d : DataFrame) : bool :=
  match (f d).2 with
  | Ret (PSeries s) =>
      match last s with
      | Some x => feqb x f1
      | None => false
      end
  | _ => false
  end.

(** The (instrument, strategy) pairs of a tick, in the order of the two
    loops: each quote with each compiled strategy. *)
Abbreviation Pair := ((string * Snapshot) * (string * strategy_fn))%type.

Definition pairs_of_tick (self : Monitor) (realtime_data : list (string * Snapshot))
  : list Pair :=
  quote ← realtime_data; pair quote <$> compiled_strategies self.

(** The pairs that are due an alert: the stock has a cached history, the
    history and the quote merge into a window, the strategy's signal on that
    window ends in 1, and the manager knows the strategy. *)
Definition due (self : Monitor) (d : DataFrame) (p : Pair) : bool :=
  final_signal_is_one p.2.2 d &&
  bool_decide (is_Some (get_strategy (strategy_mgr self) p.2.1)).

Definition alerting (self : Monitor) (h : Heap) (p : Pair) : bool :=
  match history_cache self !! p.1.1 with
  | Some hist_df =>
      match merged_frame (deref h hist_df) p.1.2 with
      | Some d => due self d p
      | None => false
      end
  | None => false
  end.

(** The alert of a pair that follows [k] others in the batch. *)
Definition alert_of_pair (self : Monitor) (now : nat -> string) (k : nat) (p : Pair)
  : Alert :=
  mkAlert p.1.1 (close p.1.2)
    (from_option name EmptyString (get_strategy (strategy_mgr self) p.2.1))
    "BUY" (now k).

(** A monitor of two stocks, the second with a history that has no date
    column, and the tick of the first stock alone. *)
Definition example_heap : Heap := [example_window; frame_of_closes [10; 11]%Q].

Definition example_watchlist : Monitor :=
  mkMonitor example_manager [("ffee0011", always_long)]
    {["600519" := 0%nat; "000001" := 1%nat]}.

Definition example_clock : nat -> string := fun _ => "09:31:00".

Definition example_first_quote : Heap * Outcome (list Alert) :=
  for_each [("600519", example_quote 4)] []
    (check_stock example_watchlist example_clock) example_heap.

(** The code points of a text of ASCII characters, and a reply of the
    model: a strategy in a fenced block. *)
Definition code_points (s : string) : list N :=
  map Ascii.N_of_ascii (list_ascii_of_string s).

Definition example_reply : list N :=
  code_points "```Python" ++ [10%N] ++
  code_points "def generate_signals(df):" ++ [10%N] ++
  code_points "    return df['close'] > 0" ++ [10%N] ++
  code_points "```" ++ [10%N].

(** A text with three backticks in a row somewhere. *)
Definition has_fence (s : list N) : Prop :=
  exists l1 l2, s = l1 ++ StrategyGenerator.fence ++ l2.

(** A server whose two managers hold the same active strategy. *)
Definition example_server : QuantApi.Server :=
  QuantApi.mkServer
    (mkManager [mkStrategy "ffee0011" "buy and hold" "" "" "" "active"] Absent [])
    (mkMonitor
       (mkManager [mkStrategy "ffee0011" "buy and hold" "" "" "" "active"] Absent [])
       [] ∅)
    [].

(** * Properties *)

(** ** The strategy store *)

Section StrategyStore.

Implicit Types (l : list Strategy) (m : Manager) (io : IO).

Lemma find_strategy_app l1 l2 sid :
  find_strategy sid (l1 ++ l2) =
  match find_strategy sid l1 with
  | Some s => Some s
  | None => find_strategy sid l2
  end.
Proof.
  induction l1 as [|s l1 IH]; simpl; [done|].
  destruct (String.eqb (id s) sid); [done|apply IH].
Qed.

Lemma find_strategy_id l sid s :
  find_strategy sid l = Some s -> id s = sid.
Proof.
  induction l as [|x l IH]; simpl; [done|].
  destruct (String.eqb_spec (id x) sid); [|apply IH].
  congruence.
Qed.

Lemma find_strategy_filter_ne l sid :
  find_strategy sid (filter (fun s => id s <> sid) l) = None.
Proof.
  induction l as [|x l IH]; simpl; [done|].
  rewrite filter_cons. case_decide as Hx; [|apply IH].
  simpl. destruct (String.eqb_spec (id x) sid); [done|apply IH].
Qed.

Lemma filter_ne_length l sid s :
  find_strategy sid l = Some s ->
  length (filter (fun s => id s <> sid) l) < length l.
Proof.
  induction l as [|x l IH]; simpl; [done|].
  rewrite filter_cons.
  destruct (String.eqb_spec (id x) sid) as [He|Hne].
  - intros _. rewrite decide_False by tauto.
    pose proof (length_filter (fun s => id s <> sid) l). lia.
  - intros Hf. rewrite decide_True by done. simpl. apply IH in Hf. lia.
Qed.

Lemma filter_ne_id l sid :
  find_strategy sid l = None -> filter (fun s => id s <> sid) l = l.
Proof.
  induction l as [|x l IH]; simpl; [done|].
  rewrite filter_cons.
  destruct (String.eqb_spec (id x) sid) as [He|Hne]; [done|].
  intros Hf. rewrite decide_True by done. by rewrite IH.
Qed.

(** The loop of [toggle_strategy] replaces the first strategy with the id
    and nothing else. *)
Lemma toggle_first_Some l sid st s :
  find_strategy sid l = Some s ->
  exists l1 l2,
    l = l1 ++ s :: l2 /\ find_strategy sid l1 = None /\
    toggle_first sid st l = Some (l1 ++ set_status st s :: l2).
Proof.
  induction l as [|x l IH]; simpl; [done|].
  destruct (String.eqb (id x) sid) eqn:E.
  - intros [= ->]. by exists [], l.
  - intros Hf. destruct (IH Hf) as (l1 & l2 & -> & Hn & Ht).
    exists (x :: l1), l2. simpl. rewrite E, Ht. done.
Qed.

Lemma toggle_first_None l sid st :
  find_strategy sid l = None -> toggle_first sid st l = None.
Proof.
  induction l as [|x l IH]; simpl; [done|].
  destruct (String.eqb (id x) sid); [done|].
  intros Hf. by rewrite IH.
Qed.

Lemma save_ok io m :
  makedirs_fails io = false ->
  exists m', _save_strategies io m = (m', Ret tt) /\ strategies m' = strategies m.
Proof.
  intros Hd. unfold _save_strategies, bind, makedirs, try_except, dump.
  rewrite Hd. simpl. destruct (write_fails io); simpl; eauto.
Qed.

End StrategyStore.

Section StrategyStoreClaims.

Implicit Types (l : list Strategy) (m : Manager) (io : IO).

(** C9, as stated: for every name, description and code, [get_strategy] on
    the id that [add_strategy] returns gives the record just added.  It does
    not when the id drawn is that of a stored strategy, which [add_strategy]
    does not check: [get_strategy] then gives the strategy stored before,
    with another name, description, code and status. *)
Lemma add_then_get_finds_older_strategy :
  exists m1,
    add_strategy (mkIO false false false) "ffee0011" "2026-01-05T09:30:00"
      "ma cross" "MA5 over MA20" "def generate_signals(df): ..."
      example_store = (m1, Ret "ffee0011") /\
    get_strategy m1 "ffee0011" = Some (mkStrategy "ffee0011" "old" "" "" "" "inactive") /\
    get_strategy m1 "ffee0011" <>
      Some (mkStrategy "ffee0011" "ma cross" "MA5 over MA20"
              "def generate_signals(df): ..." "2026-01-05T09:30:00" "active").
Proof. eexists. split; [reflexivity|]. split; [reflexivity|discriminate]. Qed.

(** C9, amended.  Round trip of the strategy store.  When the id drawn by
    [add_strategy] is not that of a stored strategy (and the directory of
    the file can be created, so that the calls return), [add_strategy]
    returns that id, [get_strategy] on it returns the record with the given
    name, description and code and with status "active"; [delete_strategy]
    on it then returns true and [get_strategy] on it returns nothing. *)
Theorem add_get_delete_roundtrip io1 io2 m sid now n d c :
  find_strategy sid (strategies m) = None ->
  makedirs_fails io1 = false ->
  makedirs_fails io2 = false ->
  exists m1 m2,
    add_strategy io1 sid now n d c m = (m1, Ret sid) /\
    get_strategy m1 sid = Some (mkStrategy sid n d c now "active") /\
    delete_strategy io2 sid m1 = (m2, Ret true) /\
    get_strategy m2 sid = None.
Proof.
  intros Hfresh Hd1 Hd2.
  set (new := mkStrategy sid n d c now "active").
  set (ma := mkManager (strategies m ++ [new]) (strategy_file m) (log m)).
  destruct (save_ok io1 ma Hd1) as (ms & Hs & Hss).
  set (m1 := mkManager (strategies ms) (strategy_file ms)
               (log ms ++ [(INFO, ("Strategy '" ++ n ++ "' added with ID " ++ sid)%string)])).
  assert (Hget : find_strategy sid (strategies m1) = Some new).
  { simpl. rewrite Hss. simpl. rewrite find_strategy_app, Hfresh. simpl.
    by rewrite String.eqb_refl. }
  set (kept := filter (fun s => id s <> sid) (strategies m1)).
  set (mk := mkManager kept (strategy_file m1) (log m1)).
  destruct (save_ok io2 mk Hd2) as (md & Hsd & Hsds).
  exists m1, (mkManager (strategies md) (strategy_file md)
                (log md ++ [(INFO, ("Strategy " ++ sid ++ " deleted.")%string)])).
  repeat split.
  - unfold add_strategy, bind at 1. fold new. simpl. fold ma.
    unfold bind at 1. rewrite Hs. done.
  - exact Hget.
  - unfold delete_strategy. fold kept.
    pose proof (filter_ne_length _ _ _ Hget) as Hlt.
    fold kept in Hlt. apply Nat.ltb_lt in Hlt. rewrite Hlt.
    fold mk. unfold bind at 1. rewrite Hsd. done.
  - unfold get_strategy. simpl. rewrite Hsds. simpl.
    apply find_strategy_filter_ne.
Qed.

Lemma add_get_delete_roundtrip_witness :
  exists m1 m2,
    add_strategy (mkIO false true false) "0a1b2c3d" "2026-01-05T09:30:00"
      "ma cross" "MA5 over MA20" "def generate_signals(df): ..."
      example_store = (m1, Ret "0a1b2c3d") /\
    get_strategy m1 "0a1b2c3d" =
      Some (mkStrategy "0a1b2c3d" "ma cross" "MA5 over MA20"
              "def generate_signals(df): ..." "2026-01-05T09:30:00" "active") /\
    delete_strategy (mkIO false false false) "0a1b2c3d" m1 = (m2, Ret true) /\
    get_strategy m2 "0a1b2c3d" = None.
Proof.
  apply (add_get_delete_roundtrip (mkIO false true false) (mkIO false false false) example_store);
    reflexivity.
Defined.

(** C10.  [toggle_strategy] does not look at the status it is given.  For
    a stored id and any string, it returns true (the directory of the file
    being creatable), the first strategy with that id gets the string as its
    status and nothing else in the list changes, and afterwards
    [get_active_strategies] contains that strategy exactly when the string is
    "active".  For an id that is not stored it returns false and the manager
    is unchanged. *)
Theorem toggle_strategy_unvalidated io m sid new_status :
  makedirs_fails io = false ->
  (forall s, find_strategy sid (strategies m) = Some s ->
     exists m' l1 l2,
       toggle_strategy io sid new_status m = (m', Ret true) /\
       strategies m = l1 ++ s :: l2 /\
       find_strategy sid l1 = None /\
       strategies m' = l1 ++ set_status new_status s :: l2 /\
       get_strategy m' sid = Some (set_status new_status s) /\
       status (set_status new_status s) = new_status /\
       (set_status new_status s ∈ get_active_strategies m' <-> new_status = "active")) /\
  (find_strategy sid (strategies m) = None ->
     toggle_strategy io sid new_status m = (m, Ret false)).
Proof.
  intros Hd. split.
  - intros s Hf.
    destruct (toggle_first_Some _ _ new_status _ Hf) as (l1 & l2 & Hl & Hn & Ht).
    set (mt := mkManager (l1 ++ set_status new_status s :: l2) (strategy_file m) (log m)).
    destruct (save_ok io mt Hd) as (ms & Hs & Hss).
    exists ms, l1, l2.
    assert (Hm' : strategies ms = l1 ++ set_status new_status s :: l2) by by rewrite Hss.
    repeat split.
    + unfold toggle_strategy. rewrite Ht. fold mt. unfold bind. by rewrite Hs.
    + exact Hl.
    + exact Hn.
    + exact Hm'.
    + unfold get_strategy. rewrite Hm', find_strategy_app, Hn. simpl.
      apply find_strategy_id in Hf. rewrite Hf, String.eqb_refl. done.
    + unfold get_active_strategies. rewrite list_elem_of_filter. simpl. tauto.
    + intros ->. unfold get_active_strategies. rewrite list_elem_of_filter.
      split; [done|]. rewrite Hm'. set_solver.
  - intros Hf. unfold toggle_strategy. by rewrite (toggle_first_None _ _ _ Hf).
Qed.

Lemma toggle_strategy_unvalidated_witness :
  (forall s, find_strategy "ffee0011" (strategies example_store) = Some s ->
     exists m' l1 l2,
       toggle_strategy (mkIO false false false) "ffee0011" "paused" example_store
         = (m', Ret true) /\
       strategies example_store = l1 ++ s :: l2 /\
       find_strategy "ffee0011" l1 = None /\
       strategies m' = l1 ++ set_status "paused" s :: l2 /\
       get_strategy m' "ffee0011" = Some (set_status "paused" s) /\
       status (set_status "paused" s) = "paused" /\
       (set_status "paused" s ∈ get_active_strategies m' <-> "paused" = "active")) /\
  (find_strategy "ffee0011" (strategies example_store) = None ->
     toggle_strategy (mkIO false false false) "ffee0011" "paused" example_store
       = (example_store, Ret false)).
Proof.
  apply (toggle_strategy_unvalidated (mkIO false false false) example_store). reflexivity.
Defined.

(** C7, as stated: a failed write makes the mutating operation raise.  It
    does not: with a file system on which the write fails, the three
    operations return as if nothing had happened. *)
Lemma write_failure_not_propagated :
  write_fails failing_disk = true /\
  (add_strategy failing_disk "0a1b2c3d" "t" "n" "d" "c" example_store).2
    = Ret "0a1b2c3d" /\
  (delete_strategy failing_disk "ffee0011" example_store).2 = Ret true /\
  (toggle_strategy failing_disk "ffee0011" "active" example_store).2 = Ret true.
Proof. repeat split. Qed.

(** C7, amended.  When opening or writing the file fails (the directory
    having been created), [_save_strategies] catches the failure and logs it
    as an error; the operation returns what it returns on success
    ([add_strategy] the new id, [delete_strategy] and [toggle_strategy] of a
    stored id true) and the list in memory carries the change.  The file
    keeps its content when it could not be opened; it is left cut off when
    the failure came after it was opened, and a manager created over it then
    starts from the empty list. *)
Theorem write_failure_logged_and_swallowed io m new_id now n d c sid new_status s :
  write_fails io = true ->
  makedirs_fails io = false ->
  find_strategy sid (strategies m) = Some s ->
  let failure := (ERROR, ("Failed to save strategies: " ++ str OSError)%string) in
  let file := if after_open io then CutOff else strategy_file m in
  (exists m',
     add_strategy io new_id now n d c m = (m', Ret new_id) /\
     strategies m' = strategies m ++ [mkStrategy new_id n d c now "active"] /\
     strategy_file m' = file /\ failure ∈ log m') /\
  (exists m',
     delete_strategy io sid m = (m', Ret true) /\
     strategies m' = filter (fun x => id x <> sid) (strategies m) /\
     strategy_file m' = file /\ failure ∈ log m') /\
  (exists m',
     toggle_strategy io sid new_status m = (m', Ret true) /\
     toggle_first sid new_status (strategies m) = Some (strategies m') /\
     strategy_file m' = file /\ failure ∈ log m') /\
  (forall read_fails logged,
     list_strategies (__init__ read_fails CutOff logged).1 = []).
Proof.
  intros Hw Hd Hf failure file.
  assert (Hsave : forall m0, _save_strategies io m0 =
            (mkManager (strategies m0)
               (if after_open io then CutOff else strategy_file m0)
               (log m0 ++ [failure]), Ret tt)).
  { intros m0. unfold _save_strategies, bind, makedirs, try_except, dump.
    rewrite Hd, Hw. done. }
  split; [|split; [|split]].
  - eexists. unfold add_strategy, bind. simpl. rewrite Hsave. simpl.
    repeat split. set_solver.
  - eexists. unfold delete_strategy.
    pose proof (filter_ne_length _ _ _ Hf) as Hlt.
    apply Nat.ltb_lt in Hlt. rewrite Hlt.
    unfold bind. rewrite Hsave. simpl. repeat split. set_solver.
  - destruct (toggle_first_Some _ _ new_status _ Hf) as (l1 & l2 & Hl & Hn & Ht).
    eexists. unfold toggle_strategy. rewrite Ht. unfold bind. rewrite Hsave. simpl.
    repeat split. set_solver.
  - intros read_fails logged. by destruct read_fails.
Qed.

Lemma write_failure_logged_and_swallowed_witness :
  (exists m',
     add_strategy failing_disk "0a1b2c3d" "t" "n" "d" "c" example_store
       = (m', Ret "0a1b2c3d") /\
     strategies m' =
       strategies example_store ++ [mkStrategy "0a1b2c3d" "n" "d" "c" "t" "active"] /\
     strategy_file m' = CutOff /\
     (ERROR, ("Failed to save strategies: " ++ str OSError)%string) ∈ log m') /\
  (exists m',
     delete_strategy failing_disk "ffee0011" example_store = (m', Ret true) /\
     strategies m' = filter (fun x => id x <> "ffee0011") (strategies example_store) /\
     strategy_file m' = CutOff /\
     (ERROR, ("Failed to save strategies: " ++ str OSError)%string) ∈ log m') /\
  (exists m',
     toggle_strategy failing_disk "ffee0011" "active" example_store = (m', Ret true) /\
     toggle_first "ffee0011" "active" (strategies example_store) = Some (strategies m') /\
     strategy_file m' = CutOff /\
     (ERROR, ("Failed to save strategies: " ++ str OSError)%string) ∈ log m') /\
  (forall read_fails logged,
     list_strategies (__init__ read_fails CutOff logged).1 = []).
Proof.
  apply (write_failure_logged_and_swallowed failing_disk example_store
           "0a1b2c3d" "t" "n" "d" "c" "ffee0011" "active"
           (mkStrategy "ffee0011" "old" "" "" "" "inactive"));
    reflexivity.
Defined.

(** The one failure of a save that does reach the caller: the directory of
    the file cannot be created. *)
Lemma makedirs_failure_propagates io m :
  makedirs_fails io = true -> _save_strategies io m = (m, Raise OSError).
Proof.
  intros Hd. unfold _save_strategies, bind, makedirs. by rewrite Hd.
Qed.

End StrategyStoreClaims.

(** ** Frames and the heap *)

Section Frames.

Implicit Types (d : DataFrame) (s : Series) (h : Heap) (c : string).

Lemma reindex_length n s : length (reindex n s) = n.
Proof.
  unfold reindex. rewrite length_take, length_app, repeat_length. lia.
Qed.

Lemma reindex_id n s : length s = n -> reindex n s = s.
Proof.
  intros <-. unfold reindex. by rewrite take_app_length.
Qed.

Lemma reindex_reindex n s : reindex n (reindex n s) = reindex n s.
Proof. apply reindex_id, reindex_length. Qed.

Lemma getcol_length c d s : getcol c d = Some s -> length s = nrows d.
Proof.
  unfold getcol. destruct (assoc_get c (cols d)); simpl; [|done].
  intros [= <-]. apply reindex_length.
Qed.

Lemma assoc_get_set_eq {V} c (v : V) l : assoc_get c (assoc_set c v l) = Some v.
Proof.
  induction l as [|[k w] l IH]; simpl.
  - by rewrite String.eqb_refl.
  - destruct (String.eqb k c) eqn:E; simpl.
    + by rewrite String.eqb_refl.
    + by rewrite E.
Qed.

Lemma assoc_get_set_ne {V} c c' (v : V) l :
  c <> c' -> assoc_get c' (assoc_set c v l) = assoc_get c' l.
Proof.
  intros Hne. induction l as [|[k w] l IH]; simpl.
  - destruct (String.eqb_spec c c'); [done|done].
  - destruct (String.eqb_spec k c) as [->|Hk]; simpl.
    + destruct (String.eqb_spec c c'); [done|done].
    + by rewrite IH.
Qed.

Lemma assoc_get_tabulate {V} (f : string -> V) names c :
  assoc_get c (map (fun k => (k, f k)) names) =
  if existsb (String.eqb c) names then Some (f c) else None.
Proof.
  induction names as [|k names IH]; simpl; [done|].
  rewrite (String.eqb_sym c k).
  destruct (String.eqb_spec k c) as [->|Hk]; simpl; [done|apply IH].
Qed.

Lemma has_column_getcol c d : has_column d c = true <-> is_Some (getcol c d).
Proof.
  unfold has_column, column_names, getcol.
  induction (cols d) as [|[k w] l IH]; simpl.
  - split; [done|]. by intros [? ?].
  - rewrite (String.eqb_sym c k).
    destruct (String.eqb k c); simpl; [|exact IH].
    split; [eauto|done].
Qed.

(** Reading an object leaves the heap as it is. *)
Lemma insert_deref h r : <[r := deref h r]> h = h.
Proof.
  unfold deref. destruct (h !! r) as [d|] eqn:E; simpl.
  - by apply list_insert_id.
  - apply list_insert_ge. by apply lookup_ge_None.
Qed.

Lemma deref_alloc h d : deref (h ++ [d]) (length h) = d.
Proof.
  unfold deref. rewrite lookup_app_r by lia.
  by replace (length h - length h)%nat with 0%nat by lia.
Qed.

Lemma deref_alloc_old h d r : r < length h -> deref (h ++ [d]) r = deref h r.
Proof. intros Hr. unfold deref. by rewrite lookup_app_l. Qed.

Lemma insert_alloc h d d' : <[length h := d']> (h ++ [d]) = h ++ [d'].
Proof.
  rewrite insert_app_r_alt by lia.
  by replace (length h - length h)%nat with 0%nat by lia.
Qed.

(** A computation on the newest object. *)
Lemma on_alloc {A} (m : SE DataFrame A) h d :
  on (length h) m (h ++ [d]) = let '(d', o) := m d in (h ++ [d'], o).
Proof.
  unfold on. rewrite deref_alloc. destruct (m d) as [d' o].
  by rewrite insert_alloc.
Qed.

Lemma on_getitem c r h :
  on r (getitem c) h =
  (h, match getcol c (deref h r) with
      | Some s => Ret s
      | None => Raise (KeyError c)
      end).
Proof.
  unfold on, getitem. destruct (getcol c (deref h r)); by rewrite insert_deref.
Qed.

End Frames.

(** ** The window merge *)

Section WindowMerge.

Implicit Types (d : DataFrame) (s : Series) (h : Heap) (c : string).

Lemma Qltb_lt a b : Qltb a b = true <-> (a < b)%Q.
Proof.
  unfold Qltb. rewrite negb_true_iff, <- not_true_iff_false, Qle_bool_iff.
  split; [apply Qnot_le_lt|apply Qlt_not_le].
Qed.

Lemma flt_irrefl_eq x y : feqb x y = true -> flt y x = false.
Proof.
  destruct x as [a| | |], y as [b| | |]; simpl; try done.
  intros He. apply Qeq_bool_iff in He.
  apply not_true_iff_false. rewrite Qltb_lt. rewrite He. apply Qlt_irrefl.
Qed.

Lemma flt_asym x y : flt x y = true -> flt y x = false /\ feqb x y = false.
Proof.
  destruct x as [a| | |], y as [b| | |]; simpl; try done.
  rewrite Qltb_lt. intros Hlt. split; apply not_true_iff_false.
  - rewrite Qltb_lt. by apply Qle_not_lt, Qlt_le_weak.
  - rewrite Qeq_bool_iff. intros He. rewrite He in Hlt. by apply Qlt_irrefl in Hlt.
Qed.

Lemma column_or_nan_length c d : length (column_or_nan c d) = nrows d.
Proof.
  unfold column_or_nan. destruct (getcol c d) eqn:E; simpl.
  - by apply getcol_length in E.
  - apply repeat_length.
Qed.

Lemma column_or_nan_Some c d s : getcol c d = Some s -> column_or_nan c d = s.
Proof. unfold column_or_nan. by intros ->. Qed.

Lemma getcol_concat c da db s :
  getcol c da = Some s ->
  getcol c (concat_frames da db) = Some (s ++ column_or_nan c db).
Proof.
  intros Hs. unfold concat_frames, getcol at 1. simpl.
  rewrite (assoc_get_tabulate (fun c => column_or_nan c da ++ column_or_nan c db)).
  rewrite existsb_app.
  assert (Hc : has_column da c = true) by (apply has_column_getcol; eauto).
  unfold has_column in Hc. rewrite Hc. simpl.
  rewrite (column_or_nan_Some _ _ _ Hs). f_equal. apply reindex_id.
  rewrite length_app, column_or_nan_length. apply getcol_length in Hs. lia.
Qed.

Lemma nrows_set_last c v d : nrows (set_last c v d) = nrows d.
Proof. done. Qed.

Lemma getcol_set_last_eq c v d :
  getcol c (set_last c v d) = Some (<[pred (nrows d) := v]> (column_or_nan c d)).
Proof.
  unfold getcol, set_last. simpl. rewrite assoc_get_set_eq. simpl.
  f_equal. apply reindex_id. rewrite length_insert. apply column_or_nan_length.
Qed.

Lemma getcol_set_last_ne c c' v d :
  c <> c' -> getcol c' (set_last c v d) = getcol c' d.
Proof.
  intros Hne. unfold getcol, set_last. simpl. by rewrite assoc_get_set_ne.
Qed.

Lemma deref_live h r : deref h r <> empty_frame -> r < length h.
Proof.
  unfold deref. intros Hd. destruct (h !! r) eqn:E.
  - by apply lookup_lt_Some in E.
  - done.
Qed.

Lemma cell_concat c i da db s :
  getcol c da = Some s ->
  cell c i (concat_frames da db) = (s ++ column_or_nan c db) !! i.
Proof. intros Hs. unfold cell. by rewrite (getcol_concat _ _ _ _ Hs). Qed.

Lemma cell_old c i d s x :
  getcol c d = Some s -> i < nrows d -> cell c i d = (s ++ x) !! i.
Proof.
  intros Hs Hi. unfold cell. rewrite Hs. simpl.
  rewrite lookup_app_l; [done|]. apply getcol_length in Hs. lia.
Qed.

Lemma lookup_app_length s (x : fl) : (s ++ [x]) !! length s = Some x.
Proof.
  rewrite lookup_app_r by lia.
  by replace (length s - length s)%nat with 0%nat by lia.
Qed.

Lemma price_frame_columns d :
  price_frame d ->
  exists dt o hi lo cl v,
    getcol "date" d = Some dt /\ getcol "open" d = Some o /\
    getcol "high" d = Some hi /\ getcol "low" d = Some lo /\
    getcol "close" d = Some cl /\ getcol "volume" d = Some v.
Proof.
  unfold price_frame, bar_columns. rewrite !Forall_cons.
  intros ([dt ?] & [o ?] & [hi ?] & [lo ?] & [cl ?] & [v ?] & _).
  by exists dt, o, hi, lo, cl, v.
Qed.

(** Appending the live bar: the old bars stay, the new last bar is the
    live bar. *)
Lemma bar_at_concat_old d snapshot i :
  price_frame d -> i < nrows d ->
  bar_at (concat_frames d (frame_of_snapshot snapshot)) i = bar_at d i.
Proof.
  intros Hp Hi.
  destruct (price_frame_columns d Hp) as (dt & o & hi & lo & cl & v & H1 & H2 & H3 & H4 & H5 & H6).
  unfold bar_at.
  rewrite (cell_concat _ _ _ _ _ H1), (cell_concat _ _ _ _ _ H2),
    (cell_concat _ _ _ _ _ H3), (cell_concat _ _ _ _ _ H4),
    (cell_concat _ _ _ _ _ H5), (cell_concat _ _ _ _ _ H6).
  by rewrite <- (cell_old _ _ _ _ _ H1 Hi), <- (cell_old _ _ _ _ _ H2 Hi),
    <- (cell_old _ _ _ _ _ H3 Hi), <- (cell_old _ _ _ _ _ H4 Hi),
    <- (cell_old _ _ _ _ _ H5 Hi), <- (cell_old _ _ _ _ _ H6 Hi).
Qed.

Lemma cell_concat_new c d snapshot s x :
  getcol c d = Some s ->
  column_or_nan c (frame_of_snapshot snapshot) = [x] ->
  cell c (nrows d) (concat_frames d (frame_of_snapshot snapshot)) = Some x.
Proof.
  intros Hs Hx. rewrite (cell_concat _ _ _ _ _ Hs), Hx.
  rewrite <- (getcol_length _ _ _ Hs). apply lookup_app_length.
Qed.

Lemma bar_at_concat_new d snapshot :
  price_frame d ->
  bar_at (concat_frames d (frame_of_snapshot snapshot)) (nrows d) = Some snapshot.
Proof.
  intros Hp.
  destruct (price_frame_columns d Hp) as (dt & o & hi & lo & cl & v & H1 & H2 & H3 & H4 & H5 & H6).
  unfold bar_at.
  rewrite (cell_concat_new _ _ _ _ (date snapshot) H1) by done.
  rewrite (cell_concat_new _ _ _ _ (open snapshot) H2) by done.
  rewrite (cell_concat_new _ _ _ _ (high snapshot) H3) by done.
  rewrite (cell_concat_new _ _ _ _ (low snapshot) H4) by done.
  rewrite (cell_concat_new _ _ _ _ (close snapshot) H5) by done.
  rewrite (cell_concat_new _ _ _ _ (volume snapshot) H6) by done.
  simpl. by destruct snapshot.
Qed.

Lemma column_or_nan_set_last_ne c c' v d :
  c <> c' -> column_or_nan c' (set_last c v d) = column_or_nan c' d.
Proof.
  intros Hne. unfold column_or_nan. by rewrite getcol_set_last_ne.
Qed.

Lemma getcol_refreshed snapshot d :
  let n := pred (nrows d) in
  getcol "date" (refreshed snapshot d) = getcol "date" d /\
  getcol "open" (refreshed snapshot d) = Some (<[n := open snapshot]> (column_or_nan "open" d)) /\
  getcol "high" (refreshed snapshot d) = Some (<[n := high snapshot]> (column_or_nan "high" d)) /\
  getcol "low" (refreshed snapshot d) = Some (<[n := low snapshot]> (column_or_nan "low" d)) /\
  getcol "close" (refreshed snapshot d) = Some (<[n := close snapshot]> (column_or_nan "close" d)) /\
  getcol "volume" (refreshed snapshot d) = Some (<[n := volume snapshot]> (column_or_nan "volume" d)).
Proof.
  intros n. unfold refreshed.
  repeat split;
    rewrite ?getcol_set_last_ne by discriminate;
    rewrite ?getcol_set_last_eq;
    rewrite ?column_or_nan_set_last_ne by discriminate;
    done.
Qed.

(** What [merge_window] evaluates to, branch by branch. *)
Lemma merge_window_eval h hist_df snapshot dates D :
  getcol "date" (deref h hist_df) = Some dates ->
  last dates = Some D ->
  merge_window hist_df snapshot h =
  if fgt (date snapshot) D then
    (h ++ [frame_of_snapshot snapshot] ++
       [concat_frames (deref h hist_df) (frame_of_snapshot snapshot)],
     Ret (S (length h)))
  else if feqb (date snapshot) D then
    (h ++ [refreshed snapshot (deref h hist_df)], Ret (length h))
  else (h ++ [deref h hist_df], Ret (length h)).
Proof.
  intros Hdates HD.
  assert (Hlive : hist_df < length h).
  { apply deref_live. intros He. by rewrite He in Hdates. }
  assert (Hn : exists n, nrows (deref h hist_df) = S n).
  { apply getcol_length in Hdates. destruct dates; [done|]. simpl in Hdates. eauto. }
  destruct Hn as [n Hn].
  unfold merge_window. unfold bind at 1. rewrite on_getitem, Hdates.
  unfold bind at 1, lift, iloc_last. rewrite HD.
  destruct (fgt (date snapshot) D).
  - unfold bind, alloc, concat, alloc.
    rewrite deref_alloc, deref_alloc_old by done.
    rewrite length_app. simpl. rewrite <- app_assoc. do 2 f_equal. lia.
  - destruct (feqb (date snapshot) D); [|done].
    unfold bind at 1, copy, alloc.
    unfold bind at 1. simpl.
    unfold bind at 1. rewrite on_alloc. unfold at_last_set at 1. rewrite Hn. simpl.
    unfold bind at 1. rewrite on_alloc. unfold at_last_set at 1. rewrite nrows_set_last, Hn.
    unfold bind at 1. rewrite on_alloc. unfold at_last_set at 1. rewrite !nrows_set_last, Hn.
    unfold bind at 1. rewrite on_alloc. unfold at_last_set at 1. rewrite !nrows_set_last, Hn.
    unfold bind at 1. rewrite on_alloc. unfold at_last_set at 1. rewrite !nrows_set_last, Hn.
    done.
Qed.

(** C2.  The window merge, by the date of the live bar against the date
    [D] of the last bar of the window.  Later: the merged window has one more
    row, its earlier bars are those of the window and its last bar is the
    live bar.  Same date: the merged window has as many rows and the same
    dates, its earlier bars are those of the window and its last bar has date
    [D] and the open, high, low, close and volume of the live bar.  Earlier:
    the merged window is equal to the window. *)
Theorem merge_window_cases h hist_df snapshot dates D :
  let d := deref h hist_df in
  price_frame d ->
  getcol "date" d = Some dates ->
  last dates = Some D ->
  exists eval_df h',
    merge_window hist_df snapshot h = (h', Ret eval_df) /\
    let e := deref h' eval_df in
    (fgt (date snapshot) D = true ->
       nrows e = S (nrows d) /\
       (forall i, i < nrows d -> bar_at e i = bar_at d i) /\
       bar_at e (nrows d) = Some snapshot) /\
    (feqb (date snapshot) D = true ->
       nrows e = nrows d /\
       getcol "date" e = getcol "date" d /\
       (forall i, S i < nrows d -> bar_at e i = bar_at d i) /\
       bar_at e (pred (nrows d)) =
         Some (mkSnapshot D (open snapshot) (high snapshot) (low snapshot)
                 (close snapshot) (volume snapshot))) /\
    (flt (date snapshot) D = true -> e = d).
Proof.
  intros d Hp Hdates HD.
  rewrite (merge_window_eval _ _ _ _ _ Hdates HD). fold d.
  destruct (fgt (date snapshot) D) eqn:Eg.
  - eexists _, _. split; [done|]. simpl.
    replace (deref _ (S (length h))) with (concat_frames d (frame_of_snapshot snapshot)).
    2:{ unfold deref. rewrite lookup_app_r by lia.
        by replace (S (length h) - length h)%nat with 1%nat by lia. }
    split; [|split].
    + intros _. split; [simpl; lia|]. split.
      * intros i Hi. by apply bar_at_concat_old.
      * by apply bar_at_concat_new.
    + intros He. apply flt_irrefl_eq in He. unfold fgt in Eg. congruence.
    + intros Hl. apply flt_asym in Hl as [Hl _]. unfold fgt in Eg. congruence.
  - destruct (feqb (date snapshot) D) eqn:Ee.
    + eexists _, _. split; [done|]. simpl. rewrite deref_alloc.
      split; [done|]. split; [|intros Hl; apply flt_asym in Hl as [_ Hl]; congruence].
      intros _.
      destruct (price_frame_columns d Hp) as (dt & o & hi & lo & cl & v & H1 & H2 & H3 & H4 & H5 & H6).
      destruct (getcol_refreshed snapshot d) as (R1 & R2 & R3 & R4 & R5 & R6).
      rewrite (column_or_nan_Some _ _ _ H2) in R2.
      rewrite (column_or_nan_Some _ _ _ H3) in R3.
      rewrite (column_or_nan_Some _ _ _ H4) in R4.
      rewrite (column_or_nan_Some _ _ _ H5) in R5.
      rewrite (column_or_nan_Some _ _ _ H6) in R6.
      pose proof (getcol_length _ _ _ H1) as L1.
      pose proof (getcol_length _ _ _ H2) as L2.
      pose proof (getcol_length _ _ _ H3) as L3.
      pose proof (getcol_length _ _ _ H4) as L4.
      pose proof (getcol_length _ _ _ H5) as L5.
      pose proof (getcol_length _ _ _ H6) as L6.
      assert (Hpos : 0 < nrows d).
      { rewrite <- L1. rewrite Hdates in H1. injection H1 as <-.
        destruct dates; [done|simpl; lia]. }
      split; [done|]. split; [done|]. split.
      * intros i Hi. unfold bar_at, cell. rewrite R1, R2, R3, R4, R5, R6.
        rewrite H1, H2, H3, H4, H5, H6. simpl.
        by rewrite !list_lookup_insert_ne by lia.
      * unfold bar_at, cell. rewrite R1, R2, R3, R4, R5, R6. simpl.
        rewrite !list_lookup_insert_eq by lia. simpl.
        rewrite Hdates. simpl.
        rewrite last_lookup in HD. apply getcol_length in Hdates.
        rewrite Hdates in HD. by rewrite HD.
    + eexists _, _. split; [done|]. simpl. rewrite deref_alloc.
      split; [done|]. split; [done|]. done.
Qed.

Lemma example_window_price_frame : price_frame example_window.
Proof.
  unfold price_frame, bar_columns. rewrite !Forall_cons.
  repeat split; try (eexists; reflexivity). by apply Forall_nil.
Qed.

Lemma merge_window_cases_witness :
  price_frame example_window /\
  exists eval_df h',
    merge_window 0 (example_quote 4) [example_window] = (h', Ret eval_df) /\
    (fgt (date (example_quote 4)) (Num 3) = true ->
       nrows (deref h' eval_df) = S (nrows example_window) /\
       (forall i, i < nrows example_window ->
          bar_at (deref h' eval_df) i = bar_at example_window i) /\
       bar_at (deref h' eval_df) (nrows example_window) = Some (example_quote 4)) /\
    (feqb (date (example_quote 4)) (Num 3) = true ->
       nrows (deref h' eval_df) = nrows example_window /\
       getcol "date" (deref h' eval_df) = getcol "date" example_window /\
       (forall i, S i < nrows example_window ->
          bar_at (deref h' eval_df) i = bar_at example_window i) /\
       bar_at (deref h' eval_df) (pred (nrows example_window)) =
         Some (mkSnapshot (Num 3) (open (example_quote 4)) (high (example_quote 4))
                 (low (example_quote 4)) (close (example_quote 4))
                 (volume (example_quote 4)))) /\
    (flt (date (example_quote 4)) (Num 3) = true ->
       deref h' eval_df = example_window).
Proof.
  split; [exact example_window_price_frame|].
  apply (merge_window_cases [example_window] 0 (example_quote 4)
           [Num 1; Num 2; Num 3] (Num 3));
    [exact example_window_price_frame|reflexivity|reflexivity].
Defined.

(** The three cases on the example window: a quote of the next day is
    appended, a quote of the last day replaces the last bar's prices, a quote
    of an earlier day is dropped. *)
Example merge_window_next_day :
  (let '(h', _) := merge_window 0 (example_quote 4) [example_window] in
   getcol "close" (deref h' 2)) = Some [Num 10.5; Num 11.5; Num 12.5; Num 13.5].
Proof. reflexivity. Qed.

Example merge_window_same_day :
  (let '(h', _) := merge_window 0 (example_quote 3) [example_window] in
   (getcol "close" (deref h' 1), getcol "date" (deref h' 1))) =
  (Some [Num 10.5; Num 11.5; Num 13.5], Some [Num 1; Num 2; Num 3]).
Proof. reflexivity. Qed.

Example merge_window_stale :
  merge_window 0 (example_quote 2) [example_window] =
  ([example_window; example_window], Ret 1).
Proof. reflexivity. Qed.

End WindowMerge.

(** ** The monitoring tick *)

Section Tick.

Implicit Types (d : DataFrame) (h : Heap) (self : Monitor) (w : World).

Lemma for_each_app {S A B} (l1 l2 : list A) (acc : B) (body : B -> A -> SE S B) s :
  for_each (l1 ++ l2) acc body s =
  (acc' <- for_each l1 acc body ;; for_each l2 acc' body) s.
Proof.
  revert acc s. induction l1 as [|x l1 IH]; intros acc s; simpl.
  - done.
  - unfold bind. destruct (body acc x s) as [s' [acc'|e]]; [|done].
    rewrite IH. done.
Qed.

(** One pair, evaluated: the strategy runs on the merged window, in place.
    What it raises that is not an [Exception] is raised by the step; in
    every other case the step returns, with the alerts it was given and
    possibly one more. *)
Lemma check_strategy_eval self stock snapshot now eval_df alerts s_id f h :
  check_strategy self stock snapshot now eval_df alerts (s_id, f) h =
  (<[eval_df := (f (deref h eval_df)).1]> h,
   match (f (deref h eval_df)).2 with
   | Ret (PSeries s) =>
       Ret match last s with
           | Some x =>
               if feqb x f1 then
                 match get_strategy (strategy_mgr self) s_id with
                 | Some info =>
                     alerts ++ [mkAlert stock (close snapshot) (name info) "BUY"
                                  (now (length alerts))]
                 | None => alerts
                 end
               else alerts
           | None => alerts
           end
   | Ret (PScalar _) => Ret alerts
   | Raise e => if is_exception e then Ret alerts else Raise e
   end).
Proof.
  unfold check_strategy, try_except, bind, on.
  destruct (f (deref h eval_df)) as [d' [[s|x]|e]]; simpl; try done.
  - destruct s as [|y s]; [done|].
    unfold lift, iloc_last. destruct (last (y :: s)) as [x|] eqn:El; simpl.
    + destruct (feqb x f1); [|done].
      by destruct (get_strategy (strategy_mgr self) s_id).
    + done.
  - by destruct (is_exception e).
Qed.

(** The same step in the words of the claims: an alert for the pair exactly
    when the signal ends in 1 and the manager knows the strategy. *)
Lemma check_strategy_step self stock snapshot now eval_df alerts s_id f h h' alerts' :
  check_strategy self stock snapshot now eval_df alerts (s_id, f) h = (h', Ret alerts') ->
  h' = <[eval_df := (f (deref h eval_df)).1]> h /\
  alerts' =
    if final_signal_is_one f (deref h eval_df) &&
       bool_decide (is_Some (get_strategy (strategy_mgr self) s_id))
    then alerts ++ [mkAlert stock (close snapshot)
                      (from_option name EmptyString
                         (get_strategy (strategy_mgr self) s_id))
                      "BUY" (now (length alerts))]
    else alerts.
Proof.
  rewrite check_strategy_eval. unfold final_signal_is_one.
  destruct ((f (deref h eval_df)).2) as [[s|x]|e].
  - intros [= <- <-]. split; [done|].
    destruct (last s) as [x|]; [|done].
    destruct (feqb x f1); [|done]. cbn [andb].
    destruct (get_strategy (strategy_mgr self) s_id) as [info|].
    + by rewrite bool_decide_eq_true_2 by by eexists.
    + rewrite bool_decide_eq_false_2; [done|]. by intros [? ?].
  - by intros [= <- <-].
  - destruct (is_exception e); [|done]. by intros [= <- <-].
Qed.

End Tick.

(** ** Neither the backtest nor the tick touches the objects it is given *)

Section Preservation.

Implicit Types (d : DataFrame) (h : Heap) (self : Monitor) (w : World).

Lemma preserves_weaken {A} (h0 : Heap) (m : SE Heap A) (Q Q' : A -> Prop) :
  preserves h0 m Q -> (forall a, Q a -> Q' a) -> preserves h0 m Q'.
Proof.
  intros Hm HQ h Hh. destruct (Hm h Hh) as [Hp Hr]. split; [done|].
  intros a Ha. by apply HQ, Hr.
Qed.

Lemma preserves_ret {A} (h0 : Heap) (a : A) (Q : A -> Prop) : Q a -> preserves h0 (ret a) Q.
Proof. intros Ha h Hh. split; [done|]. by intros ? [= <-]. Qed.

Lemma preserves_raise {A} (h0 : Heap) e (Q : A -> Prop) : preserves h0 (raise e) Q.
Proof. intros h Hh. split; [done|]. done. Qed.

Lemma preserves_lift {A} (h0 : Heap) (o : Outcome A) (Q : A -> Prop) :
  (forall a, o = Ret a -> Q a) -> preserves h0 (RealTimeMonitor.lift o) Q.
Proof. intros Ho h Hh. split; [done|]. exact Ho. Qed.

Lemma preserves_bind {A B} (h0 : Heap) (m : SE Heap A) (k : A -> SE Heap B) Q1 (Q2 : B -> Prop) :
  preserves h0 m Q1 ->
  (forall a, Q1 a -> preserves h0 (k a) Q2) ->
  preserves h0 (bind m k) Q2.
Proof.
  intros Hm Hk h Hh. unfold bind. destruct (Hm h Hh) as [Hp Hr].
  destruct (m h) as [h1 [a|e]]; simpl in *.
  - apply (Hk a); [by apply Hr|done].
  - split; [done|]. done.
Qed.

Lemma preserves_try_except {A} (h0 : Heap) (m : SE Heap A) handler (Q : A -> Prop) :
  preserves h0 m Q ->
  (forall e, preserves h0 (handler e) Q) ->
  preserves h0 (try_except m handler) Q.
Proof.
  intros Hm Hk h Hh. unfold try_except. destruct (Hm h Hh) as [Hp Hr].
  destruct (m h) as [h1 [a|e]]; simpl in *.
  - split; [done|]. intros ? [= <-]. by apply Hr.
  - destruct (is_exception e); [by apply (Hk e)|done].
Qed.

Lemma preserves_for_each {A B} (h0 : Heap) (l : list A) (acc : B) body (Q : B -> Prop) :
  Q acc ->
  (forall b x, Q b -> preserves h0 (body b x) Q) ->
  preserves h0 (for_each l acc body) Q.
Proof.
  intros Hacc Hbody. revert acc Hacc.
  induction l as [|x l IH]; intros acc Hacc; simpl.
  - by apply preserves_ret.
  - eapply preserves_bind; [by apply Hbody|]. intros b Hb. by apply IH.
Qed.

Lemma preserves_alloc (h0 : Heap) d : preserves h0 (alloc d) (fun r => length h0 <= r).
Proof.
  intros h Hh. unfold alloc. simpl. split.
  - by apply prefix_app_r.
  - intros r [= <-]. by apply prefix_length.
Qed.

Lemma preserves_copy (h0 : Heap) r : preserves h0 (copy r) (fun r' => length h0 <= r').
Proof. intros h Hh. unfold copy. by apply preserves_alloc. Qed.

Lemma preserves_concat (h0 : Heap) a b : preserves h0 (concat a b) (fun r' => length h0 <= r').
Proof. intros h Hh. unfold concat. by apply preserves_alloc. Qed.

(** Updating an object allocated after [h0]. *)
Lemma preserves_on {A} (h0 : Heap) r (m : SE DataFrame A) :
  length h0 <= r -> preserves h0 (on r m) (fun _ => True).
Proof.
  intros Hr h [t ->]. unfold on. destruct (m (deref (h0 ++ t) r)) as [d o].
  simpl. split; [|done].
  rewrite insert_app_r_alt by done. by eexists.
Qed.

(** Reading any object. *)
Lemma preserves_on_getitem (h0 : Heap) r c : preserves h0 (on r (getitem c)) (fun _ => True).
Proof. intros h Hh. rewrite on_getitem. done. Qed.

Lemma preserves_merge_window (h0 : Heap) hist_df snapshot :
  preserves h0 (merge_window hist_df snapshot) (fun r => length h0 <= r).
Proof.
  unfold merge_window.
  eapply preserves_bind; [apply preserves_on_getitem|]. intros dates _.
  eapply preserves_bind with (Q1 := fun _ => True); [by apply preserves_lift|].
  intros last_date _.
  destruct (fgt (date snapshot) last_date).
  - eapply preserves_bind; [apply preserves_alloc|]. intros new_row _.
    apply preserves_concat.
  - destruct (feqb (date snapshot) last_date); [|apply preserves_copy].
    eapply preserves_bind; [apply preserves_copy|]. intros eval_df He.
    eapply preserves_bind with (Q1 := fun _ => True).
    + apply preserves_for_each; [done|]. intros _ cv _. by apply preserves_on.
    + intros _ _. by apply preserves_ret.
Qed.

Lemma preserves_check_strategy (h0 : Heap) self stock snapshot now eval_df alerts entry :
  length h0 <= eval_df ->
  preserves h0 (check_strategy self stock snapshot now eval_df alerts entry)
    (fun _ => True).
Proof.
  intros He h [t ->]. destruct entry as [s_id f].
  rewrite check_strategy_eval. simpl. split; [|done].
  rewrite insert_app_r_alt by done. by eexists.
Qed.

Lemma preserves_check_stock (h0 : Heap) self now alerts item :
  preserves h0 (check_stock self now alerts item) (fun _ => True).
Proof.
  destruct item as [stock_code snapshot]. unfold check_stock.
  destruct (history_cache self !! stock_code) as [hist_df|]; [|by apply preserves_ret].
  eapply preserves_bind; [apply preserves_merge_window|]. intros eval_df He.
  apply preserves_for_each; [done|]. intros b x _.
  by apply preserves_check_strategy.
Qed.

Lemma preserves_run (h0 : Heap) strategy_func df initial_capital commission :
  preserves h0 (run strategy_func df initial_capital commission)
    (fun result =>
       match result with
       | Stats _ data => length h0 <= data
       | _ => True
       end).
Proof.
  unfold run.
  eapply preserves_bind; [apply preserves_copy|]. intros data Hdata.
  eapply preserves_bind; [by apply preserves_on|]. intros columns _.
  destruct (negb _); [by apply preserves_ret|].
  apply preserves_try_except.
  - eapply preserves_bind; [by apply preserves_on|]. intros result _.
    by apply preserves_ret.
  - intros e. by apply preserves_ret.
Qed.

(** C8.  The backtest and the tick leave their inputs as they are.  Every
    DataFrame object that exists when [run] is called, the caller's [df]
    among them, has the same content when [run] returns, and the frame that
    [run] returns under ['data'] is a new object; every DataFrame object
    that exists when a tick starts, the cached history windows among them,
    has the same content when the tick ends ([run_once] does not assign the
    cache itself either: it only reads [self]), and the window that the merge
    hands to the strategies is a new object. *)
Theorem inputs_not_mutated :
  (forall strategy_func df initial_capital commission h,
     let '(h', result) := run strategy_func df initial_capital commission h in
     (forall r d, h !! r = Some d -> h' !! r = Some d) /\
     (forall m data, result = Ret (Stats m data) -> length h <= data)) /\
  (forall self realtime_data now w,
     let w' := (run_once self realtime_data now w).1 in
     forall r d, heap w !! r = Some d -> heap w' !! r = Some d) /\
  (forall hist_df snapshot h,
     let '(h', result) := merge_window hist_df snapshot h in
     (forall r d, h !! r = Some d -> h' !! r = Some d) /\
     (forall eval_df, result = Ret eval_df -> length h <= eval_df)).
Proof.
  split; [|split].
  - intros strategy_func df initial_capital commission h.
    destruct (preserves_run h strategy_func df initial_capital commission h) as [Hp Hr];
      [done|].
    destruct (run strategy_func df initial_capital commission h) as [h' result].
    simpl in *. split.
    + intros r d Hd. by eapply prefix_lookup_Some.
    + intros m data ->. by apply (Hr (Stats m data)).
  - intros self realtime_data now w w' r d Hd. subst w'.
    unfold run_once.
    destruct (length (compiled_strategies self) =? 0)%nat; [done|].
    destruct (bool_decide _); [done|].
    unfold bind, in_heap.
    pose proof (preserves_for_each (heap w) realtime_data [] (check_stock self now)
                  (fun _ => True) I) as Hp.
    destruct (Hp (fun b x _ => preserves_check_stock _ _ _ _ _) (heap w)) as [Hpre _];
      [done|].
    destruct (for_each realtime_data [] (check_stock self now) (heap w))
      as [h' [alerts|e]]; simpl in *.
    + destruct alerts; simpl; by eapply prefix_lookup_Some.
    + by eapply prefix_lookup_Some.
  - intros hist_df snapshot h.
    destruct (preserves_merge_window h hist_df snapshot h) as [Hp Hr]; [done|].
    destruct (merge_window hist_df snapshot h) as [h' result]. simpl in *. split.
    + intros r d Hd. by eapply prefix_lookup_Some.
    + intros eval_df ->. by apply Hr.
Qed.

End Preservation.

(** ** Alerts of a tick *)

Section Alerts.

Implicit Types (d : DataFrame) (h : Heap) (self : Monitor) (w : World).












(** On the example: the failing strategy is skipped and the always long
    one raises its alert, with or without the failing one. *)
Example tick_with_failing_strategy :
  sent (run_once example_monitor [("600519", example_quote 4)] example_clock
          (mkWorld [example_window] [])).1 =
  [[mkAlert "600519" (Num 13.5) "buy and hold" "BUY" "09:31:00"]].
Proof. by vm_compute. Qed.

Lemma filter_bool_ext {A} (p q : A -> bool) (l : list A) :
  (forall x, x ∈ l -> p x = q x) ->
  filter (fun x => p x = true) l = filter (fun x => q x = true) l.
Proof.
  induction l as [|x l IH]; intros Hpq; [done|].
  rewrite !filter_cons, (Hpq x) by (apply elem_of_cons; by left).
  rewrite IH; [done|]. intros y Hy. apply Hpq, elem_of_cons. by right.
Qed.

(** When the merge returns, it leaves the objects that were there alone and
    the window it returns is the merged frame. *)
Lemma merge_window_returns h hist_df snapshot h1 eval_df :
  merge_window hist_df snapshot h = (h1, Ret eval_df) ->
  h `prefix_of` h1 /\
  merged_frame (deref h hist_df) snapshot = Some (deref h1 eval_df).
Proof.
  destruct (getcol "date" (deref h hist_df)) as [dates|] eqn:Ed.
  2:{ unfold merge_window. unfold bind at 1. by rewrite on_getitem, Ed. }
  destruct (last dates) as [D|] eqn:El.
  2:{ unfold merge_window. unfold bind at 1. rewrite on_getitem, Ed.
      unfold bind at 1, lift, iloc_last. by rewrite El. }
  rewrite (merge_window_eval _ _ _ _ _ Ed El).
  unfold merged_frame. rewrite Ed. cbn [mbind option_bind]. rewrite El.
  cbn [mbind option_bind].
  destruct (fgt (date snapshot) D); [|destruct (feqb (date snapshot) D)];
    intros [= <- <-].
  - split; [by apply prefix_app_r|]. f_equal. unfold deref at 2.
    rewrite lookup_app_r by lia.
    by replace (S (length h) - length h)%nat with 1%nat by lia.
  - split; [by apply prefix_app_r|]. by rewrite deref_alloc.
  - split; [by apply prefix_app_r|]. by rewrite deref_alloc.
Qed.

(** The inner loop over strategies that leave the window as it is, when it
    runs to its end: the window is as it was, and the alerts are those given
    followed by one for each strategy that is due one, in order. *)
Lemma strategies_loop_due self quote now eval_df cs alerts h h' alerts' :
  (forall s_id f, (s_id, f) ∈ cs -> leaves_frame f) ->
  for_each cs alerts (check_strategy self quote.1 quote.2 now eval_df) h = (h', Ret alerts') ->
  h' = h /\
  alerts' =
    alerts ++ imap (fun k => alert_of_pair self now (length alerts + k))
                (filter (fun p => due self (deref h eval_df) p = true) (pair quote <$> cs)).
Proof.
  revert alerts h' alerts'. induction cs as [|[s_id f] cs IH]; intros alerts h' alerts' Hl.
  - intros [= <- <-]. by rewrite app_nil_r.
  - cbn [for_each]. unfold bind.
    destruct (check_strategy self quote.1 quote.2 now eval_df alerts (s_id, f) h)
      as [h1 [alerts1|e]] eqn:E; [|done].
    apply check_strategy_step in E as [-> ->].
    rewrite (Hl s_id f) by (apply elem_of_cons; by left). rewrite insert_deref.
    intros E. apply IH in E as [-> ->].
    2:{ intros k g Hin. apply (Hl k g), elem_of_cons. by right. }
    split; [done|]. rewrite fmap_cons, filter_cons.
    change (final_signal_is_one f (deref h eval_df) && _)
      with (due self (deref h eval_df) (quote, (s_id, f))).
    destruct (due self (deref h eval_df) (quote, (s_id, f))) eqn:Ed.
    + rewrite decide_True by done. rewrite <- app_assoc. f_equal. cbn [app imap].
      unfold alert_of_pair at 2. cbn [fst snd]. rewrite Nat.add_0_r. f_equal.
      apply imap_ext. intros i p _. unfold compose. rewrite length_app. cbn [length].
      by replace (length alerts + 1 + i) with (length alerts + S i) by lia.
    + rewrite decide_False by done. done.
Qed.

(** The outer loop, likewise: the objects that were there when the tick
    started are as they were, and the alerts are those given followed by one
    for each pair that is due one. *)
Lemma stocks_loop_due self now data alerts h0 h h' alerts' :
  (forall s_id f, (s_id, f) ∈ compiled_strategies self -> leaves_frame f) ->
  cache_live self h0 ->
  h0 `prefix_of` h ->
  for_each data alerts (check_stock self now) h = (h', Ret alerts') ->
  h0 `prefix_of` h' /\
  alerts' =
    alerts ++ imap (fun k => alert_of_pair self now (length alerts + k))
                (filter (fun p => alerting self h0 p = true) (pairs_of_tick self data)).
Proof.
  intros Hl Hlive. revert alerts h h' alerts'.
  induction data as [|[stock_code snapshot] data IH]; intros alerts h h' alerts' Hp.
  - intros [= <- <-]. by rewrite app_nil_r.
  - cbn [for_each]. unfold bind at 1, check_stock at 1.
    unfold pairs_of_tick. rewrite bind_cons, filter_app, imap_app.
    fold (pairs_of_tick self data).
    destruct (history_cache self !! stock_code) as [hist_df|] eqn:Ec.
    + unfold bind at 1.
      destruct (merge_window hist_df snapshot h) as [h1 [eval_df|e]] eqn:Em; [|done].
      apply merge_window_returns in Em as [Hp1 Hm].
      assert (Hd : deref h hist_df = deref h0 hist_df).
      { destruct Hp as [t ->]. unfold deref. by rewrite lookup_app_l by by eapply Hlive. }
      rewrite Hd in Hm.
      destruct (for_each (compiled_strategies self) alerts _ h1) as [h2 [alerts1|e]] eqn:Ei;
        [|done].
      apply (strategies_loop_due self (stock_code, snapshot)) in Ei as [-> ->]; [|done].
      intros E. apply IH in E as [Hp' ->]; [|by etrans].
      split; [done|]. rewrite <- app_assoc. f_equal.
      assert (Hf : filter (fun p => alerting self h0 p = true)
                     (pair (stock_code, snapshot) <$> compiled_strategies self) =
                   filter (fun p => due self (deref h1 eval_df) p = true)
                     (pair (stock_code, snapshot) <$> compiled_strategies self)).
      { apply filter_bool_ext. intros p Hin.
        apply list_elem_of_fmap in Hin as (entry & -> & _).
        unfold alerting. cbn [fst snd]. by rewrite Ec, Hm. }
      rewrite Hf. f_equal. apply imap_ext. intros i p _.
      rewrite length_app, length_imap. by rewrite Nat.add_assoc.
    + cbn [ret]. intros E. apply IH in E as [Hp' ->]; [|done].
      split; [done|]. f_equal.
      assert (Hf : filter (fun p => alerting self h0 p = true)
                     (pair (stock_code, snapshot) <$> compiled_strategies self) = []).
      { rewrite (filter_bool_ext _ (fun _ => false)).
        - clear. by induction (pair _ <$> _) as [|x l IH].
        - intros p Hin. apply list_elem_of_fmap in Hin as (entry & -> & _).
          unfold alerting. cbn [fst snd]. by rewrite Ec. }
      rewrite Hf. done.
Qed.

(** A tick that runs to its end, over windows that were objects of the heap
    [h0] before it: these objects are as they were, and what is sent is the
    batch of the pairs that are due an alert, if there is one. *)
Lemma tick_due self realtime_data now h0 w w' :
  (forall s_id f, (s_id, f) ∈ compiled_strategies self -> leaves_frame f) ->
  cache_live self h0 ->
  h0 `prefix_of` heap w ->
  run_once self realtime_data now w = (w', Ret tt) ->
  h0 `prefix_of` heap w' /\
  sent w' =
    sent w ++
    match imap (alert_of_pair self now)
            (filter (fun p => alerting self h0 p = true)
               (pairs_of_tick self realtime_data)) with
    | [] => []
    | batch => [batch]
    end.
Proof.
  intros Hl Hlive Hp. unfold run_once.
  destruct (length (compiled_strategies self) =? 0)%nat eqn:Ecs.
  { apply Nat.eqb_eq, length_zero_iff_nil in Ecs. intros [= <-]. split; [done|].
    unfold pairs_of_tick. rewrite Ecs.
    replace (realtime_data ≫= _) with (@nil Pair); [by rewrite app_nil_r|].
    clear. induction realtime_data as [|q l IH]; [done|]. by rewrite bind_cons, <- IH. }
  destruct (bool_decide (history_cache self = ∅)) eqn:Eh.
  { apply bool_decide_eq_true in Eh. intros [= <-]. split; [done|].
    rewrite (filter_bool_ext _ (fun _ => false)).
    - replace (filter _ _) with (@nil Pair); [by rewrite app_nil_r|].
      clear. by induction (pairs_of_tick _ _) as [|x l IH].
    - intros p _. unfold alerting. by rewrite Eh, lookup_empty. }
  unfold bind, in_heap.
  destruct (for_each realtime_data [] (check_stock self now) (heap w))
    as [h' [alerts|e]] eqn:E; [|done].
  apply (stocks_loop_due self now realtime_data [] h0) in E as [Hp' ->]; [|done..].
  cbn [app length].
  replace (fun k => alert_of_pair self now (0 + k)) with (alert_of_pair self now) by done.
  destruct (imap _ _) as [|a batch].
  - intros [= <-]. split; [done|]. by rewrite app_nil_r.
  - by intros [= <-].
Qed.




(** The batch of the example, computed from the pairs: the one pair that is
    due an alert is that of the always long strategy. *)
Example due_alerts_of_the_example :
  imap (alert_of_pair example_monitor example_clock)
    (filter (fun p => alerting example_monitor [example_window] p = true)
       (pairs_of_tick example_monitor [("600519", example_quote 4)])) =
  [mkAlert "600519" (Num 13.5) "buy and hold" "BUY" "09:31:00"].
Proof. by vm_compute. Qed.

Lemma example_monitor_known : known_strategies example_monitor.
Proof.
  intros s_id f Hin. simpl in Hin.
  repeat (apply elem_of_cons in Hin as [[= -> ->]|Hin]; [by eexists|]).
  by apply elem_of_nil in Hin.
Qed.

(** The manager of a monitor knows the compiled strategies, as C5 asks of a
    pair: [load_context] compiles strategies of the manager it keeps. *)
Lemma find_strategy_is_Some (l : list Strategy) s :
  s ∈ l -> is_Some (find_strategy (id s) l).
Proof.
  induction l as [|x l IH]; [by intros ?%elem_of_nil|].
  intros Hin. simpl. destruct (String.eqb_spec (id x) (id s)); [by eexists|].
  apply elem_of_cons in Hin as [->|Hin]; [done|by apply IH].
Qed.

Lemma assoc_set_key {V} c (v : V) (l : list (string * V)) k (w : V) :
  (k, w) ∈ assoc_set c v l -> k = c \/ exists w' : V, (k, w') ∈ l.
Proof.
  induction l as [|[k0 w0] l IH]; simpl.
  - intros [[= -> ->]|?%elem_of_nil]%elem_of_cons; [by left|done].
  - destruct (String.eqb_spec k0 c) as [->|Hne].
    + intros [[= -> ->]|Hin]%elem_of_cons; [by left|].
      right. exists w. apply elem_of_cons. by right.
    + intros [[= -> ->]|Hin]%elem_of_cons.
      * right. exists w0. apply elem_of_cons. by left.
      * destruct (IH Hin) as [->|[w' Hw']]; [by left|].
        right. exists w'. apply elem_of_cons. by right.
Qed.

Lemma load_context_known mgr compile_strategy load_history stock_list days_lookback h
    h' self :
  load_context mgr compile_strategy load_history stock_list days_lookback h
    = (h', Ret self) ->
  known_strategies self.
Proof.
  unfold load_context, bind.
  destruct (for_each stock_list _ _ h) as [h1 [cache|e]]; [|done].
  intros [= _ <-]. intros s_id f. simpl.
  assert (Hgen : forall (active : list Strategy) acc,
            (forall s, s ∈ active -> s ∈ strategies mgr) ->
            (forall k (g : strategy_fn), (k, g) ∈ acc -> is_Some (find_strategy k (strategies mgr))) ->
            forall k (g : strategy_fn),
              (k, g) ∈ fold_left
                 (fun acc s =>
                    match compile_strategy (code s) with
                    | Some func => assoc_set (id s) func acc
                    | None => acc
                    end) active acc ->
              is_Some (find_strategy k (strategies mgr))).
  { induction active as [|s active IH]; intros acc Hact Hacc k g; simpl.
    - apply Hacc.
    - apply IH; [intros; apply Hact, elem_of_cons; by right|].
      intros k' g'. destruct (compile_strategy (code s)) as [func|]; [|apply Hacc].
      intros [->|[g'' Hin]]%assoc_set_key; [|by eapply Hacc].
      apply find_strategy_is_Some, Hact, elem_of_cons. by left. }
  apply (Hgen (get_active_strategies mgr) []).
  - intros s Hs. unfold get_active_strategies in Hs.
    by apply list_elem_of_filter in Hs as [_ Hs].
  - by intros k g ?%elem_of_nil.
Qed.

End Alerts.

(** ** The backtest *)

Section Backtest.

Implicit Types (d : DataFrame) (s : Series) (h : Heap) (c : string).

Lemma run_body_split strategy_func initial_capital commission :
  run_body strategy_func initial_capital commission =
  (signal <- strategy_func ;;
   setitem "signal" signal ;;;
   after_signal initial_capital commission).
Proof. reflexivity. Qed.

Lemma shift1_length s : length (shift1 s) = length s.
Proof.
  unfold shift1. rewrite length_take. simpl. lia.
Qed.

Lemma fillna_length v s : length (fillna v s) = length s.
Proof. apply length_map. Qed.

Lemma zip_with_same_length (f : fl -> fl -> fl) s1 s2 :
  length s1 = length s2 -> length (zip_with f s1 s2) = length s1.
Proof. intros H. rewrite length_zip_with. lia. Qed.

Lemma pct_change_length s : length (pct_change s) = length s.
Proof.
  unfold pct_change, sdiv. rewrite length_map.
  apply zip_with_same_length. by rewrite shift1_length.
Qed.

Lemma diff_length s : length (diff s) = length s.
Proof. unfold diff, ssub. apply zip_with_same_length. by rewrite shift1_length. Qed.

Lemma cumprod_from_length acc s : length (cumprod_from acc s) = length s.
Proof.
  revert acc. induction s as [|x s IH]; intros acc; simpl; [done|].
  destruct (isnan x); simpl; by rewrite IH.
Qed.

Lemma nrows_with_col c s d : nrows (with_col c s d) = nrows d.
Proof. done. Qed.

Lemma getcol_with_col_eq c s d :
  length s = nrows d -> getcol c (with_col c s d) = Some s.
Proof.
  intros Hl. unfold getcol, with_col. simpl. rewrite assoc_get_set_eq. simpl.
  f_equal. by apply reindex_id.
Qed.

Lemma getcol_with_col_ne c c' s d :
  c <> c' -> getcol c' (with_col c s d) = getcol c' d.
Proof. intros Hne. unfold getcol, with_col. simpl. by rewrite assoc_get_set_ne. Qed.

(** Assigning a Series that has as many values as the frame has rows. *)
Lemma setitem_series c s d :
  length s = nrows d -> setitem c (PSeries s) d = (with_col c s d, Ret tt).
Proof.
  intros Hl. unfold setitem, ensure_valid_index.
  destruct (nrows d =? 0)%nat eqn:E0; simpl.
  - apply Nat.eqb_eq in E0. rewrite E0 in Hl.
    apply length_zero_iff_nil in Hl. subst s. simpl. unfold with_col.
    rewrite E0. done.
  - unfold with_col. by rewrite reindex_id.
Qed.

Lemma bind_getitem {A} c s (k : Series -> SE DataFrame A) d :
  getcol c d = Some s -> (x <- getitem c ;; k x) d = k s d.
Proof. intros Hc. unfold bind, getitem. by rewrite Hc. Qed.

Lemma bind_getitem_missing {A} c (k : Series -> SE DataFrame A) d :
  getcol c d = None -> (x <- getitem c ;; k x) d = (d, Raise (KeyError c)).
Proof. intros Hc. unfold bind, getitem. by rewrite Hc. Qed.

Lemma bind_setitem_series {A} c s (k : SE DataFrame A) d :
  length s = nrows d -> (setitem c (PSeries s) ;;; k) d = k (with_col c s d).
Proof. intros Hl. unfold bind. by rewrite setitem_series. Qed.

Create Rewrite HintDb series_len.
Hint Rewrite shift1_length fillna_length pct_change_length diff_length
  cumprod_from_length nrows_with_col @length_map : series_len.

Ltac series_len :=
  unfold smul, ssub, sdiv, sabs, cumprod;
  repeat (rewrite length_zip_with || autorewrite with series_len);
  repeat match goal with
         | H : getcol _ _ = Some ?s |- context [length ?s] =>
             rewrite (getcol_length _ _ _ H)
         end;
  autorewrite with series_len; lia.

Ltac find_col :=
  repeat (rewrite getcol_with_col_ne by discriminate);
  first [ eassumption | apply getcol_with_col_eq; series_len ].

Ltac step_get := erewrite bind_getitem by find_col.
Ltac step_set := rewrite bind_setitem_series by series_len.

(** The columns that [run_body] computes from the signal and the close. *)
Lemma after_signal_eval initial_capital commission d signal close :
  getcol "signal" d = Some signal ->
  getcol "close" d = Some close ->
  let position := fillna f0 (shift1 signal) in
  let market_ret := fillna f0 (pct_change close) in
  let strategy_ret := smul position market_ret in
  let trade_occurred := fillna f0 (sabs (diff position)) in
  let cost := map (fun x => fmul x commission) trade_occurred in
  let net := ssub strategy_ret cost in
  let equity := map (fun x => fmul x initial_capital) (cumprod (map (fadd f1) net)) in
  let d' :=
    with_col "equity_curve" equity
      (with_col "net_strategy_ret" net
         (with_col "cost" cost
            (with_col "trade_occurred" trade_occurred
               (with_col "strategy_ret" strategy_ret
                  (with_col "market_ret" market_ret
                     (with_col "position" position d)))))) in
  after_signal initial_capital commission d = _calculate_metrics initial_capital d'.
Proof.
  intros Hsig Hclose position market_ret strategy_ret trade_occurred cost net equity d'.
  unfold after_signal.
  step_get. step_set. step_get. step_set. step_get. step_get. step_set.
  step_get. step_set. step_get. step_set. step_get. step_get. step_set.
  step_get. step_set. done.
Qed.

Lemma calculate_metrics_eval initial_capital d equity position net :
  getcol "equity_curve" d = Some equity ->
  getcol "position" d = Some position ->
  getcol "net_strategy_ret" d = Some net ->
  _calculate_metrics initial_capital d =
  (d, match last equity with
      | Some last_equity =>
          Ret (mkMetrics (fdiv (fsub last_equity initial_capital) initial_capital)
                 (max_drawdown_of equity) (win_rate_of position net))
      | None => Raise IndexError
      end).
Proof.
  intros He Hp Hn. unfold _calculate_metrics.
  rewrite (bind_getitem _ _ _ _ He). unfold bind at 1, iloc_last.
  destruct (last equity) as [x|]; [|done].
  rewrite (bind_getitem _ _ _ _ Hp), (bind_getitem _ _ _ _ Hn). done.
Qed.

Lemma lookup_map {A B} (f : A -> B) (l : list A) i :
  map f l !! i = f <$> l !! i.
Proof.
  revert i. induction l as [|x l IH]; intros [|i]; simpl; done.
Qed.

Lemma shift1_lookup_0 s : s <> [] -> shift1 s !! 0 = Some NaN.
Proof. destruct s; [done|]. done. Qed.

Lemma shift1_lookup_S s t : S t < length s -> shift1 s !! S t = s !! t.
Proof.
  intros Ht. unfold shift1. rewrite lookup_take_lt by done. done.
Qed.

Lemma getcol_setitem_eq c v d :
  getcol c (setitem c v d).1 = Some (sanitize_column v (ensure_valid_index v d)).
Proof.
  unfold setitem. simpl. unfold getcol. simpl. rewrite assoc_get_set_eq. simpl.
  f_equal. apply reindex_id.
  destruct v as [s|x]; simpl; [apply reindex_length|apply repeat_length].
Qed.

(** What [run] evaluates to: the columns are checked on a copy, the body
    runs on that copy, and an [Exception] that the body raises becomes a
    result; what else it raises, [run] raises. *)
Lemma run_eval strategy_func df initial_capital commission h :
  run strategy_func df initial_capital commission h =
  let d := deref h df in
  if forallb (has_column d) required_cols then
    let '(d', o) := run_body strategy_func initial_capital commission d in
    (h ++ [d'],
     match o with
     | Ret m => Ret (Stats m (length h))
     | Raise e => if is_exception e then Ret (ErrorDict (str e)) else Raise e
     end)
  else (h ++ [d], Ret EmptyDict).
Proof.
  unfold run, bind at 1, copy, alloc. unfold bind at 1. rewrite on_alloc.
  fold (has_column (deref h df)).
  change (forallb (fun col => existsb (String.eqb col) (column_names (deref h df))))
    with (forallb (has_column (deref h df))).
  destruct (forallb (has_column (deref h df)) required_cols); simpl; [|done].
  unfold try_except, bind. rewrite on_alloc.
  destruct (run_body strategy_func initial_capital commission (deref h df))
    as [d' [m|e]]; [done|].
  by destruct (is_exception e).
Qed.

(** When the body returns statistics: the strategy returned, the signal
    was assigned, the frame had a close column, and the frame and the
    statistics are those computed from the signal and the close. *)
Lemma run_body_returns strategy_func initial_capital commission d d' m :
  run_body strategy_func initial_capital commission d = (d', Ret m) ->
  exists d1 v signal close last_equity,
    strategy_func d = (d1, Ret v) /\
    let d2 := (setitem "signal" v d1).1 in
    getcol "signal" d2 = Some signal /\
    signal = sanitize_column v (ensure_valid_index v d1) /\
    getcol "close" d2 = Some close /\
    let position := fillna f0 (shift1 signal) in
    let market_ret := fillna f0 (pct_change close) in
    let strategy_ret := smul position market_ret in
    let trade_occurred := fillna f0 (sabs (diff position)) in
    let cost := map (fun x => fmul x commission) trade_occurred in
    let net := ssub strategy_ret cost in
    let equity := map (fun x => fmul x initial_capital) (cumprod (map (fadd f1) net)) in
    d' = with_col "equity_curve" equity
           (with_col "net_strategy_ret" net
              (with_col "cost" cost
                 (with_col "trade_occurred" trade_occurred
                    (with_col "strategy_ret" strategy_ret
                       (with_col "market_ret" market_ret
                          (with_col "position" position d2)))))) /\
    last equity = Some last_equity /\
    m = mkMetrics (fdiv (fsub last_equity initial_capital) initial_capital)
          (max_drawdown_of equity) (win_rate_of position net).
Proof.
  rewrite run_body_split. unfold bind at 1.
  destruct (strategy_func d) as [d1 [v|e]] eqn:Ef; [|done].
  unfold bind at 1. destruct (setitem "signal" v d1) as [d2 [[]|e]] eqn:Es; [|done].
  assert (Hd2 : d2 = (setitem "signal" v d1).1) by by rewrite Es.
  pose proof (getcol_setitem_eq "signal" v d1) as Hsig. rewrite <- Hd2 in Hsig.
  destruct (getcol "close" d2) as [close|] eqn:Hclose.
  - rewrite (after_signal_eval _ _ _ _ _ Hsig Hclose).
    erewrite calculate_metrics_eval; [|find_col..].
    destruct (last _) as [last_equity|] eqn:El; [|done].
    intros [= <- <-].
    exists d1, v, (sanitize_column v (ensure_valid_index v d1)), close, last_equity.
    rewrite <- Hd2. by repeat split.
  - unfold after_signal. erewrite bind_getitem by find_col.
    rewrite bind_setitem_series by series_len.
    rewrite bind_getitem_missing; [done|]. by rewrite getcol_with_col_ne.
Qed.

(** The body of [run] for a strategy that returns a Series of the length
    of the frame and leaves the frame alone. *)
Lemma run_body_eval strategy_func initial_capital commission d signal close :
  strategy_func d = (d, Ret (PSeries signal)) ->
  length signal = nrows d ->
  getcol "close" d = Some close ->
  let position := fillna f0 (shift1 signal) in
  let market_ret := fillna f0 (pct_change close) in
  let net := ssub (smul position market_ret)
               (map (fun x => fmul x commission) (fillna f0 (sabs (diff position)))) in
  let equity := map (fun x => fmul x initial_capital) (cumprod (map (fadd f1) net)) in
  exists d',
    run_body strategy_func initial_capital commission d =
    (d', match last equity with
         | Some last_equity =>
             Ret (mkMetrics (fdiv (fsub last_equity initial_capital) initial_capital)
                    (max_drawdown_of equity) (win_rate_of position net))
         | None => Raise IndexError
         end).
Proof.
  intros Hf Hlen Hclose position market_ret net equity.
  rewrite run_body_split. unfold bind at 1. rewrite Hf.
  rewrite bind_setitem_series by done.
  assert (Hsig : getcol "signal" (with_col "signal" signal d) = Some signal)
    by by apply getcol_with_col_eq.
  assert (Hclose' : getcol "close" (with_col "signal" signal d) = Some close)
    by by rewrite getcol_with_col_ne.
  rewrite (after_signal_eval _ _ _ _ _ Hsig Hclose').
  eexists. erewrite calculate_metrics_eval; [|find_col..]. reflexivity.
Qed.

(** C1.  The position is the signal one bar later.  Whenever [run]
    returns statistics, the frame it returns has a signal, a position and a
    strategy return column; the signal column is the Series that the
    strategy returned for the frame; the position of the first bar is 0 and
    so is its strategy return, whatever the prices and the strategy; and the
    position of every later bar is the signal of the bar before it (a signal
    is -1, 0 or 1: the missing value, which [fillna] turns into 0, is not a
    signal). *)
Theorem position_lags_signal strategy_func df initial_capital commission h h' m data :
  run strategy_func df initial_capital commission h = (h', Ret (Stats m data)) ->
  exists signal position strategy_ret,
    getcol "signal" (deref h' data) = Some signal /\
    getcol "position" (deref h' data) = Some position /\
    getcol "strategy_ret" (deref h' data) = Some strategy_ret /\
    (forall d1 s,
       strategy_func (deref h df) = (d1, Ret (PSeries s)) ->
       length s = nrows d1 -> signal = s) /\
    position !! 0 = Some f0 /\
    strategy_ret !! 0 = Some f0 /\
    (forall t x,
       S t < length signal -> signal !! t = Some x -> isnan x = false ->
       position !! S t = Some x).
Proof.
  rewrite run_eval. cbv zeta.
  destruct (forallb (has_column (deref h df)) required_cols); [|done].
  destruct (run_body strategy_func initial_capital commission (deref h df))
    as [d' [m'|e]] eqn:Eb; [|by destruct (is_exception e)].
  intros [= <- <- <-]. rewrite deref_alloc.
  apply run_body_returns in Eb
    as (d1 & v & signal & close & last_equity & Ef & Hsig & Esig & Hclose & -> & Hlast & _).
  set (d2 := (setitem "signal" v d1).1) in *.
  set (position := fillna f0 (shift1 signal)).
  set (market_ret := fillna f0 (pct_change close)).
  assert (Hn : length signal = nrows d2) by by apply getcol_length in Hsig.
  assert (Hc : length close = nrows d2) by by apply getcol_length in Hclose.
  assert (Hpos : 0 < nrows d2).
  { destruct (nrows d2) eqn:E; [|lia]. exfalso. clear Esig.
    apply length_zero_iff_nil in Hn, Hc. by subst signal close. }
  exists signal, position, (smul position market_ret).
  split; [find_col|]. split; [subst position; find_col|].
  split; [subst position market_ret; find_col|].
  split.
  { intros d1' s. rewrite Ef. intros [= <- ->] Hs. rewrite Esig.
    unfold ensure_valid_index, sanitize_column.
    destruct ((nrows d1 =? 0)%nat && negb (length s =? 0)%nat)%bool eqn:E.
    - apply andb_true_iff in E as [E1 E2]. apply Nat.eqb_eq in E1.
      rewrite E1 in Hs. apply Nat.eqb_eq in Hs. by rewrite Hs in E2.
    - by apply reindex_id. }
  assert (Hp0 : position !! 0 = Some f0).
  { unfold position, fillna. rewrite lookup_map, shift1_lookup_0; [done|].
    intros Hs. apply (f_equal length) in Hs. simpl in Hs. lia. }
  split; [exact Hp0|]. split.
  - unfold smul. rewrite lookup_zip_with, Hp0. simpl.
    unfold market_ret, fillna, pct_change, sdiv.
    rewrite !lookup_map, lookup_zip_with.
    destruct close as [|x0 close]; [exfalso; cbn [length] in Hc; lia|]. simpl.
    by destruct x0.
  - intros t x Ht Hx Hnan. unfold position, fillna.
    rewrite lookup_map, shift1_lookup_S, Hx by done. simpl. by rewrite Hnan.
Qed.

(** A signal that is missing counts as flat: the next position is 0. *)
Lemma position_of_missing_signal s t :
  S t < length s -> s !! t = Some NaN -> fillna f0 (shift1 s) !! S t = Some f0.
Proof.
  intros Ht Hx. unfold fillna. by rewrite lookup_map, shift1_lookup_S, Hx.
Qed.




Lemma position_lags_signal_witness :
  exists signal position strategy_ret,
    getcol "signal" (deref example_backtest.1 1) = Some signal /\
    getcol "position" (deref example_backtest.1 1) = Some position /\
    getcol "strategy_ret" (deref example_backtest.1 1) = Some strategy_ret /\
    (forall d1 s,
       fixed_signal [0; 0; 1; 1; 0]%Q
         (deref [frame_of_closes [10; 10; 11; 12; 11]%Q] 0) = (d1, Ret (PSeries s)) ->
       length s = nrows d1 -> signal = s) /\
    position !! 0 = Some f0 /\
    strategy_ret !! 0 = Some f0 /\
    (forall t x,
       S t < length signal -> signal !! t = Some x -> isnan x = false ->
       position !! S t = Some x).
Proof.
  destruct example_backtest as [h' [[| |m data]|e]] eqn:Er;
    try (by vm_compute in Er).
  assert (Hdata : data = 1) by (vm_compute in Er; congruence). subst data.
  exact (position_lags_signal _ _ _ _ _ _ _ _ Er).
Defined.


End Backtest.

(** ** Always long on rising prices *)

Section AlwaysLong.

Implicit Types (d : DataFrame) (s : Series) (h : Heap) (q a : Q) (l : list Q).

Local Open Scope Q_scope.

Lemma Qeq_bool_pos q : 0 < q -> Qeq_bool q 0 = false.
Proof.
  intros Hq. apply not_true_iff_false. rewrite Qeq_bool_iff. lra.
Qed.

Lemma nondecr_le a a' l : a' <= a -> nondecr a l -> nondecr a' l.
Proof. destruct l as [|x l]; simpl; [done|]. intros ? [? ?]. split; [lra|done]. Qed.

Lemma nondecr_last a l x : nondecr a l -> last l = Some x -> a <= x.
Proof.
  revert a. induction l as [|y l IH]; intros a; simpl; [done|].
  intros [Hay Hl]. destruct l as [|z l].
  - intros [= <-]. done.
  - intros Hx. apply (IH _ Hl) in Hx. lra.
Qed.

Lemma nondecr_scale a l c :
  0 < c -> nondecr a l -> nondecr (a * c) (map (fun x => x * c) l).
Proof.
  intros Hc. revert a. induction l as [|x l IH]; intros a; simpl; [done|].
  intros [Hax Hl]. split; [nra|by apply IH].
Qed.

(** The running product of returns that are not negative does not
    decrease, and it ends above its start when one of them is positive. *)
Lemma cumprod_nonneg s a :
  0 < a ->
  Forall (num_sat (Qle 0)) s ->
  exists l,
    cumprod_from (Num a) (map (fadd f1) s) = map Num l /\
    nondecr a l /\
    (Exists (num_sat (Qlt 0)) s -> exists x, last l = Some x /\ a < x).
Proof.
  intros Ha Hs. revert a Ha.
  induction Hs as [|y s [q [-> Hq]] Hs IH]; intros a Ha.
  - exists []. repeat split. by intros ?%Exists_nil.
  - destruct (IH (a * (1 + q))) as (l & El & Hl & Hlast); [nra|].
    exists (a * (1 + q) :: l). simpl. rewrite El. split; [done|].
    split; [split; [nra|done]|].
    intros Hex. apply Exists_cons in Hex as [(q' & [= <-] & Hpos)|Hex].
    + destruct l as [|z l].
      * eexists. split; [done|]. nra.
      * destruct (proj2 (last_is_Some (z :: l))) as [x Ex]; [done|].
        exists x. rewrite last_cons_cons. split; [done|].
        pose proof (nondecr_last _ _ _ Hl Ex). nra.
    + destruct (Hlast Hex) as (x & Ex & Hx). exists x. split.
      * destruct l as [|z l]; [done|]. by rewrite last_cons_cons.
      * nra.
Qed.

(** Along an equity curve that does not decrease, every drawdown is 0. *)
Lemma drawdown_zero l a :
  0 < a -> nondecr a l ->
  let rolling_max := expanding_max_from (Num a) (map Num l) in
  Forall (num_sat (fun q => q == 0))
    (sdiv (ssub (map Num l) rolling_max) rolling_max).
Proof.
  revert a. induction l as [|x l IH]; intros a Ha;
    cbn -[fmax_skipna fdiv fsub]; [constructor|].
  intros [Hax Hl].
  assert (Hmax : exists a', fmax_skipna (Num a) (Num x) = Num a' /\ a' == x).
  { unfold fmax_skipna, flt. destruct (Qltb a x) eqn:E.
    - by exists x.
    - exists a. split; [done|].
      apply not_true_iff_false in E. rewrite Qltb_lt in E. lra. }
  destruct Hmax as (a' & -> & Ha').
  constructor.
  - simpl. rewrite Qeq_bool_pos by lra. eexists. split; [done|].
    rewrite <- Ha'. field. lra.
  - apply IH; [lra|]. apply (nondecr_le x); [lra|done].
Qed.

Lemma smin_zero s x :
  Forall (num_sat (fun q => q == 0)) (x :: s) ->
  num_sat (fun q => q == 0) (smin (x :: s)).
Proof.
  intros Hs. apply Forall_cons in Hs as [Hx Hs].
  unfold smin. simpl. replace (fmin_skipna NaN x) with x by by destruct x.
  revert x Hx. induction Hs as [|y s Hy Hs IH]; intros x Hx; simpl; [done|].
  apply IH. destruct Hx as (q & -> & Hq), Hy as (q' & -> & Hq').
  unfold fmin_skipna, flt. destruct (Qltb q' q); by eexists.
Qed.

Lemma max_drawdown_zero x l :
  0 < x -> nondecr x l ->
  feqb (max_drawdown_of (map Num (x :: l))) f0 = true.
Proof.
  intros Hx Hl.
  assert (Hz : num_sat (fun q => q == 0) (max_drawdown_of (map Num (x :: l)))).
  { unfold max_drawdown_of, expanding_max.
    cbn -[fmax_skipna fdiv fsub smin].
    change (fmax_skipna NaN (Num x)) with (Num x).
    apply smin_zero. constructor; [|by apply drawdown_zero].
    simpl. rewrite Qeq_bool_pos by done. eexists. split; [done|]. field. lra. }
  destruct Hz as (q & -> & Hq). simpl. by apply Qeq_bool_iff.
Qed.

Lemma zip_with_shift1 (f : fl -> fl -> fl) x s :
  zip_with f (x :: s) (shift1 (x :: s)) = f x NaN :: zip_with f s (x :: s).
Proof.
  unfold shift1. cbn [length take zip_with]. f_equal. apply zip_with_take_r.
Qed.

Lemma shift1_repeat x n : shift1 (repeat x (S n)) = NaN :: repeat x n.
Proof.
  unfold shift1. rewrite repeat_length. cbn [take]. f_equal.
  change (repeat x (S n)) with (x :: repeat x n).
  rewrite repeat_cons. rewrite <- (repeat_length x n) at 1. apply take_app_length.
Qed.

Lemma zip_with_repeat (f : fl -> fl -> fl) x y n :
  zip_with f (repeat x n) (repeat y (S n)) = repeat (f x y) n.
Proof. induction n as [|n IH]; [done|]. simpl in *. by rewrite IH. Qed.

Lemma fillna_num P v s : Forall (num_sat P) s -> fillna v s = s.
Proof.
  induction 1 as [|x s (q & -> & _) _ IH]; [done|]. simpl. by rewrite IH.
Qed.

Lemma fillna_cons v x s :
  fillna v (x :: s) = (if isnan x then v else x) :: fillna v s.
Proof. done. Qed.

(** Always long: flat on the first bar, long from the second. *)
Lemma position_always_long n :
  fillna f0 (shift1 (repeat f1 (S n))) = f0 :: repeat f1 n.
Proof. rewrite shift1_repeat. unfold fillna. simpl. by rewrite map_repeat. Qed.

(** One trade, on the second bar. *)
Lemma trade_always_long k :
  fillna f0 (sabs (diff (f0 :: repeat f1 (S k)))) = f0 :: f1 :: repeat f0 k.
Proof.
  unfold diff, ssub. rewrite zip_with_shift1.
  change (repeat f1 (S k)) with (f1 :: repeat f1 k) at 1.
  cbn [zip_with]. rewrite zip_with_repeat.
  unfold sabs, fillna. cbn [map]. rewrite !map_repeat. done.
Qed.

(** The market return of every bar after the first is positive when the
    closes are positive and rise. *)
Lemma market_ret_positive l q :
  0 < q -> increasing_from q l ->
  Forall (num_sat (Qlt 0))
    (map (fun x => fsub x f1) (zip_with fdiv (map Num l) (Num q :: map Num l))).
Proof.
  revert q. induction l as [|x l IH]; intros q Hq; simpl; [constructor|].
  intros [Hqx Hl]. constructor.
  - rewrite Qeq_bool_pos by done. eexists. split; [done|].
    assert (1 < x / q) by (apply Qlt_shift_div_l; lra). lra.
  - apply IH; [lra|done].
Qed.

(** After the second bar the net return is the market return. *)
Lemma net_tail_positive s k c :
  Forall (num_sat (Qlt 0)) s ->
  Forall (num_sat (Qlt 0))
    (zip_with fsub (zip_with fmul (repeat f1 k) s)
       (map (fun x => fmul x (Num c)) (repeat f0 k))).
Proof.
  intros Hs. revert k. induction Hs as [|x s (q & -> & Hq) _ IH]; intros [|k]; simpl;
    try constructor.
  - eexists. split; [done|]. lra.
  - apply IH.
Qed.

Lemma num_sat_weaken (P P' : Q -> Prop) x :
  (forall q, P q -> P' q) -> num_sat P x -> num_sat P' x.
Proof. intros HP (q & -> & Hq). exists q. auto. Qed.

(** The net returns of the always long strategy on rising prices: none is
    negative, and the one of the second bar is positive when the first
    market return is above the commission. *)
Lemma net_always_long q0 q1 rest c :
  0 < q0 -> increasing_from q0 (q1 :: rest) -> c < q1 / q0 - 1 ->
  let n := length (q0 :: q1 :: rest) in
  let position := fillna f0 (shift1 (repeat f1 n)) in
  let market_ret := fillna f0 (pct_change (map Num (q0 :: q1 :: rest))) in
  let trade_occurred := fillna f0 (sabs (diff position)) in
  let net := ssub (smul position market_ret)
               (map (fun x => fmul x (Num c)) trade_occurred) in
  Forall (num_sat (Qle 0)) net /\ Exists (num_sat (Qlt 0)) net.
Proof.
  intros Hq0 Hinc Hc n position market_ret trade_occurred net.
  subst n position market_ret trade_occurred net.
  cbn [length]. rewrite position_always_long, trade_always_long.
  unfold pct_change, sdiv. cbn [map]. rewrite zip_with_shift1.
  pose proof (market_ret_positive (q1 :: rest) q0 Hq0 Hinc) as Hmr.
  cbn [map] in *.
  set (mr := map (fun x => fsub x f1)
               (zip_with fdiv (Num q1 :: map Num rest)
                  (Num q0 :: Num q1 :: map Num rest))) in *.
  rewrite fillna_cons, (fillna_num _ f0 mr Hmr).
  cbn [fdiv fsub fadd fneg isnan].
  assert (Hmr' : exists mr', mr = Num (q1 / q0 + - (1)) :: mr').
  { subst mr. cbn [zip_with map]. cbn [fdiv]. rewrite Qeq_bool_pos by done.
    by eexists. }
  destruct Hmr' as [mr' Emr]. rewrite Emr in *.
  apply Forall_cons in Hmr as [_ Hmr].
  unfold smul, ssub. cbn [repeat zip_with map].
  pose proof (net_tail_positive mr' (length rest) c Hmr) as Htail.
  split.
  - constructor; [eexists; split; [done|]; simpl; lra|].
    constructor; [eexists; split; [done|]; simpl; lra|].
    eapply Forall_impl; [exact Htail|]. intros x. apply num_sat_weaken. intros; lra.
  - apply Exists_cons_tl, Exists_cons_hd. eexists. split; [done|]. simpl. lra.
Qed.

Lemma last_map {A B} (f : A -> B) (k : list A) : last (map f k) = f <$> last k.
Proof.
  induction k as [|x [|y k] IH]; [done|done|].
  change (map f (x :: y :: k)) with (f x :: f y :: map f k).
  rewrite !last_cons_cons. exact IH.
Qed.

(** The scenario of the specification: ten bars, flat for five and then
    long; the position lags the signal by one bar, the total return is
    positive, there is no drawdown and all five holding days win. *)
Example ten_bar_scenario :
  let '(h', result) :=
    run (fixed_signal [0; 0; 0; 0; 1; 1; 1; 1; 1; 1]) 0%nat (Num 100000) (Num 0.0003)
      [frame_of_closes [10; 10; 10; 10; 10; 11; 12; 13; 14; 15]] in
  exists m,
    result = Ret (Stats m 1%nat) /\
    getcol "position" (deref h' 1) =
      Some (map Num [0; 0; 0; 0; 0; 1; 1; 1; 1; 1]) /\
    fgt (total_return m) f0 = true /\
    feqb (max_drawdown m) f0 = true /\
    feqb (win_rate m) f1 = true.
Proof. vm_compute. eexists. by repeat split. Qed.

(** C6, as stated, fails: the one trade of the always long strategy costs
    the commission.  On the rising closes 10000, 10001 with the default
    capital and commission, the total return is negative and so is the
    maximum drawdown. *)
Lemma always_long_can_lose :
  increasing_from 10000 [10001] /\
  exists h' m data,
    run always_long 0%nat (Num 100000) (Num 0.0003) [frame_of_closes [10000; 10001]]
      = (h', Ret (Stats m data)) /\
    fgt (total_return m) f0 = false /\
    feqb (max_drawdown m) f0 = false.
Proof.
  split; [by vm_compute|].
  eexists _, _, _. split; [vm_compute; reflexivity|]. by vm_compute.
Qed.

(** In exact arithmetic the commission that the always long strategy can
    bear is any commission below the market return of the second bar. *)
Lemma always_long_exact h df q0 q1 rest C0 c :
  let d := deref h df in
  (forall col, col ∈ required_cols -> has_column d col = true) ->
  getcol "close" d = Some (map Num (q0 :: q1 :: rest)) ->
  0 < q0 ->
  increasing_from q0 (q1 :: rest) ->
  0 < C0 ->
  c < q1 / q0 - 1 ->
  exists h' m data,
    run always_long df (Num C0) (Num c) h = (h', Ret (Stats m data)) /\
    fgt (total_return m) f0 = true /\
    feqb (max_drawdown m) f0 = true.
Proof.
  intros d Hcols Hclose Hq0 Hinc HC0 Hc.
  assert (Hn : nrows d = length (q0 :: q1 :: rest)).
  { apply getcol_length in Hclose. by rewrite length_map in Hclose. }
  rewrite run_eval. fold d. cbv zeta.
  replace (forallb (has_column d) required_cols) with true.
  2:{ symmetry. apply forallb_forall. intros col Hin. by apply Hcols, list_elem_of_In. }
  destruct (run_body_eval always_long (Num C0) (Num c) d (repeat f1 (nrows d))
              (map Num (q0 :: q1 :: rest)) eq_refl (repeat_length _ _) Hclose)
    as [d' ->].
  rewrite Hn.
  destruct (net_always_long q0 q1 rest c Hq0 Hinc Hc) as [Hnonneg Hpos].
  cbv zeta in Hnonneg, Hpos.
  set (net := ssub _ _) in *.
  destruct (cumprod_nonneg net 1 ltac:(lra) Hnonneg) as (l & El & Hl & Hlast).
  change (Num 1) with f1 in El. unfold cumprod. rewrite El. clear El.
  destruct (Hlast Hpos) as (x & Ex & Hx).
  rewrite map_map.
  change (map (fun y => fmul (Num y) (Num C0)) l) with (map (fun y => Num (y * C0)) l).
  rewrite <- (map_map (fun y => y * C0) Num).
  assert (Elast : last (map Num (map (fun y => y * C0) l)) = Some (Num (x * C0))).
  { by rewrite !last_map, Ex. }
  rewrite Elast.
  eexists _, _, _. split; [done|]. cbn [total_return max_drawdown]. split.
  - simpl. rewrite Qeq_bool_pos by done. simpl. apply Qltb_lt.
    apply Qlt_shift_div_l; [done|]. nra.
  - destruct l as [|y l]; [done|].
    cbn [map]. destruct Hl as [Hy Hl].
    apply (max_drawdown_zero (y * C0) (map (fun y => y * C0) l)); [nra|].
    by apply nondecr_scale.
Qed.

(** C6, amended.  For a price series of at least two bars whose closes
    are positive and strictly increasing, the always long strategy, a
    capital of at least 1 and no commission, [run] returns statistics with a
    positive total return and a maximum drawdown equal to 0.  (Without a
    commission the two facts do not depend on how the quotients and products
    are rounded: the quotient of two increasing prices is above 1, and a
    product of such factors does not decrease.  With a commission they do,
    however small it is against the market return.) *)
Theorem always_long_on_rising_prices h df q0 q1 rest C0 :
  let d := deref h df in
  (forall col, col ∈ required_cols -> has_column d col = true) ->
  getcol "close" d = Some (map Num (q0 :: q1 :: rest)) ->
  0 < q0 ->
  increasing_from q0 (q1 :: rest) ->
  1 <= C0 ->
  exists h' m data,
    run always_long df (Num C0) (Num 0) h = (h', Ret (Stats m data)) /\
    fgt (total_return m) f0 = true /\
    feqb (max_drawdown m) f0 = true.
Proof.
  intros d Hcols Hclose Hq0 Hinc HC0.
  apply (always_long_exact h df q0 q1 rest C0 0); try done; [lra|].
  destruct Hinc as [Hq1 _].
  assert (1 < q1 / q0) by (apply Qlt_shift_div_l; lra). lra.
Qed.

Lemma always_long_on_rising_prices_witness :
  increasing_from 10 [11; 12] /\
  exists h' m data,
    run always_long 0%nat (Num 100000) (Num 0) [frame_of_closes [10; 11; 12]]
      = (h', Ret (Stats m data)) /\
    fgt (total_return m) f0 = true /\
    feqb (max_drawdown m) f0 = true.
Proof.
  split; [by vm_compute|].
  apply (always_long_on_rising_prices [frame_of_closes [10; 11; 12]] 0%nat
           10 11 [12] 100000).
  - intros col Hcol. repeat (apply elem_of_cons in Hcol as [->|Hcol]; [reflexivity|]).
    by apply elem_of_nil in Hcol.
  - reflexivity.
  - reflexivity.
  - by vm_compute.
  - by vm_compute.
Defined.

End AlwaysLong.

(** * The backtest: what a result means, bounds of the statistics *)

Section BacktestResults.

Implicit Types (d : DataFrame) (s : Series) (h : Heap) (c : string).

Local Open Scope Q_scope.

Ltac lens :=
  unfold smul, ssub, sdiv, sabs, cumprod;
  repeat (rewrite length_zip_with || rewrite shift1_length || rewrite fillna_length
          || rewrite pct_change_length || rewrite diff_length
          || rewrite cumprod_from_length || rewrite nrows_with_col
          || rewrite length_map);
  repeat match goal with
         | H : getcol _ _ = Some ?s |- context [length ?s] =>
             rewrite (getcol_length _ _ _ H)
         end;
  repeat rewrite nrows_with_col; try lia.

Ltac col :=
  repeat (rewrite getcol_with_col_ne by discriminate);
  first [ eassumption | apply getcol_with_col_eq; lens ].

(** The win rate is a share: a number between 0 and 1, whatever the
    positions and the net returns. *)
Lemma win_rate_of_bounds position net :
  exists q, win_rate_of position net = Num q /\ 0 <= q <= 1.
Proof.
  unfold win_rate_of.
  set (holding := filter _ (zip position net)).
  set (wins := filter _ holding).
  destruct (0 <? length holding)%nat eqn:E.
  - apply Nat.ltb_lt in E. eexists. split; [done|].
    assert (Hle : (length wins <= length holding)%nat) by apply length_filter.
    assert (Hpos : 0 < inject_Z (Z.of_nat (length holding))).
    { change 0 with (inject_Z 0). rewrite <- Zlt_Qlt. lia. }
    assert (Hw : 0 <= inject_Z (Z.of_nat (length wins))).
    { change 0 with (inject_Z 0). rewrite <- Zle_Qle. lia. }
    assert (Hwh : inject_Z (Z.of_nat (length wins))
                  <= inject_Z (Z.of_nat (length holding))).
    { rewrite <- Zle_Qle. lia. }
    split.
    + apply Qle_shift_div_l; [done|]. lra.
    + apply Qle_shift_div_r; [done|]. lra.
  - exists 0. split; [done|]. lra.
Qed.

(** X2.  Whenever [run] returns statistics, the win rate is a number from 0 to
    1. *)
Theorem win_rate_is_a_share strategy_func df initial_capital commission h h' m data :
  run strategy_func df initial_capital commission h = (h', Ret (Stats m data)) ->
  exists q, win_rate m = Num q /\ 0 <= q <= 1.
Proof.
  rewrite run_eval. cbv zeta.
  destruct (forallb (has_column (deref h df)) required_cols); [|done].
  destruct (run_body strategy_func initial_capital commission (deref h df))
    as [d' [m'|e]] eqn:Eb; [|by destruct (is_exception e)].
  intros [= <- <- <-].
  apply run_body_returns in Eb
    as (d1 & v & signal & close & last_equity & _ & _ & _ & _ & _ & _ & ->).
  apply win_rate_of_bounds.
Qed.

Lemma win_rate_is_a_share_witness :
  exists q, win_rate
              (match example_backtest.2 with
               | Ret (Stats m _) => m
               | _ => mkMetrics f0 f0 f0
               end) = Num q /\ 0 <= q <= 1.
Proof.
  destruct example_backtest as [h' [[| |m data]|e]] eqn:Er;
    try (by vm_compute in Er).
  exact (win_rate_is_a_share _ _ _ _ _ _ _ _ Er).
Defined.

(** The minimum of values that satisfy a property satisfies it. *)
Lemma smin_sat (P : Q -> Prop) s x :
  Forall (num_sat P) (x :: s) -> num_sat P (smin (x :: s)).
Proof.
  intros Hs. apply Forall_cons in Hs as [Hx Hs].
  unfold smin. simpl. replace (fmin_skipna NaN x) with x by by destruct x.
  revert x Hx. induction Hs as [|y s Hy Hs IH]; intros x Hx; simpl; [done|].
  apply IH. destruct Hx as (q & -> & Hq), Hy as (q' & -> & Hq').
  unfold fmin_skipna, flt. destruct (Qltb q' q); by eexists.
Qed.

Lemma drawdown_bounds l a :
  0 < a -> Forall (Qlt 0) l ->
  let rolling_max := expanding_max_from (Num a) (map Num l) in
  Forall (num_sat (fun q => -1 <= q <= 0))
    (sdiv (ssub (map Num l) rolling_max) rolling_max).
Proof.
  intros Ha Hl. revert a Ha.
  induction Hl as [|x l Hx Hl IH]; intros a Ha;
    cbn -[fmax_skipna fdiv fsub]; [constructor|].
  assert (Hmax : exists a', fmax_skipna (Num a) (Num x) = Num a' /\ x <= a' /\ 0 < a').
  { unfold fmax_skipna, flt. destruct (Qltb a x) eqn:E.
    - exists x. repeat split; [lra|done].
    - exists a. repeat split; [|done].
      apply not_true_iff_false in E. rewrite Qltb_lt in E. lra. }
  destruct Hmax as (a' & -> & Hxa & Ha').
  constructor; [|by apply IH].
  simpl. rewrite Qeq_bool_pos by done. eexists. split; [done|]. split.
  - apply Qle_shift_div_l; [done|]. lra.
  - apply Qle_shift_div_r; [done|]. lra.
Qed.

(** X3.  The maximum drawdown of an equity curve of positive values is a
    number from -1 to 0: the largest fall from a running maximum, as a share
    of that maximum. *)
Theorem max_drawdown_bounds x l :
  0 < x -> Forall (Qlt 0) l ->
  exists q, max_drawdown_of (map Num (x :: l)) = Num q /\ -1 <= q <= 0.
Proof.
  intros Hx Hl. unfold max_drawdown_of, expanding_max.
  cbn -[fmax_skipna fdiv fsub smin].
  change (fmax_skipna NaN (Num x)) with (Num x).
  apply (smin_sat (fun q => -1 <= q <= 0)).
  constructor; [|by apply drawdown_bounds].
  simpl. rewrite Qeq_bool_pos by done. eexists. split; [done|]. split.
  - apply Qle_shift_div_l; [done|]. lra.
  - apply Qle_shift_div_r; [done|]. lra.
Qed.

Lemma max_drawdown_bounds_witness :
  exists q, max_drawdown_of (map Num [100; 120; 90; 130]) = Num q /\ -1 <= q <= 0.
Proof.
  apply (max_drawdown_bounds 100 [120; 90; 130]); [reflexivity|].
  repeat constructor.
Defined.

(** On the example the maximum drawdown is the fall from 120 to 90. *)
Example max_drawdown_of_example :
  feqb (max_drawdown_of (map Num [100; 120; 90; 130])) (Num (-1 # 4)) = true.
Proof. reflexivity. Qed.

(** X4.  The equity curve starts at the capital: whenever [run] returns
    statistics, for a finite capital and a finite commission, the equity of
    the first bar is the initial capital, whatever the prices and the
    strategy (the first bar has no position, no market return and no
    trade). *)
Theorem equity_starts_at_capital strategy_func df k fee h h' m data :
  run strategy_func df (Num k) (Num fee) h = (h', Ret (Stats m data)) ->
  exists equity e0,
    getcol "equity_curve" (deref h' data) = Some equity /\
    equity !! 0%nat = Some (Num e0) /\ e0 == k.
Proof.
  rewrite run_eval. cbv zeta.
  destruct (forallb (has_column (deref h df)) required_cols); [|done].
  destruct (run_body strategy_func (Num k) (Num fee) (deref h df))
    as [d' [m'|e]] eqn:Eb; [|by destruct (is_exception e)].
  intros [= <- <- <-]. rewrite deref_alloc.
  apply run_body_returns in Eb
    as (d1 & v & signal & close & last_equity & Ef & Hsig & _ & Hclose & -> & Hlast & _).
  set (d2 := (setitem "signal" v d1).1) in *.
  set (position := fillna f0 (shift1 signal)) in *.
  set (market_ret := fillna f0 (pct_change close)) in *.
  set (trade := fillna f0 (sabs (diff position))) in *.
  set (net := ssub (smul position market_ret)
                (map (fun x => fmul x (Num fee)) trade)) in *.
  set (equity := map (fun x => fmul x (Num k)) (cumprod (map (fadd f1) net))) in *.
  assert (Hn : length signal = nrows d2) by by apply getcol_length in Hsig.
  assert (Hc : length close = nrows d2) by by apply getcol_length in Hclose.
  assert (Heq : length equity = nrows d2)
    by (subst equity net trade position market_ret; lens).
  assert (He0 : exists e0, equity !! 0%nat = Some (Num e0) /\ e0 == k).
  { destruct signal as [|s0 signal].
    { exfalso. rewrite <- Hn in Heq. cbn [length] in Heq.
      apply length_zero_iff_nil in Heq. by rewrite Heq in Hlast. }
    destruct close as [|c0 close];
      [rewrite <- Hn in Hc; cbn [length] in Hc; lia|].
    subst equity net trade position market_ret.
    unfold diff, pct_change, sdiv, ssub, smul, sabs, cumprod.
    rewrite zip_with_shift1.
    assert (Hsh : exists rest, shift1 (s0 :: signal) = NaN :: rest).
    { unfold shift1. simpl. by eexists. }
    destruct Hsh as [rest ->]. rewrite fillna_cons. cbn [isnan].
    rewrite zip_with_shift1. cbn [map zip_with fillna].
    assert (Hnan : fsub (fdiv c0 NaN) f1 = NaN) by by destruct c0.
    rewrite Hnan. cbn [isnan fsub fneg fadd fabs fmul f0 f1 cumprod_from lookup].
    simpl. eexists. split; [done|]. ring. }
  destruct He0 as (e0 & He0 & Hk). exists equity, e0. split; [col|done].
Qed.

Lemma equity_starts_at_capital_witness :
  exists equity e0,
    getcol "equity_curve" (deref example_backtest.1 1%nat) = Some equity /\
    equity !! 0%nat = Some (Num e0) /\ e0 == 100000.
Proof.
  destruct example_backtest as [h' [[| |m data]|e]] eqn:Er;
    try (by vm_compute in Er).
  assert (Hdata : data = 1%nat) by (vm_compute in Er; congruence). subst data.
  exact (equity_starts_at_capital _ _ _ _ _ _ _ _ Er).
Defined.

End BacktestResults.

(** * Signals that never trade, and the signal of the last bar *)

Section FlatSignal.

Local Open Scope Q_scope.

Local Abbreviation zeros := (Forall (num_sat (fun q => q == 0))).
Local Abbreviation finite := (Forall (num_sat (fun _ => True))).

Lemma shift1_snoc s x : shift1 (s ++ [x]) = NaN :: s.
Proof.
  unfold shift1. rewrite length_app. cbn [length].
  replace (length s + 1)%nat with (S (length s)) by lia.
  cbn [take]. f_equal. apply take_app_length.
Qed.

Lemma Forall_zip_with_sat (P1 P2 P3 : Q -> Prop) (f : fl -> fl -> fl) s1 s2 :
  (forall x y, num_sat P1 x -> num_sat P2 y -> num_sat P3 (f x y)) ->
  Forall (num_sat P1) s1 -> Forall (num_sat P2) s2 ->
  Forall (num_sat P3) (zip_with f s1 s2).
Proof.
  intros Hf H1. revert s2. induction H1 as [|x s1 Hx H1 IH]; intros s2 H2;
    [constructor|].
  destruct H2 as [|y s2 Hy H2]; simpl; constructor; auto.
Qed.

Lemma Forall_map_sat (P1 P2 : Q -> Prop) (f : fl -> fl) s :
  (forall x, num_sat P1 x -> num_sat P2 (f x)) ->
  Forall (num_sat P1) s -> Forall (num_sat P2) (map f s).
Proof. intros Hf. induction 1; simpl; constructor; auto. Qed.

Lemma zeros_repeat (q : Q) n : q == 0 -> zeros (repeat (Num q) n).
Proof. intros Hq. induction n; simpl; constructor; [by eexists|done]. Qed.

(** Positive prices have finite returns. *)
Lemma pct_tail_finite q l :
  0 < q -> Forall (Qlt 0) l ->
  finite (map (fun x => fsub x f1) (zip_with fdiv (map Num l) (Num q :: map Num l))).
Proof.
  intros Hq Hl. revert q Hq. induction Hl as [|x l Hx Hl IH]; intros q Hq;
    simpl; [constructor|].
  rewrite Qeq_bool_pos by done. constructor; [by eexists|]. by apply IH.
Qed.

Lemma market_ret_finite q l :
  Forall (Qlt 0) (q :: l) ->
  finite (fillna f0 (pct_change (map Num (q :: l)))).
Proof.
  intros [Hq Hl]%Forall_cons. unfold pct_change, sdiv. cbn [map].
  rewrite zip_with_shift1. cbn [map]. rewrite fillna_cons.
  constructor; [by exists 0|].
  erewrite fillna_num; by apply pct_tail_finite.
Qed.

(** A signal of 0 on every bar but the last: never in the market. *)
Lemma position_flat n x : fillna f0 (shift1 (repeat f0 n ++ [x])) = repeat f0 (S n).
Proof.
  rewrite shift1_snoc, fillna_cons. cbn [isnan repeat]. f_equal.
  unfold fillna. by rewrite map_repeat.
Qed.

Lemma trade_flat n : zeros (fillna f0 (sabs (diff (repeat f0 (S n))))).
Proof.
  unfold diff, ssub. change (repeat f0 (S n)) with (f0 :: repeat f0 n).
  rewrite zip_with_shift1.
  change (f0 :: repeat f0 n) with (repeat f0 (S n)). rewrite zip_with_repeat.
  unfold sabs, fillna. cbn [map]. rewrite !map_repeat.
  constructor; [by exists 0|]. by apply zeros_repeat.
Qed.

Lemma net_flat n x q closes fee :
  length closes = n -> Forall (Qlt 0) (q :: closes) ->
  let position := fillna f0 (shift1 (repeat f0 n ++ [x])) in
  let market_ret := fillna f0 (pct_change (map Num (q :: closes))) in
  let trade_occurred := fillna f0 (sabs (diff position)) in
  zeros (ssub (smul position market_ret)
           (map (fun x => fmul x (Num fee)) trade_occurred)).
Proof.
  intros Hn Hcloses position market_ret trade_occurred.
  subst position market_ret trade_occurred. rewrite position_flat.
  apply (Forall_zip_with_sat (fun q => q == 0) (fun q => q == 0)).
  { intros ? ? (a & -> & Ha) (b & -> & Hb). eexists. split; [done|].
    simpl. rewrite Ha, Hb. ring. }
  - apply (Forall_zip_with_sat (fun q => q == 0) (fun _ => True)).
    { intros ? ? (a & -> & Ha) (b & -> & _). eexists. split; [done|].
      simpl. rewrite Ha. ring. }
    + by apply (zeros_repeat 0).
    + by apply market_ret_finite.
  - apply (Forall_map_sat (fun q => q == 0)); [|apply trade_flat].
    intros ? (a & -> & Ha). eexists. split; [done|]. simpl. rewrite Ha. ring.
Qed.

(** The running product of returns of 0 stays where it starts. *)
Lemma cumprod_flat s a :
  zeros s ->
  exists l,
    cumprod_from (Num a) (map (fadd f1) s) = map Num l /\
    Forall (fun x => x == a) l /\ length l = length s.
Proof.
  intros Hs. revert a. induction Hs as [|y s (q & -> & Hq) Hs IH]; intros a.
  - by exists [].
  - destruct (IH (a * (1 + q))) as (l & El & Hl & Hlen).
    exists (a * (1 + q) :: l). simpl. rewrite El. split; [done|]. split.
    + constructor; [rewrite Hq; ring|].
      eapply Forall_impl; [exact Hl|]. intros z Hz. simpl in Hz.
      rewrite Hz, Hq. ring.
    + by rewrite Hlen.
Qed.

Lemma nondecr_const a l b : Forall (fun x => x == a) l -> b <= a -> nondecr b l.
Proof.
  intros Hl. revert b. induction Hl as [|x l Hx Hl IH]; intros b Hb; simpl; [done|].
  split; [lra|]. apply IH. lra.
Qed.

Lemma win_rate_flat position net : zeros position -> win_rate_of position net = f0.
Proof.
  intros Hp. unfold win_rate_of. cbv zeta.
  assert (E : filter (fun pn : fl * fl => fneb pn.1 f0 = true) (zip position net) = []).
  { revert net. induction Hp as [|x p (q & -> & Hq) Hp IH]; intros [|y net]; try done.
    cbn [zip zip_with]. rewrite filter_cons_False; [apply IH|].
    simpl. unfold fneb. simpl. apply Qeq_bool_iff in Hq. by rewrite Hq. }
  by rewrite E.
Qed.

(** X5.  A strategy whose signal is 0 on every bar (the last bar's signal is
    free) never enters the market: for positive closes that lie within a
    factor of 2^1000 of each other (so that every market return is finite)
    and a positive capital, the backtest returns a total return of 0, a
    maximum drawdown of 0 and a win rate of 0, whatever the commission. *)
Theorem flat_signal_keeps_capital strategy_func df h q0 closes lo hi x k fee :
  let d := deref h df in
  (forall col, col ∈ required_cols -> has_column d col = true) ->
  getcol "close" d = Some (map Num (q0 :: closes)) ->
  0 < lo -> hi <= inject_Z (2 ^ 1000) * lo ->
  Forall (fun q => lo <= q <= hi) (q0 :: closes) ->
  strategy_func d = (d, Ret (PSeries (repeat f0 (length closes) ++ [x]))) ->
  0 < k ->
  exists h' m data,
    run strategy_func df (Num k) (Num fee) h = (h', Ret (Stats m data)) /\
    feqb (total_return m) f0 = true /\
    feqb (max_drawdown m) f0 = true /\
    win_rate m = f0.
Proof.
  intros d Hcols Hclose Hlo _ Hbounds Hf Hk.
  assert (Hpos : Forall (Qlt 0) (q0 :: closes)).
  { eapply Forall_impl; [exact Hbounds|]. intros q [Hq _]. lra. }
  assert (Hn : nrows d = S (length closes)).
  { apply getcol_length in Hclose. by rewrite length_map in Hclose. }
  rewrite run_eval. fold d. cbv zeta.
  replace (forallb (has_column d) required_cols) with true.
  2:{ symmetry. apply forallb_forall. intros col Hin. by apply Hcols, list_elem_of_In. }
  destruct (run_body_eval strategy_func (Num k) (Num fee) d
              (repeat f0 (length closes) ++ [x])
              (map Num (q0 :: closes)) Hf) as [d' ->]; [|done|].
  { rewrite length_app, repeat_length. cbn [length]. lia. }
  pose proof (net_flat (length closes) x q0 closes fee eq_refl Hpos) as Hnet.
  cbv zeta in Hnet.
  set (position := fillna f0 (shift1 (repeat f0 (length closes) ++ [x]))) in *.
  set (net := ssub _ _) in *.
  assert (Hlen : length net = S (length closes)).
  { subst net position. unfold ssub, smul, sabs.
    repeat (rewrite length_zip_with || rewrite shift1_length || rewrite fillna_length
            || rewrite pct_change_length || rewrite diff_length
            || rewrite length_map || rewrite length_app || rewrite repeat_length).
    cbn [length]. lia. }
  destruct (cumprod_flat net 1 Hnet) as (l & El & Hl & Hll).
  change (Num 1) with f1 in El. unfold cumprod. rewrite El. clear El.
  rewrite map_map.
  change (map (fun y => fmul (Num y) (Num k)) l) with (map (fun y => Num (y * k)) l).
  rewrite <- (map_map (fun y => y * k) Num).
  destruct l as [|y l]; [rewrite Hlen in Hll; done|].
  assert (Hex : exists z, last (y :: l) = Some z /\ z == 1).
  { destruct (last (y :: l)) as [z|] eqn:Ez; [|by apply last_None in Ez].
    exists z. split; [done|]. rewrite last_Some in Ez. destruct Ez as [l' El'].
    rewrite El' in Hl. by apply Forall_app in Hl as [_ [Hz _]%Forall_cons]. }
  destruct Hex as (z & Ez & Hz).
  rewrite !last_map, Ez. cbn [fmap option_fmap option_map].
  eexists _, _, _. split; [done|]. cbn [total_return max_drawdown win_rate].
  split; [|split].
  - simpl. rewrite Qeq_bool_pos by done. simpl. apply Qeq_bool_iff.
    rewrite Hz. field. lra.
  - apply Forall_cons in Hl as [Hy Hl]. cbn [map].
    apply (max_drawdown_zero (y * k) (map (fun y => y * k) l)); [rewrite Hy; lra|].
    apply nondecr_scale; [done|]. apply (nondecr_const 1); [done|lra].
  - apply win_rate_flat. subst position. rewrite position_flat.
    by apply (zeros_repeat 0).
Qed.

Lemma flat_signal_keeps_capital_witness :
  exists h' m data,
    run (fixed_signal [0; 0; 1]) 0%nat (Num 100000) (Num 0.0003)
      [frame_of_closes [10; 9; 12]] = (h', Ret (Stats m data)) /\
    feqb (total_return m) f0 = true /\
    feqb (max_drawdown m) f0 = true /\
    win_rate m = f0.
Proof.
  apply (flat_signal_keeps_capital (fixed_signal [0; 0; 1]) 0%nat
           [frame_of_closes [10; 9; 12]] 10 [9; 12] 9 12 (Num 1) 100000 0.0003).
  - intros col Hcol. repeat (apply elem_of_cons in Hcol as [->|Hcol]; [reflexivity|]).
    by apply elem_of_nil in Hcol.
  - reflexivity.
  - reflexivity.
  - by vm_compute.
  - repeat constructor; by vm_compute.
  - reflexivity.
  - reflexivity.
Defined.

(** X6.  The signal of the last bar is shifted out of the positions: two
    strategies whose signals differ on the last bar only get the same
    statistics. *)
Theorem last_signal_is_not_traded f g df initial_capital commission h s x y h1 m data :
  let d := deref h df in
  f d = (d, Ret (PSeries (s ++ [x]))) ->
  g d = (d, Ret (PSeries (s ++ [y]))) ->
  S (length s) = nrows d ->
  run f df initial_capital commission h = (h1, Ret (Stats m data)) ->
  exists h2 data2,
    run g df initial_capital commission h = (h2, Ret (Stats m data2)).
Proof.
  intros d Hf Hg Hlen. rewrite !run_eval. fold d. cbv zeta.
  destruct (forallb (has_column d) required_cols) eqn:Hcols; [|done].
  assert (Hclose : is_Some (getcol "close" d)).
  { apply has_column_getcol. rewrite forallb_forall in Hcols. apply Hcols.
    simpl. tauto. }
  destruct Hclose as [close Hclose].
  assert (Hls : forall z, length (s ++ [z]) = nrows d).
  { intros z. rewrite length_app. cbn [length]. lia. }
  destruct (run_body_eval f initial_capital commission d (s ++ [x]) close
              Hf (Hls x) Hclose) as [d1 E1].
  destruct (run_body_eval g initial_capital commission d (s ++ [y]) close
              Hg (Hls y) Hclose) as [d2 E2].
  cbv zeta in E1, E2. rewrite shift1_snoc in E1, E2. rewrite E1, E2.
  destruct (last _) as [last_equity|]; [|done].
  intros [= <- <- <-]. by eexists _, _.
Qed.

Lemma last_signal_is_not_traded_witness :
  exists h1 m data,
    run (fixed_signal [1; 0; 1]) 0%nat (Num 100000) (Num 0.0003)
      [frame_of_closes [10; 11; 12]] = (h1, Ret (Stats m data)) /\
    exists h2 data2,
      run (fixed_signal [1; 0; 0]) 0%nat (Num 100000) (Num 0.0003)
        [frame_of_closes [10; 11; 12]] = (h2, Ret (Stats m data2)).
Proof.
  destruct (run (fixed_signal [1; 0; 1]) 0%nat (Num 100000) (Num 0.0003)
              [frame_of_closes [10; 11; 12]]) as [h1 [[| |m data]|e]] eqn:Er;
    try (by vm_compute in Er).
  exists h1, m, data. split; [done|].
  exact (last_signal_is_not_traded (fixed_signal [1; 0; 1]) (fixed_signal [1; 0; 0])
           0%nat (Num 100000) (Num 0.0003) [frame_of_closes [10; 11; 12]]
           (map Num [1; 0]) (Num 1) (Num 0) h1 m data eq_refl eq_refl eq_refl Er).
Defined.

End FlatSignal.

(** * The strategy file across restarts, deletions and id collisions *)

Section StrategyStoreRestart.

Implicit Types (l : list Strategy) (m : Manager) (io : IO).

Lemma save_written io m :
  makedirs_fails io = false -> write_fails io = false ->
  _save_strategies io m =
  (mkManager (strategies m) (Holds (strategies m)) (log m), Ret tt).
Proof.
  intros Hd Hw. unfold _save_strategies, bind, makedirs, try_except, dump.
  by rewrite Hd, Hw.
Qed.

Lemma init_loads l logged :
  __init__ false (Holds l) logged = (mkManager l (Holds l) logged, Ret tt).
Proof. done. Qed.

Lemma find_strategy_filter_other l sid other :
  other <> sid ->
  find_strategy other (filter (fun s => id s <> sid) l) = find_strategy other l.
Proof.
  intros Hne. induction l as [|x l IH]; simpl; [done|].
  rewrite filter_cons. case_decide as Hx; simpl.
  - by rewrite IH.
  - rewrite IH.
    destruct (String.eqb_spec (id x) other); [congruence|done].
Qed.

(** X7.  What a successful save wrote is what a new manager loads: after
    [add_strategy], after a [delete_strategy] and after a [toggle_strategy]
    that returned true, on a file system on which the save works, a manager
    created over the file lists the strategies the old one holds, whatever
    the file held before. *)
Theorem saved_strategies_survive_restart io m logged :
  makedirs_fails io = false -> write_fails io = false ->
  (forall sid now n d c m' r,
     add_strategy io sid now n d c m = (m', r) ->
     exists m2, __init__ false (strategy_file m') logged = (m2, Ret tt) /\
                list_strategies m2 = list_strategies m') /\
  (forall sid m',
     delete_strategy io sid m = (m', Ret true) ->
     exists m2, __init__ false (strategy_file m') logged = (m2, Ret tt) /\
                list_strategies m2 = list_strategies m') /\
  (forall sid st m',
     toggle_strategy io sid st m = (m', Ret true) ->
     exists m2, __init__ false (strategy_file m') logged = (m2, Ret tt) /\
                list_strategies m2 = list_strategies m').
Proof.
  intros Hd Hw. repeat split.
  - intros sid now n d c m' r. unfold add_strategy, bind at 1. cbn -[_save_strategies].
    unfold bind at 1. rewrite save_written by done. cbn.
    intros [= <- _]. cbn [strategy_file]. eexists. by rewrite init_loads.
  - intros sid m'. unfold delete_strategy.
    destruct (_ <? _)%nat; [|done].
    unfold bind at 1. rewrite save_written by done. cbn.
    intros [= <-]. cbn [strategy_file]. eexists. by rewrite init_loads.
  - intros sid st m'. unfold toggle_strategy.
    destruct (toggle_first sid st (strategies m)) as [l|]; [|done].
    unfold bind at 1. rewrite save_written by done. cbn.
    intros [= <-]. cbn [strategy_file]. eexists. by rewrite init_loads.
Qed.

Lemma saved_strategies_survive_restart_witness :
  (forall sid now n d c m' r,
     add_strategy (mkIO false false false) sid now n d c example_store = (m', r) ->
     exists m2, __init__ false (strategy_file m') [] = (m2, Ret tt) /\
                list_strategies m2 = list_strategies m') /\
  (forall sid m',
     delete_strategy (mkIO false false false) sid example_store = (m', Ret true) ->
     exists m2, __init__ false (strategy_file m') [] = (m2, Ret tt) /\
                list_strategies m2 = list_strategies m') /\
  (forall sid st m',
     toggle_strategy (mkIO false false false) sid st example_store = (m', Ret true) ->
     exists m2, __init__ false (strategy_file m') [] = (m2, Ret tt) /\
                list_strategies m2 = list_strategies m').
Proof.
  apply (saved_strategies_survive_restart (mkIO false false false) example_store []);
    reflexivity.
Defined.

(** X8.  A strategy added while the write fails lives in memory only:
    [add_strategy] returns its id and lists it after the strategies it had,
    but a manager created over the file afterwards (the file being readable)
    lists what the file held before the call when the file could not be
    opened, and nothing when the write failed after the file was opened. *)
Theorem unsaved_strategy_is_lost_on_restart io m new_id now n d c logged :
  write_fails io = true -> makedirs_fails io = false ->
  exists m',
    add_strategy io new_id now n d c m = (m', Ret new_id) /\
    list_strategies m' = list_strategies m ++ [mkStrategy new_id n d c now "active"] /\
    exists m2,
      __init__ false (strategy_file m') logged = (m2, Ret tt) /\
      list_strategies m2 =
        if after_open io then [] else file_content (strategy_file m).
Proof.
  intros Hw Hd. eexists. split.
  { unfold add_strategy, bind at 1. cbn -[_save_strategies].
    unfold _save_strategies, bind, makedirs, try_except, dump. rewrite Hd, Hw.
    cbn. reflexivity. }
  cbn. split; [done|].
  destruct (after_open io); [by eexists|].
  destruct (strategy_file m) as [|content|]; by eexists.
Qed.

Lemma unsaved_strategy_is_lost_on_restart_witness :
  exists m',
    add_strategy failing_disk "0a1b2c3d" "t" "n" "d" "c" example_store
      = (m', Ret "0a1b2c3d") /\
    list_strategies m' =
      list_strategies example_store ++ [mkStrategy "0a1b2c3d" "n" "d" "c" "t" "active"] /\
    exists m2,
      __init__ false (strategy_file m') [] = (m2, Ret tt) /\
      list_strategies m2 =
        if after_open failing_disk then [] else file_content (strategy_file example_store).
Proof.
  apply (unsaved_strategy_is_lost_on_restart failing_disk example_store
           "0a1b2c3d" "t" "n" "d" "c" []); reflexivity.
Defined.

(** X9.  [delete_strategy] removes every strategy with the id and no other:
    whatever the file system does, afterwards [get_strategy] finds nothing
    under the id and what it found under any other id; for an id that is not
    stored it returns false and touches neither the list, the file nor the
    log. *)
Theorem delete_strategy_effect io m sid :
  let m' := (delete_strategy io sid m).1 in
  get_strategy m' sid = None /\
  (forall other, other <> sid -> get_strategy m' other = get_strategy m other) /\
  (get_strategy m sid = None -> delete_strategy io sid m = (m, Ret false)).
Proof.
  assert (Hs : strategies (delete_strategy io sid m).1 =
               filter (fun s => id s <> sid) (strategies m)).
  { unfold delete_strategy. destruct (_ <? _)%nat; [|done].
    unfold bind at 1, _save_strategies, bind at 1, makedirs.
    destruct (makedirs_fails io); [done|]. cbn.
    unfold try_except, dump. by destruct (write_fails io). }
  cbv zeta. unfold get_strategy. rewrite Hs. repeat split.
  - apply find_strategy_filter_ne.
  - intros other Hne. by apply find_strategy_filter_other.
  - intros Hf. unfold delete_strategy. rewrite (filter_ne_id _ _ Hf).
    rewrite Nat.ltb_irrefl. by destruct m.
Qed.

(** X10.  [add_strategy] does not check that the id it drew is new.  When the id
    is already stored, the new strategy is listed but hidden behind the old
    one: [get_strategy] keeps returning the old one, and [toggle_strategy]
    changes the old one and leaves the new one active. *)
Theorem add_strategy_id_collision io m sid now n d c old :
  makedirs_fails io = false ->
  get_strategy m sid = Some old ->
  exists m',
    add_strategy io sid now n d c m = (m', Ret sid) /\
    mkStrategy sid n d c now "active" ∈ list_strategies m' /\
    get_strategy m' sid = Some old /\
    forall st, exists m2,
      toggle_strategy io sid st m' = (m2, Ret true) /\
      get_strategy m2 sid = Some (set_status st old) /\
      mkStrategy sid n d c now "active" ∈ get_active_strategies m2.
Proof.
  intros Hd Hold. unfold get_strategy in Hold.
  set (new := mkStrategy sid n d c now "active").
  set (ma := mkManager (strategies m ++ [new]) (strategy_file m) (log m)).
  destruct (save_ok io ma Hd) as (ms & Hs & Hss).
  eexists. split.
  { unfold add_strategy, bind at 1. fold new. cbn -[_save_strategies]. fold ma.
    unfold bind at 1. rewrite Hs. cbn. reflexivity. }
  cbn. rewrite Hss. cbn. split; [set_solver|]. split.
  { by rewrite find_strategy_app, Hold. }
  intros st.
  destruct (toggle_first_Some _ _ st _ Hold) as (l1 & l2 & Hl & Hn & Ht).
  assert (Ht' : toggle_first sid st (strategies m ++ [new]) =
                Some (l1 ++ set_status st old :: l2 ++ [new])).
  { rewrite Hl, <- app_assoc. cbn [app].
    assert (Hf : find_strategy sid (l1 ++ old :: l2 ++ [new]) = Some old).
    { rewrite find_strategy_app, Hn. cbn.
      apply find_strategy_id in Hold. by rewrite Hold, String.eqb_refl. }
    destruct (toggle_first_Some _ _ st _ Hf) as (k1 & k2 & Hk & Hkn & ->).
    clear -Hk Hkn Hn Hold. apply find_strategy_id in Hold.
    revert k1 Hk Hkn. induction l1 as [|y l1 IH]; intros [|z k1]; cbn.
    - by intros [= <-] _.
    - intros [= <- _]. by rewrite Hold, String.eqb_refl.
    - intros [= -> _] _. cbn in Hn. by rewrite Hold, String.eqb_refl in Hn.
    - intros [= <- Hk] Hkn. cbn in Hn.
      destruct (String.eqb (id y) sid); [done|].
      specialize (IH Hn k1 Hk Hkn). by injection IH as ->. }
  set (mt := mkManager (l1 ++ set_status st old :: l2 ++ [new])
               (strategy_file ms)
               (log ms ++ [(INFO, ("Strategy '" ++ n ++ "' added with ID " ++ sid)%string)])).
  destruct (save_ok io mt Hd) as (m2 & Hs2 & Hss2).
  exists m2. split; [|split].
  - unfold toggle_strategy. cbn -[_save_strategies]. rewrite Ht'. fold mt.
    unfold bind at 1. by rewrite Hs2.
  - unfold get_strategy. rewrite Hss2. cbn. rewrite find_strategy_app, Hn. cbn.
    apply find_strategy_id in Hold. by rewrite Hold, String.eqb_refl.
  - unfold get_active_strategies. rewrite Hss2. cbn.
    apply list_elem_of_filter. split; [done|]. set_solver.
Qed.

Lemma add_strategy_id_collision_witness :
  exists m',
    add_strategy (mkIO false false false) "ffee0011" "t" "n" "d" "c" example_store
      = (m', Ret "ffee0011") /\
    mkStrategy "ffee0011" "n" "d" "c" "t" "active" ∈ list_strategies m' /\
    get_strategy m' "ffee0011" = Some (mkStrategy "ffee0011" "old" "" "" "" "inactive") /\
    forall st, exists m2,
      toggle_strategy (mkIO false false false) "ffee0011" st m' = (m2, Ret true) /\
      get_strategy m2 "ffee0011" =
        Some (set_status st (mkStrategy "ffee0011" "old" "" "" "" "inactive")) /\
      mkStrategy "ffee0011" "n" "d" "c" "t" "active" ∈ get_active_strategies m2.
Proof.
  apply (add_strategy_id_collision (mkIO false false false) example_store
           "ffee0011" "t" "n" "d" "c"); reflexivity.
Defined.

End StrategyStoreRestart.

(** * A tick: what can abort it and what it can send *)

Section TickOutcomes.

Lemma merge_window_unusable h hist_df snapshot :
  getcol "date" (deref h hist_df) = None \/ nrows (deref h hist_df) = 0 ->
  merge_window hist_df snapshot h =
  (h, Raise match getcol "date" (deref h hist_df) with
            | Some _ => IndexError
            | None => KeyError "date"
            end).
Proof.
  intros Hbad. unfold merge_window. unfold bind at 1. rewrite on_getitem.
  destruct (getcol "date" (deref h hist_df)) as [dates|] eqn:E; [|done].
  destruct Hbad as [|Hn]; [done|].
  apply getcol_length in E. rewrite Hn in E. by destruct dates.
Qed.

(** X11.  A cached history that cannot be merged (it has no date column, or no
    row) aborts the tick: the failure is raised outside the handler of the
    strategies, [run_once] raises it (KeyError for the column, IndexError for
    the last date) and sends nothing, the alerts that the stocks scanned
    before had produced included. *)
Theorem unusable_window_aborts_tick self before stock_code snapshot after now w
    hist_df h1 alerts :
  compiled_strategies self <> [] ->
  history_cache self !! stock_code = Some hist_df ->
  for_each before [] (check_stock self now) (heap w) = (h1, Ret alerts) ->
  getcol "date" (deref h1 hist_df) = None \/ nrows (deref h1 hist_df) = 0 ->
  run_once self (before ++ (stock_code, snapshot) :: after) now w =
  (mkWorld h1 (sent w),
   Raise match getcol "date" (deref h1 hist_df) with
         | Some _ => IndexError
         | None => KeyError "date"
         end).
Proof.
  intros Hcs Hc Hbefore Hbad. unfold run_once.
  destruct (compiled_strategies self) as [|entry cs] eqn:Ecs; [done|].
  cbn [length Nat.eqb].
  rewrite bool_decide_eq_false_2.
  2:{ intros He. by rewrite He, lookup_empty in Hc. }
  unfold bind at 1, in_heap. rewrite for_each_app. unfold bind at 1.
  rewrite Hbefore. cbn [for_each]. unfold bind at 1, check_stock at 1.
  rewrite Hc. unfold bind at 1. by rewrite merge_window_unusable.
Qed.

Lemma unusable_window_aborts_tick_witness :
  run_once example_watchlist
    ([("600519", example_quote 4)] ++ ("000001", example_quote 4) :: [])
    example_clock (mkWorld example_heap []) =
  (mkWorld example_first_quote.1 [],
   Raise match getcol "date" (deref example_first_quote.1 1%nat) with
         | Some _ => IndexError
         | None => KeyError "date"
         end).
Proof.
  apply (unusable_window_aborts_tick example_watchlist
           [("600519", example_quote 4)] "000001" (example_quote 4) []
           example_clock (mkWorld example_heap []) 1%nat example_first_quote.1
           [mkAlert "600519" (Num 13.5) "buy and hold" "BUY" "09:31:00"]).
  - discriminate.
  - reflexivity.
  - reflexivity.
  - left. reflexivity.
Defined.

(** The inner loop, when it runs to its end: it has appended the alerts of
    some of the strategies, in order and at most one for each, all of them
    strategies that the manager knows. *)
Lemma strategies_loop self quote now eval_df cs alerts h h' alerts' :
  for_each cs alerts (check_strategy self quote.1 quote.2 now eval_df) h = (h', Ret alerts') ->
  exists pairs,
    pairs `sublist_of` (pair quote <$> cs) /\
    Forall (fun p : Pair => is_Some (get_strategy (strategy_mgr self) p.2.1)) pairs /\
    alerts' =
      alerts ++ imap (fun k => alert_of_pair self now (length alerts + k)) pairs.
Proof.
  revert alerts h. induction cs as [|[s_id f] cs IH]; intros alerts h.
  - intros [= <- <-]. exists []. by rewrite app_nil_r.
  - cbn [for_each]. unfold bind.
    destruct (check_strategy self quote.1 quote.2 now eval_df alerts (s_id, f) h)
      as [h1 [alerts1|e]] eqn:E; [|done].
    apply check_strategy_step in E as [-> ->].
    intros E. apply IH in E as (pairs & Hsub & Hknown & ->).
    destruct (final_signal_is_one f _) eqn:Ef; cbn [andb].
    + case_bool_decide as Hk.
      * exists ((quote, (s_id, f)) :: pairs). split; [by apply sublist_skip|].
        split; [by constructor|]. rewrite <- app_assoc. f_equal. cbn [app imap].
        unfold alert_of_pair at 2. cbn [fst snd]. rewrite Nat.add_0_r. f_equal.
        apply imap_ext. intros i p _. unfold compose. rewrite length_app. cbn [length].
        by replace (length alerts + 1 + i) with (length alerts + S i) by lia.
      * exists pairs. split; [by apply sublist_cons|done].
    + exists pairs. split; [by apply sublist_cons|done].
Qed.

Lemma stocks_loop self now data alerts h h' alerts' :
  for_each data alerts (check_stock self now) h = (h', Ret alerts') ->
  exists pairs,
    pairs `sublist_of` pairs_of_tick self data /\
    Forall (fun p : Pair =>
              is_Some (history_cache self !! p.1.1) /\
              is_Some (get_strategy (strategy_mgr self) p.2.1)) pairs /\
    alerts' =
      alerts ++ imap (fun k => alert_of_pair self now (length alerts + k)) pairs.
Proof.
  revert alerts h. induction data as [|[stock_code snapshot] data IH]; intros alerts h.
  - intros [= <- <-]. exists []. by rewrite app_nil_r.
  - cbn [for_each]. unfold bind at 1, check_stock at 1.
    unfold pairs_of_tick. rewrite bind_cons. fold (pairs_of_tick self data).
    destruct (history_cache self !! stock_code) as [hist_df|] eqn:Ec.
    + unfold bind at 1.
      destruct (merge_window hist_df snapshot h) as [h1 [eval_df|e]]; [|done].
      destruct (for_each (compiled_strategies self) alerts _ h1) as [h2 [alerts1|e]] eqn:Ei;
        [|done].
      apply (strategies_loop self (stock_code, snapshot)) in Ei
        as (pairs1 & Hsub1 & Hknown1 & ->).
      intros E. apply IH in E as (pairs2 & Hsub2 & Hknown2 & ->).
      exists (pairs1 ++ pairs2). split; [by apply sublist_app|]. split.
      * apply Forall_app. split; [|done].
        apply Forall_forall. intros p Hp. split.
        -- apply (sublist_subseteq _ _ Hsub1), list_elem_of_fmap in Hp as (entry & -> & _).
           cbn [fst snd]. by rewrite Ec.
        -- by apply (proj1 (Forall_forall _ _) Hknown1).
      * rewrite <- app_assoc, imap_app. f_equal. f_equal.
        apply imap_ext. intros i p _. rewrite length_app, length_imap.
        by rewrite Nat.add_assoc.
    + cbn [ret]. intros E. apply IH in E as (pairs & Hsub & Hknown & ->).
      exists pairs. split; [by apply sublist_inserts_l|done].
Qed.

(** X12.  Whatever the strategies and the histories do, a tick sends nothing or
    one batch.  A batch is not empty; it is made of the alerts of some of
    the pairs (quote, strategy) of the tick, in the order of the two loops
    and at most one for each pair, each pair with a cached stock and with a
    strategy that the manager knows.  The alert of a pair is a BUY of the
    stock at the close of its quote, under the name that the manager has for
    the strategy, with the reading of the clock for its place in the
    batch. *)
Theorem tick_sends_at_most_one_batch self realtime_data now w :
  let w' := (run_once self realtime_data now w).1 in
  sent w' = sent w \/
  exists pairs,
    pairs <> [] /\
    pairs `sublist_of` pairs_of_tick self realtime_data /\
    Forall (fun p : Pair =>
              is_Some (history_cache self !! p.1.1) /\
              is_Some (get_strategy (strategy_mgr self) p.2.1)) pairs /\
    sent w' = sent w ++ [imap (alert_of_pair self now) pairs].
Proof.
  cbv zeta. unfold run_once.
  destruct (length (compiled_strategies self) =? 0)%nat; [by left|].
  destruct (bool_decide (history_cache self = ∅)); [by left|].
  unfold bind, in_heap.
  destruct (for_each realtime_data [] (check_stock self now) (heap w))
    as [h' [alerts|e]] eqn:E; [|by left].
  apply stocks_loop in E as (pairs & Hsub & Hknown & ->).
  cbn [app length].
  replace (fun k => alert_of_pair self now (0 + k)) with (alert_of_pair self now) by done.
  destruct pairs as [|p pairs]; [by left|].
  right. exists (p :: pairs). by repeat split.
Qed.

End TickOutcomes.

(** * Loading the context of the monitor *)

Section LoadContext.

Implicit Types (d df : DataFrame) (h : Heap).



Lemma assoc_set_elem {V} c (v : V) (l : list (string * V)) k (w : V) :
  (k, w) ∈ assoc_set c v l -> (k, w) = (c, v) \/ (k, w) ∈ l.
Proof.
  induction l as [|[k0 w0] l IH]; simpl.
  - intros [?|?%elem_of_nil]%elem_of_cons; [by left|done].
  - destruct (String.eqb_spec k0 c) as [->|Hne].
    + intros [?|Hin]%elem_of_cons; [by left|]. right. apply elem_of_cons. by right.
    + intros [?|Hin]%elem_of_cons.
      * right. apply elem_of_cons. by left.
      * destruct (IH Hin) as [?|?]; [by left|]. right. apply elem_of_cons. by right.
Qed.

Lemma assoc_set_keys {V} c (v : V) (l : list (string * V)) k :
  k ∈ map fst (assoc_set c v l) <-> k = c \/ k ∈ map fst l.
Proof.
  induction l as [|[k0 w0] l IH]; simpl.
  - rewrite elem_of_cons. split; (intros [?|?]; [by left|by right]).
  - destruct (String.eqb_spec k0 c) as [->|Hne]; simpl; rewrite !elem_of_cons.
    + tauto.
    + rewrite IH. tauto.
Qed.

Lemma assoc_set_NoDup {V} c (v : V) (l : list (string * V)) :
  NoDup (map fst l) -> NoDup (map fst (assoc_set c v l)).
Proof.
  induction l as [|[k0 w0] l IH]; simpl.
  - intros _. apply NoDup_singleton.
  - intros [Hk Hl]%NoDup_cons.
    destruct (String.eqb_spec k0 c) as [->|Hne]; simpl; apply NoDup_cons.
    + done.
    + split; [|by apply IH]. rewrite assoc_set_keys. intros [?|?]; congruence.
Qed.

(** Step 1 of [load_context]: the dict of the compiled strategies. *)
Lemma compile_loop (compile_strategy : string -> option strategy_fn)
    (active : list Strategy) (acc : list (string * strategy_fn)) :
  let compiled :=
    fold_left
      (fun acc s =>
         match compile_strategy (code s) with
         | Some func => assoc_set (id s) func acc
         | None => acc
         end)
      active acc in
  (NoDup (map fst acc) -> NoDup (map fst compiled)) /\
  (forall s_id f, (s_id, f) ∈ compiled ->
     (s_id, f) ∈ acc \/
     exists s, s ∈ active /\ id s = s_id /\ compile_strategy (code s) = Some f) /\
  (forall k, k ∈ map fst acc -> k ∈ map fst compiled) /\
  (forall s, s ∈ active -> is_Some (compile_strategy (code s)) ->
     id s ∈ map fst compiled).
Proof.
  revert acc. induction active as [|s active IH]; intros acc; cbn [fold_left].
  - repeat split; try done.
    + intros s_id f Hin. by left.
    + by intros s ?%elem_of_nil.
  - set (acc1 := match compile_strategy (code s) with
                 | Some func => assoc_set (id s) func acc
                 | None => acc
                 end).
    destruct (IH acc1) as (Hnd & Hfrom & Hkeep & Hall). cbv zeta in *.
    repeat split.
    + intros Hacc. apply Hnd. subst acc1.
      destruct (compile_strategy (code s)); [by apply assoc_set_NoDup|done].
    + intros s_id f Hin. destruct (Hfrom _ _ Hin) as [Hacc1|(s' & Hs' & ? & ?)].
      * subst acc1. destruct (compile_strategy (code s)) as [func|] eqn:Ec; [|by left].
        apply assoc_set_elem in Hacc1 as [[= -> ->]|?]; [|by left].
        right. exists s. split; [|done]. apply elem_of_cons. by left.
      * right. exists s'. split; [|done]. apply elem_of_cons. by right.
    + intros k Hk. apply Hkeep. subst acc1.
      destruct (compile_strategy (code s)); [|done].
      apply assoc_set_keys. by right.
    + intros s' [->|Hs']%elem_of_cons Hc; [|by apply Hall].
      apply Hkeep. subst acc1. destruct Hc as [func ->].
      apply assoc_set_keys. by left.
Qed.

(** Step 2 of [load_context]: the cache of the recent histories. *)
Lemma history_loop (load_history : string -> option DataFrame) days_lookback
    stock_list (cache : gmap string ref) h :
  (forall stock_code r, cache !! stock_code = Some r ->
     r < length h /\
     exists df, load_history stock_code = Some df /\ df_empty df = false /\
                deref h r = tail_rows days_lookback df) ->
  exists h' cache',
    for_each stock_list cache
      (fun cache stock_code =>
         match load_history stock_code with
         | Some df =>
             if df_empty df then ret cache
             else r <- alloc (tail_rows days_lookback df) ;;
                  ret (<[stock_code := r]> cache)
         | None => ret cache
         end) h = (h', Ret cache') /\
    h `prefix_of` h' /\
    (forall stock_code r, cache' !! stock_code = Some r ->
       r < length h' /\
       (cache !! stock_code = Some r \/ length h <= r) /\
       exists df, load_history stock_code = Some df /\ df_empty df = false /\
                  deref h' r = tail_rows days_lookback df) /\
    (forall stock_code, is_Some (cache' !! stock_code) <->
       is_Some (cache !! stock_code) \/
       (stock_code ∈ stock_list /\
        exists df, load_history stock_code = Some df /\ df_empty df = false)).
Proof.
  revert cache h. induction stock_list as [|x stock_list IH]; intros cache h Hinv.
  - exists h, cache. split; [done|]. split; [done|]. split.
    + intros stock_code r Hc. destruct (Hinv _ _ Hc) as [? ?]. auto.
    + intros stock_code. split; [by left|]. intros [?|[?%elem_of_nil _]]; done.
  - cbn [for_each]. unfold bind at 1.
    assert (Hskip : (load_history x = None \/
                     exists df, load_history x = Some df /\ df_empty df = true) ->
              exists h' cache',
                for_each stock_list cache
                  (fun cache stock_code =>
                     match load_history stock_code with
                     | Some df =>
                         if df_empty df then ret cache
                         else r <- alloc (tail_rows days_lookback df) ;;
                              ret (<[stock_code := r]> cache)
                     | None => ret cache
                     end) h = (h', Ret cache') /\
                h `prefix_of` h' /\
                (forall stock_code r, cache' !! stock_code = Some r ->
                   r < length h' /\
                   (cache !! stock_code = Some r \/ length h <= r) /\
                   exists df, load_history stock_code = Some df /\ df_empty df = false /\
                              deref h' r = tail_rows days_lookback df) /\
                (forall stock_code, is_Some (cache' !! stock_code) <->
                   is_Some (cache !! stock_code) \/
                   (stock_code ∈ x :: stock_list /\
                    exists df, load_history stock_code = Some df /\ df_empty df = false))).
    { intros Hx. destruct (IH cache h Hinv) as (h' & cache' & E & Hp & Hc & Hdom).
      exists h', cache'. split; [done|]. split; [done|]. split; [exact Hc|].
      intros stock_code. split.
      - intros [?|[? ?]]%Hdom; [by left|]. right. split; [|done].
        apply elem_of_cons. by right.
      - intros [?|[[->|?]%elem_of_cons (df & Hdf & Hne)]]; apply Hdom; eauto.
        destruct Hx as [Hx|(df' & Hx & He)]; congruence. }
    destruct (load_history x) as [df|] eqn:El; [|apply Hskip; by left].
    destruct (df_empty df) eqn:Ee; [apply Hskip; right; by exists df|].
    clear Hskip. unfold bind at 1, alloc at 1. cbn [ret].
    destruct (IH (<[x := length h]> cache) (h ++ [tail_rows days_lookback df]))
      as (h' & cache' & E & Hp & Hc & Hdom).
    { intros stock_code r. rewrite length_app. cbn [length].
      destruct (decide (stock_code = x)) as [->|Hne].
      - rewrite lookup_insert_eq. intros [= <-]. split; [lia|].
        exists df. by rewrite deref_alloc.
      - rewrite lookup_insert_ne by done. intros Hr.
        destruct (Hinv _ _ Hr) as (Hlt & df' & ? & ? & ?). split; [lia|].
        exists df'. by rewrite deref_alloc_old. }
    exists h', cache'. split; [exact E|]. split.
    { etrans; [|exact Hp]. by apply prefix_app_r. }
    split.
    + intros stock_code r Hr. destruct (Hc _ _ Hr) as (Hlt & Hor & Hdf).
      split; [done|]. split; [|done].
      rewrite length_app in Hor. cbn [length] in Hor.
      destruct Hor as [Hor|?]; [|right; lia].
      destruct (decide (stock_code = x)) as [->|Hne].
      * rewrite lookup_insert_eq in Hor. injection Hor as <-. by right.
      * rewrite lookup_insert_ne in Hor by done. by left.
    + intros stock_code. rewrite Hdom.
      destruct (decide (stock_code = x)) as [->|Hne].
      * rewrite lookup_insert_eq. split.
        -- intros _. right. split; [apply elem_of_cons; by left|by exists df].
        -- intros _. left. by eexists.
      * rewrite lookup_insert_ne by done. rewrite elem_of_cons. tauto.
Qed.

Lemma load_context_eval mgr compile_strategy load_history stock_list days_lookback h :
  exists h' self,
    load_context mgr compile_strategy load_history stock_list days_lookback h
      = (h', Ret self) /\
    h `prefix_of` h' /\
    strategy_mgr self = mgr /\
    compiled_strategies self =
      fold_left
        (fun acc s =>
           match compile_strategy (code s) with
           | Some func => assoc_set (id s) func acc
           | None => acc
           end)
        (get_active_strategies mgr) [] /\
    (forall stock_code r, history_cache self !! stock_code = Some r ->
       length h <= r < length h' /\
       exists df, load_history stock_code = Some df /\ df_empty df = false /\
                  deref h' r = tail_rows days_lookback df) /\
    (forall stock_code, is_Some (history_cache self !! stock_code) <->
       stock_code ∈ stock_list /\
       exists df, load_history stock_code = Some df /\ df_empty df = false).
Proof.
  destruct (history_loop load_history days_lookback stock_list ∅ h)
    as (h' & cache & E & Hp & Hc & Hdom).
  { intros stock_code r. by rewrite lookup_empty. }
  exists h', (mkMonitor mgr
                (fold_left
                   (fun acc s =>
                      match compile_strategy (code s) with
                      | Some func => assoc_set (id s) func acc
                      | None => acc
                      end)
                   (get_active_strategies mgr) []) cache).
  split; [unfold load_context; cbv zeta; unfold bind at 1; by rewrite E|].
  split; [done|]. split; [done|]. split; [done|]. cbn [history_cache]. split.
  - intros stock_code r Hr. destruct (Hc _ _ Hr) as (Hlt & [Hor|Hge] & Hdf).
    + by rewrite lookup_empty in Hor.
    + split; [lia|done].
  - intros stock_code. rewrite Hdom, lookup_empty. split.
    + intros [[? [=]]|?]; done.
    + intros ?. by right.
Qed.



(** X16.  Keeping no day of history makes every tick that starts with a quote of
    a cached stock raise: [load_context] with a lookback of 0 caches frames
    without rows, and the merge fails on their last date. *)
Theorem zero_lookback_aborts_tick mgr compile_strategy load_history stock_list h
    h' self stock_code snapshot after now sent0 :
  load_context mgr compile_strategy load_history stock_list 0 h = (h', Ret self) ->
  compiled_strategies self <> [] ->
  is_Some (history_cache self !! stock_code) ->
  exists e,
    run_once self ((stock_code, snapshot) :: after) now (mkWorld h' sent0)
      = (mkWorld h' sent0, Raise e).
Proof.
  intros E Hcs [r Hr].
  destruct (load_context_eval mgr compile_strategy load_history stock_list 0 h)
    as (h2 & self2 & E2 & _ & _ & _ & Hc & _).
  rewrite E in E2. injection E2 as <- <-.
  destruct (Hc _ _ Hr) as (_ & df & _ & _ & Hd).
  assert (Hn : nrows (deref h' r) = 0) by by rewrite Hd.
  unfold run_once.
  destruct (compiled_strategies self) as [|entry cs] eqn:Ecs; [done|].
  cbn [length Nat.eqb].
  rewrite bool_decide_eq_false_2.
  2:{ intros He. by rewrite He, lookup_empty in Hr. }
  unfold bind at 1, in_heap. cbn [for_each heap]. unfold bind at 1, check_stock at 1.
  rewrite Hr. unfold bind at 1.
  rewrite merge_window_unusable by by right. by eexists.
Qed.

Lemma zero_lookback_aborts_tick_witness :
  exists e,
    run_once
      (mkMonitor example_manager
         [("0a1b2c3d", always_long); ("ffee0011", always_long)]
         {["600519" := 0%nat]})
      (("600519", example_quote 4) :: []) example_clock
      (mkWorld [tail_rows 0 example_window] [])
      = (mkWorld [tail_rows 0 example_window] [], Raise e).
Proof.
  apply (zero_lookback_aborts_tick example_manager (fun _ => Some always_long)
           (fun _ => Some example_window) ["600519"] []); [reflexivity|done|by eexists].
Defined.

(** What the merge raises is an [Exception]. *)
Lemma merge_window_raises h hist_df snapshot h1 e :
  merge_window hist_df snapshot h = (h1, Raise e) -> is_exception e = true.
Proof.
  destruct (getcol "date" (deref h hist_df)) as [dates|] eqn:Ed.
  2:{ rewrite merge_window_unusable by by left. rewrite Ed. by intros [= _ <-]. }
  destruct (last dates) as [D|] eqn:El.
  - rewrite (merge_window_eval _ _ _ _ _ Ed El).
    by destruct (fgt (date snapshot) D); [|destruct (feqb (date snapshot) D)].
  - rewrite merge_window_unusable.
    + rewrite Ed. by intros [= _ <-].
    + right. apply last_None in El. subst dates. by apply getcol_length in Ed.
Qed.

(** A scan of strategies that raise nothing but subclasses of [Exception]
    raises nothing else either. *)
Lemma scan_raises self now data alerts h h' e :
  (forall s_id f, (s_id, f) ∈ compiled_strategies self -> raises_only_exceptions f) ->
  for_each data alerts (check_stock self now) h = (h', Raise e) ->
  is_exception e = true.
Proof.
  intros Hx.
  assert (Hinner : forall stock_code snapshot eval_df cs alerts h,
            (forall s_id f, (s_id, f) ∈ cs -> raises_only_exceptions f) ->
            for_each cs alerts (check_strategy self stock_code snapshot now eval_df) h
              = (h', Raise e) -> False).
  { clear. intros stock_code snapshot eval_df cs.
    induction cs as [|[s_id f] cs IH]; intros alerts h Hx; [done|].
    cbn [for_each]. unfold bind. rewrite check_strategy_eval.
    pose proof (Hx s_id f ltac:(apply elem_of_cons; by left) (deref h eval_df)) as Hf.
    destruct ((f (deref h eval_df)).2) as [[s|x]|e1].
    - apply IH. intros k g Hin. apply (Hx k g), elem_of_cons. by right.
    - apply IH. intros k g Hin. apply (Hx k g), elem_of_cons. by right.
    - rewrite (Hf e1 eq_refl).
      apply IH. intros k g Hin. apply (Hx k g), elem_of_cons. by right. }
  revert alerts h. induction data as [|[stock_code snapshot] data IH]; intros alerts h;
    [done|].
  cbn [for_each]. unfold bind at 1, check_stock at 1.
  destruct (history_cache self !! stock_code) as [hist_df|]; [|apply IH].
  unfold bind at 1.
  destruct (merge_window hist_df snapshot h) as [h1 [eval_df|e1]] eqn:Em.
  - destruct (for_each (compiled_strategies self) alerts _ h1) as [h2 [alerts1|e1]] eqn:Ei.
    + apply IH.
    + intros [= <- <-]. by destruct (Hinner _ _ _ _ _ _ Hx Ei).
  - intros [= <- <-]. by eapply merge_window_raises.
Qed.

(** X27.  The rounds of the monitor mode do not depend on each other.  Let the
    compiled strategies leave their window as it is and raise nothing but
    subclasses of [Exception].  When [run_monitor_mode] returns after a
    number of rounds, each round has sent the batch that its quotes are due
    on the windows as [load_context] cached them, if there is one: no round
    changes a window or remembers the alerts of another, so that an alert is
    sent again, round after round, for as long as the signal ends in 1. *)
Theorem monitor_mode_batches mgr compile_strategy load_history stocks ticks w w' :
  (forall code f, compile_strategy code = Some f ->
     leaves_frame f /\ raises_only_exceptions f) ->
  QuantMain.run_monitor_mode mgr compile_strategy load_history stocks ticks w
    = (w', Ret tt) ->
  exists h' self,
    load_context mgr compile_strategy load_history stocks 100 (heap w) = (h', Ret self) /\
    sent w' =
      sent w ++
      (tick ← ticks;
       match imap (alert_of_pair self tick.2)
               (filter (fun p => alerting self h' p = true)
                  (pairs_of_tick self tick.1)) with
       | [] => []
       | batch => [batch]
       end).
Proof.
  intros Hc. unfold QuantMain.run_monitor_mode, bind at 1, in_heap.
  destruct (load_context_eval mgr compile_strategy load_history stocks 100 (heap w))
    as (h' & self & E & _ & _ & Hcs & Hcache & _).
  rewrite E. intros Hrun. exists h', self. split; [done|].
  assert (Hfs : forall s_id f, (s_id, f) ∈ compiled_strategies self ->
            leaves_frame f /\ raises_only_exceptions f).
  { intros s_id f Hin. rewrite Hcs in Hin.
    destruct (compile_loop compile_strategy (get_active_strategies mgr) [])
      as (_ & Hfrom & _). cbv zeta in Hfrom.
    destruct (Hfrom _ _ Hin) as [?%elem_of_nil|(s & _ & _ & Hs)]; [done|].
    by eapply Hc. }
  assert (Hlive : cache_live self h').
  { intros stock_code r Hr. destruct (Hcache _ _ Hr) as [? _]. lia. }
  assert (Hloop : forall w1 w2 o,
            h' `prefix_of` heap w1 ->
            for_each ticks tt (fun _ tick => run_once self tick.1 tick.2) w1 = (w2, o) ->
            match o with
            | Ret _ =>
                sent w2 =
                  sent w1 ++
                  (tick ← ticks;
                   match imap (alert_of_pair self tick.2)
                           (filter (fun p => alerting self h' p = true)
                              (pairs_of_tick self tick.1)) with
                   | [] => []
                   | batch => [batch]
                   end)
            | Raise e => is_exception e = true
            end).
  { clear Hrun E. induction ticks as [|[realtime_data now] ticks IH]; intros w1 w2 o Hp.
    - intros [= <- <-]. by rewrite app_nil_r.
    - cbn [for_each]. unfold bind at 1. cbn [fst snd].
      destruct (run_once self realtime_data now w1) as [w3 [[]|e]] eqn:Et.
      + apply (tick_due self realtime_data now h') in Et as [Hp3 Hs3];
          [|intros; by eapply Hfs|done..].
        intros Er. apply IH in Er; [|done]. destruct o as [[]|e]; [|done].
        by rewrite Er, Hs3, bind_cons, app_assoc.
      + intros [= <- <-]. revert Et. unfold run_once.
        destruct (length (compiled_strategies self) =? 0)%nat; [done|].
        destruct (bool_decide (history_cache self = ∅)); [done|].
        unfold bind, in_heap.
        destruct (for_each realtime_data [] (check_stock self now) (heap w1))
          as [h2 [alerts|e1]] eqn:Es.
        * by destruct alerts.
        * intros [= _ <-]. eapply scan_raises; [|exact Es]. intros; by eapply Hfs. }
  destruct (for_each ticks tt _ (mkWorld h' (sent w))) as [w2 o] eqn:Er.
  apply Hloop in Er; [|done].
  destruct o as [[]|e].
  - injection Hrun as <-. exact Er.
  - by destruct e.
Qed.

Lemma monitor_mode_batches_witness :
  let ticks := [([("600519", example_quote 4)], fun _ : nat => "09:31:00");
                ([("600519", example_quote 4)], fun _ : nat => "09:32:00")] in
  let run :=
    QuantMain.run_monitor_mode example_manager (fun _ => Some always_long)
      (fun _ => Some example_window) ["600519"] ticks (mkWorld [] []) in
  exists h' self,
    load_context example_manager (fun _ => Some always_long)
      (fun _ => Some example_window) ["600519"] 100 [] = (h', Ret self) /\
    sent run.1 =
      [] ++
      (tick ← ticks;
       match imap (alert_of_pair self tick.2)
               (filter (fun p => alerting self h' p = true)
                  (pairs_of_tick self tick.1)) with
       | [] => []
       | batch => [batch]
       end).
Proof.
  cbv zeta.
  apply (monitor_mode_batches example_manager (fun _ => Some always_long)
           (fun _ => Some example_window) ["600519"]
           [([("600519", example_quote 4)], fun _ : nat => "09:31:00");
            ([("600519", example_quote 4)], fun _ : nat => "09:32:00")]
           (mkWorld [] [])).
  - intros code f [= <-]. split; [done|]. by intros d e [=].
  - reflexivity.
Defined.

(** The two rounds of the example send the same alerts twice, a minute
    apart: the signal is a level, not a change. *)
Example monitor_mode_example :
  sent (QuantMain.run_monitor_mode example_manager (fun _ => Some always_long)
          (fun _ => Some example_window) ["600519"]
          [([("600519", example_quote 4)], fun _ => "09:31:00");
           ([("600519", example_quote 4)], fun _ => "09:32:00")] (mkWorld [] [])).1 =
  [[mkAlert "600519" (Num 13.5) "broken" "BUY" "09:31:00";
    mkAlert "600519" (Num 13.5) "buy and hold" "BUY" "09:31:00"];
   [mkAlert "600519" (Num 13.5) "broken" "BUY" "09:32:00";
    mkAlert "600519" (Num 13.5) "buy and hold" "BUY" "09:32:00"]].
Proof. reflexivity. Qed.

End LoadContext.

(** * The runner: the report of a backtest and the market scan *)

Section Runner.

Local Open Scope Q_scope.

Lemma int_is_one q :
  Z.quot (Qnum q) (Z.pos (Qden q)) = 1%Z <-> 1 <= q < 2.
Proof.
  destruct q as [a b]. unfold Qle, Qlt. cbn [Qnum Qden]. split.
  - intros Hq.
    pose proof (Z.quot_rem' a (Z.pos b)) as Ha. rewrite Hq in Ha.
    destruct (Z.le_gt_cases 0 a) as [Hpos|Hneg].
    + pose proof (Z.rem_bound_pos a (Z.pos b) Hpos ltac:(lia)). lia.
    + pose proof (Z.rem_bound_pos_neg a (Z.pos b) ltac:(lia) ltac:(lia)). lia.
  - intros [H1 H2]. symmetry.
    apply (Z.quot_unique a (Z.pos b) 1 (a - Z.pos b)); lia.
Qed.

(** [run_backtest] with a strategy and a fetched frame that is not empty,
    evaluated: the reply is computed from the fetched frame alone. *)
Lemma run_backtest_eval f fetch stock_code days h fetched :
  fetch stock_code days = Some fetched -> df_empty fetched = false ->
  QuantRunner.run_backtest (Some f) fetch stock_code days h =
  if forallb (has_column fetched) required_cols then
    let '(d', o) := run_body f (Num 100000) (Num 0.0003) fetched in
    ((h ++ [fetched]) ++ [d'],
     match o with
     | Ret m =>
         Ret (if df_empty d' then inr (QuantRunner.mkReport stock_code m 0)
              else match getcol "signal" d' with
                   | Some s =>
                       match last s with
                       | Some x =>
                           match QuantRunner.int x with
                           | inl n => inr (QuantRunner.mkReport stock_code m n)
                           | inr msg => inl msg
                           end
                       | None => inl (str IndexError)
                       end
                   | None => inl (str (KeyError "signal"))
                   end)
     | Raise e => if is_exception e then Ret (inl (str (KeyError "data"))) else Raise e
     end)
  else ((h ++ [fetched]) ++ [fetched], Ret (inl (str (KeyError "data")))).
Proof.
  intros Hf He. unfold QuantRunner.run_backtest, try_except. rewrite Hf, He.
  unfold bind at 1, alloc at 1. unfold bind at 1.
  rewrite run_eval, deref_alloc. cbv zeta.
  destruct (forallb (has_column fetched) required_cols); [|done].
  destruct (run_body f (Num 100000) (Num 0.0003) fetched) as [d' [m|e]].
  2:{ destruct (is_exception e) eqn:Ee; cbn; [|by rewrite Ee]. done. }
  rewrite length_app. cbn [length].
  replace (length h + 1)%nat with (length (h ++ [fetched]))
    by (rewrite length_app; cbn [length]; lia).
  unfold bind at 1. rewrite on_alloc.
  destruct (df_empty d'); [done|].
  unfold bind at 1. rewrite on_getitem, deref_alloc.
  destruct (getcol "signal" d') as [s|]; [|done].
  unfold bind at 1, lift, iloc_last.
  destruct (last s) as [x|]; [|done].
  by destruct (QuantRunner.int x).
Qed.


(** X17.  What a report of [run_backtest] says.  It carries the stock asked for
    and the statistics of [VectorBacktester.run] on the fetched frame, with
    the default capital and commission; its last signal is the last value of
    the signal column, cut off towards zero: it is 1 for every last value
    from 1 up to, but not including, 2. *)
Theorem run_backtest_report cur fetch stock_code days h h' r :
  QuantRunner.run_backtest cur fetch stock_code days h = (h', Ret (inr r)) ->
  QuantRunner.stock r = stock_code /\
  exists f fetched data signal q,
    cur = Some f /\
    fetch stock_code days = Some fetched /\ df_empty fetched = false /\
    run f (length h) (Num 100000) (Num 0.0003) (h ++ [fetched])
      = (h', Ret (Stats (QuantRunner.metrics r) data)) /\
    getcol "signal" (deref h' data) = Some signal /\
    last signal = Some (Num q) /\
    QuantRunner.last_signal r = Z.quot (Qnum q) (Z.pos (Qden q)) /\
    (QuantRunner.last_signal r = 1%Z <-> 1 <= q < 2).
Proof.
  intros E.
  destruct cur as [f|]; [|done].
  destruct (fetch stock_code days) as [fetched|] eqn:Hf.
  2:{ unfold QuantRunner.run_backtest, try_except in E. by rewrite Hf in E. }
  destruct (df_empty fetched) eqn:He.
  { unfold QuantRunner.run_backtest, try_except in E. by rewrite Hf, He in E. }
  rewrite (run_backtest_eval f fetch stock_code days _ fetched Hf He) in E.
  assert (Hrun := run_eval f (length h) (Num 100000) (Num 0.0003) (h ++ [fetched])).
  rewrite deref_alloc in Hrun. cbv zeta in Hrun.
  destruct (forallb (has_column fetched) required_cols); [|done].
  destruct (run_body f (Num 100000) (Num 0.0003) fetched) as [d' [m|e]] eqn:Eb;
    [|by destruct (is_exception e)].
  injection E as <- E.
  pose proof Eb as Eb'.
  apply run_body_returns in Eb'
    as (d1 & v & signal & close & last_equity & _ & Hsig & _ & _ & Hd' & Hlast & _).
  cbv zeta in Hsig, Hd', Hlast.
  set (d2 := (setitem "signal" v d1).1) in *.
  assert (Hs' : getcol "signal" d' = Some signal).
  { rewrite Hd'. by repeat (rewrite getcol_with_col_ne by discriminate). }
  assert (Hn : nrows d' = nrows d2) by (rewrite Hd'; by rewrite !nrows_with_col).
  assert (Hlen : length signal = nrows d2) by by apply getcol_length in Hsig.
  assert (Hrows : (0 < nrows d2)%nat).
  { destruct signal as [|x0 signal]; [|rewrite <- Hlen; cbn [length]; lia].
    exfalso. revert Hlast.
    set (equity := map _ _).
    assert (Heq : length equity = 0%nat).
    { subst equity. unfold cumprod, ssub, smul, sabs.
      repeat (rewrite length_zip_with || rewrite shift1_length || rewrite fillna_length
              || rewrite pct_change_length || rewrite diff_length
              || rewrite cumprod_from_length || rewrite length_map).
      cbn [length]. lia. }
    apply length_zero_iff_nil in Heq. by rewrite Heq. }
  assert (Hne : df_empty d' = false).
  { unfold df_empty. apply orb_false_iff. split; apply Nat.eqb_neq; [lia|].
    unfold getcol in Hs'. by destruct (cols d'). }
  rewrite Hne, Hs' in E.
  destruct (last signal) as [x|] eqn:El; [|done].
  destruct x as [q| | |]; try done. cbn in E. injection E as <-.
  split; [done|]. exists f, fetched, (length (h ++ [fetched])), signal, q.
  split; [done|]. split; [done|]. split; [done|]. split; [by rewrite Hrun|].
  rewrite deref_alloc. split; [done|]. split; [done|]. split; [done|].
  apply int_is_one.
Qed.

Lemma run_backtest_report_witness :
  let reply :=
    QuantRunner.run_backtest (Some always_long)
      (fun _ _ => Some (frame_of_closes [10; 11])) "600519" 365 [] in
  let r := match reply.2 with
           | Ret (inr r) => r
           | _ => QuantRunner.mkReport EmptyString (mkMetrics f0 f0 f0) 0
           end in
  QuantRunner.stock r = "600519" /\
  exists f fetched data signal q,
    Some always_long = Some f /\
    Some (frame_of_closes [10; 11]) = Some fetched /\ df_empty fetched = false /\
    run f (length (@nil DataFrame)) (Num 100000) (Num 0.0003) ([] ++ [fetched])
      = (reply.1, Ret (Stats (QuantRunner.metrics r) data)) /\
    getcol "signal" (deref reply.1 data) = Some signal /\
    last signal = Some (Num q) /\
    QuantRunner.last_signal r = Z.quot (Qnum q) (Z.pos (Qden q)) /\
    (QuantRunner.last_signal r = 1%Z <-> 1 <= q < 2).
Proof.
  cbv zeta.
  apply (run_backtest_report (Some always_long)
           (fun _ _ => Some (frame_of_closes [10; 11])) "600519" 365 []).
  by vm_compute.
Defined.

(** X18.  The cause of a failed backtest does not reach the caller of
    [run_backtest]: whenever [VectorBacktester.run] replies with the empty
    dict or with an error dict, [run_backtest] replies with the error
    "'data'", the message of the KeyError of its own lookup. *)
Theorem backtest_failure_is_masked f fetch stock_code days h fetched h1 res :
  fetch stock_code days = Some fetched -> df_empty fetched = false ->
  run f (length h) (Num 100000) (Num 0.0003) (h ++ [fetched]) = (h1, Ret res) ->
  (forall m data, res <> Stats m data) ->
  QuantRunner.run_backtest (Some f) fetch stock_code days h = (h1, Ret (inl "'data'")).
Proof.
  intros Hf He Hrun Hres.
  rewrite (run_backtest_eval f fetch stock_code days _ fetched Hf He).
  rewrite run_eval, deref_alloc in Hrun. cbv zeta in Hrun.
  destruct (forallb (has_column fetched) required_cols).
  - destruct (run_body f (Num 100000) (Num 0.0003) fetched) as [d' [m|e]].
    + injection Hrun as _ <-. by destruct (Hres m (length (h ++ [fetched]))).
    + destruct (is_exception e); [|done]. by injection Hrun as <- _.
  - by injection Hrun as <- _.
Qed.

Lemma backtest_failure_is_masked_witness :
  QuantRunner.run_backtest (Some failing_strategy)
    (fun _ _ => Some (frame_of_closes [10; 11])) "600519" 365 []
  = ([frame_of_closes [10; 11]; frame_of_closes [10; 11]], Ret (inl "'data'")).
Proof.
  apply (backtest_failure_is_masked failing_strategy
           (fun _ _ => Some (frame_of_closes [10; 11])) "600519" 365 []
           (frame_of_closes [10; 11])
           [frame_of_closes [10; 11]; frame_of_closes [10; 11]]
           (ErrorDict "division by zero")); try reflexivity.
  intros m data. discriminate.
Defined.



(** A scan of three stocks: the first has no data, the strategy ends on 1.5
    for the second and on 0.5 for the third. *)
Example scan_market_example :
  map QuantRunner.stock
    (match (QuantRunner.scan_market
              (Some (fun d => (d, Ret (PSeries (map (fun x => fdiv x (Num 8)) (default [] (getcol "close" d)))))))
              (fun stock_code _ =>
                 if String.eqb stock_code "000001" then None
                 else if String.eqb stock_code "600519" then Some (frame_of_closes [10; 12])
                 else Some (frame_of_closes [10; 4]))
              ["000001"; "600519"; "000002"] []).2 with
     | Ret results => results
     | Raise _ => []
     end) = ["600519"].
Proof. reflexivity. Qed.

End Runner.

(** * The live quotes *)

Section Quotes.

Implicit Types (row : SpotRow) (data_map : list (string * Snapshot)).

(** The quote that a row gives. *)
Local Abbreviation quote_of_row today_str row snapshot :=
  (latest_price row = Some (close snapshot) /\
   fle (close snapshot) f0 = false /\
   today_open row = Some (open snapshot) /\
   highest row = Some (high snapshot) /\
   lowest row = Some (low snapshot) /\
   spot_volume row = Some (volume snapshot) /\
   date snapshot = today_str).

Lemma snapshot_of_row_cases today_str data_map row :
  snapshot_of_row today_str data_map row = data_map \/
  exists snapshot,
    quote_of_row today_str row snapshot /\
    snapshot_of_row today_str data_map row = assoc_set (spot_code row) snapshot data_map.
Proof.
  unfold snapshot_of_row.
  destruct (latest_price row) as [price|]; [|by left].
  destruct (fle price f0) eqn:Ep; [by left|].
  destruct (today_open row) as [o|]; [|by left].
  destruct (highest row) as [hi|]; [|by left].
  destruct (lowest row) as [lo|]; [|by left].
  destruct (spot_volume row) as [v|]; [|by left].
  right. by exists (mkSnapshot today_str o hi lo price v).
Qed.

Lemma snapshot_loop today_str rows data_map :
  let result := fold_left (snapshot_of_row today_str) rows data_map in
  (NoDup (map fst data_map) -> NoDup (map fst result)) /\
  (forall stock_code snapshot, (stock_code, snapshot) ∈ result ->
     (stock_code, snapshot) ∈ data_map \/
     exists row, row ∈ rows /\ spot_code row = stock_code /\
                 quote_of_row today_str row snapshot).
Proof.
  revert data_map. induction rows as [|row rows IH]; intros data_map; cbn [fold_left].
  - split; [done|]. intros ? ? ?. by left.
  - destruct (IH (snapshot_of_row today_str data_map row)) as [Hnd Hfrom].
    cbv zeta in *. split.
    + intros Hd. apply Hnd.
      destruct (snapshot_of_row_cases today_str data_map row) as [->|(s & _ & ->)];
        [done|by apply assoc_set_NoDup].
    + intros stock_code snapshot Hin.
      destruct (Hfrom _ _ Hin) as [Hacc|(row' & Hr & ?)].
      * destruct (snapshot_of_row_cases today_str data_map row) as [E|(s & Hq & E)];
          rewrite E in Hacc; [by left|].
        apply assoc_set_elem in Hacc as [[= -> ->]|?]; [|by left].
        right. exists row. split; [apply elem_of_cons; by left|done].
      * right. exists row'. split; [apply elem_of_cons; by right|done].
Qed.

(** X20.  What [_fetch_realtime_snapshot] returns: at most one quote for a code;
    each quote is dated today and comes from a row of the market snapshot
    with that code, whose cells all convert and are the values of the
    quote, and whose price is not at most 0; when codes are asked for, the
    code is one of them.  Nothing is returned when the market snapshot could
    not be fetched. *)
Theorem quotes_come_from_rows spot_df today_str codes :
  let data_map := _fetch_realtime_snapshot spot_df today_str codes in
  NoDup (map fst data_map) /\
  (spot_df = None -> data_map = []) /\
  forall stock_code snapshot, (stock_code, snapshot) ∈ data_map ->
    (codes <> [] -> stock_code ∈ codes) /\
    exists rows row,
      spot_df = Some rows /\ row ∈ rows /\ spot_code row = stock_code /\
      latest_price row = Some (close snapshot) /\
      fle (close snapshot) f0 = false /\
      today_open row = Some (open snapshot) /\
      highest row = Some (high snapshot) /\
      lowest row = Some (low snapshot) /\
      spot_volume row = Some (volume snapshot) /\
      date snapshot = today_str.
Proof.
  cbv zeta. unfold _fetch_realtime_snapshot.
  destruct spot_df as [rows|].
  2:{ split; [constructor|]. split; [done|]. by intros ? ? ?%elem_of_nil. }
  cbv zeta.
  set (filtered_df := match codes with [] => rows | _ => _ end).
  assert (Hsub : forall row, row ∈ filtered_df ->
            row ∈ rows /\ (codes <> [] -> spot_code row ∈ codes)).
  { subst filtered_df. destruct codes as [|c codes]; [done|].
    intros row [? ?]%list_elem_of_filter. done. }
  assert (E : match filtered_df with
              | [] => []
              | _ => fold_left (snapshot_of_row today_str) filtered_df []
              end = fold_left (snapshot_of_row today_str) filtered_df []).
  { by destruct filtered_df. }
  rewrite E. clear E.
  destruct (snapshot_loop today_str filtered_df []) as [Hnd Hfrom]. cbv zeta in *.
  split; [apply Hnd; constructor|]. split; [done|].
  intros stock_code snapshot Hin.
  destruct (Hfrom _ _ Hin) as [?%elem_of_nil|(row & Hr & <- & Hq)]; [done|].
  destruct (Hsub _ Hr) as [Hrows Hcodes]. split; [done|].
  exists rows, row. by repeat split; try apply Hq.
Qed.

Lemma assoc_set_in {V} c (v : V) (l : list (string * V)) : (c, v) ∈ assoc_set c v l.
Proof.
  induction l as [|[k w] l IH]; simpl.
  - apply elem_of_cons. by left.
  - destruct (String.eqb k c); apply elem_of_cons; [by left|by right].
Qed.

Lemma assoc_set_other {V} c (v : V) (l : list (string * V)) k (w : V) :
  k <> c -> (k, w) ∈ l -> (k, w) ∈ assoc_set c v l.
Proof.
  intros Hne. induction l as [|[k0 w0] l IH]; simpl.
  - by intros ?%elem_of_nil.
  - destruct (String.eqb_spec k0 c) as [->|Hk].
    + intros [[= -> ->]|?]%elem_of_cons; [done|]. apply elem_of_cons. by right.
    + intros [?|?]%elem_of_cons; apply elem_of_cons; [by left|right; by apply IH].
Qed.

(** X21.  The check [price <= 0] does not catch a missing price.  A row whose
    latest price is NaN (and whose other cells convert) is quoted, with NaN
    as its close, when its code is asked for and no other row has it. *)
Theorem missing_price_is_quoted rows today_str codes row o hi lo v :
  row ∈ rows ->
  (forall row', row' ∈ rows -> spot_code row' = spot_code row -> row' = row) ->
  (codes <> [] -> spot_code row ∈ codes) ->
  latest_price row = Some NaN ->
  today_open row = Some o -> highest row = Some hi -> lowest row = Some lo ->
  spot_volume row = Some v ->
  (spot_code row, mkSnapshot today_str o hi lo NaN v)
    ∈ _fetch_realtime_snapshot (Some rows) today_str codes.
Proof.
  intros Hrow Huniq Hcodes Hp Ho Hhi Hlo Hv. unfold _fetch_realtime_snapshot. cbv zeta.
  set (filtered_df := match codes with [] => rows | _ => _ end).
  assert (Hin : row ∈ filtered_df).
  { subst filtered_df. destruct codes as [|c codes]; [done|].
    apply list_elem_of_filter. split; [by apply Hcodes|done]. }
  assert (Hsub : forall row', row' ∈ filtered_df -> row' ∈ rows).
  { subst filtered_df. destruct codes as [|c codes]; [done|].
    by intros row' [? ?]%list_elem_of_filter. }
  assert (E : match filtered_df with
              | [] => []
              | _ => fold_left (snapshot_of_row today_str) filtered_df []
              end = fold_left (snapshot_of_row today_str) filtered_df []).
  { by destruct filtered_df. }
  rewrite E. clear E. clearbody filtered_df.
  set (quote := mkSnapshot today_str o hi lo NaN v).
  assert (Hstep : forall data_map,
            snapshot_of_row today_str data_map row
            = assoc_set (spot_code row) quote data_map).
  { intros data_map. unfold snapshot_of_row. by rewrite Hp, Ho, Hhi, Hlo, Hv. }
  assert (Hkeep : forall l data_map,
            (forall row', row' ∈ l -> row' ∈ rows) ->
            (spot_code row, quote) ∈ data_map ->
            (spot_code row, quote) ∈ fold_left (snapshot_of_row today_str) l data_map).
  { induction l as [|row' l IH]; intros data_map Hl Hd; cbn [fold_left]; [done|].
    apply IH; [intros; apply Hl, elem_of_cons; by right|].
    destruct (decide (spot_code row' = spot_code row)) as [Heq|Hne].
    - rewrite (Huniq row'); [|apply Hl, elem_of_cons; by left|done].
      rewrite Hstep. apply assoc_set_in.
    - destruct (snapshot_of_row_cases today_str data_map row') as [->|(s & _ & ->)];
        [done|]. by apply assoc_set_other. }
  apply list_elem_of_split in Hin as (l1 & l2 & ->).
  rewrite fold_left_app. cbn [fold_left]. apply Hkeep.
  - intros row' Hr. apply Hsub, elem_of_app. right. apply elem_of_cons. by right.
  - rewrite Hstep. apply assoc_set_in.
Qed.

Lemma missing_price_is_quoted_witness :
  ("600519", mkSnapshot (Num 20) (Num 10) (Num 11) (Num 9) NaN (Num 0))
    ∈ _fetch_realtime_snapshot
        (Some [mkSpotRow "000001" (Some (Num 0)) (Some (Num 5)) (Some (Num 5))
                 (Some (Num 5)) (Some (Num 1));
               mkSpotRow "600519" (Some NaN) (Some (Num 10)) (Some (Num 11))
                 (Some (Num 9)) (Some (Num 0))])
        (Num 20) ["600519"; "000001"].
Proof.
  apply (missing_price_is_quoted _ (Num 20) ["600519"; "000001"]
           (mkSpotRow "600519" (Some NaN) (Some (Num 10)) (Some (Num 11))
              (Some (Num 9)) (Some (Num 0)))); try reflexivity.
  - apply elem_of_cons. right. apply elem_of_cons. by left.
  - intros row' [->|[->|?%elem_of_nil]%elem_of_cons]%elem_of_cons; done.
  - intros _. apply elem_of_cons. by left.
Defined.

(** The quotes of the example: the row with a price of 0 is left out, the
    row without a price is not. *)
Example quotes_example :
  map fst
    (_fetch_realtime_snapshot
       (Some [mkSpotRow "000001" (Some (Num 0)) (Some (Num 5)) (Some (Num 5))
                (Some (Num 5)) (Some (Num 1));
              mkSpotRow "600519" (Some NaN) (Some (Num 10)) (Some (Num 11))
                (Some (Num 9)) (Some (Num 0));
              mkSpotRow "000002" (Some (Num 7)) None (Some (Num 7))
                (Some (Num 7)) (Some (Num 1))])
       (Num 20) ["600519"; "000001"; "000002"]) = ["600519"].
Proof. by vm_compute. Qed.

End Quotes.

(** * The endpoints and the monitor *)

Section Endpoints.

(** X22.  A status set through the API does not reach the monitor.  When
    [update_strategy_status] answers with its message, the status is stored
    in the manager of the module, but the monitor was reloaded from its own
    manager, which is as it was: it runs the strategies that are active
    there.  And having no stock list, the monitor has no history: its ticks
    send nothing. *)
Theorem status_update_does_not_reach_the_monitor io compile_strategy load_history
    strategy_id status server server' msg :
  QuantApi.update_strategy_status io compile_strategy load_history strategy_id status
    server = (server', Ret (QuantApi.Message msg)) ->
  let monitor := QuantApi.monitor_instance server in
  let monitor' := QuantApi.monitor_instance server' in
  (exists s, get_strategy (QuantApi.strategy_mgr server) strategy_id = Some s /\
             get_strategy (QuantApi.strategy_mgr server') strategy_id
               = Some (set_status status s)) /\
  RealTimeMonitor.strategy_mgr monitor' = RealTimeMonitor.strategy_mgr monitor /\
  (forall s, s ∈ get_active_strategies (RealTimeMonitor.strategy_mgr monitor) ->
     is_Some (compile_strategy (code s)) ->
     id s ∈ map fst (compiled_strategies monitor')) /\
  (forall s_id, s_id ∈ map fst (compiled_strategies monitor') ->
     exists s, s ∈ get_active_strategies (RealTimeMonitor.strategy_mgr monitor) /\
               id s = s_id) /\
  (forall realtime_data now w, run_once monitor' realtime_data now w = (w, Ret tt)).
Proof.
  unfold QuantApi.update_strategy_status.
  destruct (toggle_strategy io strategy_id status (QuantApi.strategy_mgr server))
    as [mgr [[|]|e]] eqn:Et; [|done|done].
  destruct (load_context_eval (RealTimeMonitor.strategy_mgr (QuantApi.monitor_instance server))
              compile_strategy load_history [] 100 (QuantApi.frames server))
    as (h' & self & -> & _ & Hm & Hcs & _ & Hdom).
  intros [= <- _]. cbn [QuantApi.monitor_instance QuantApi.strategy_mgr]. cbv zeta.
  split; [|split; [done|]].
  { unfold toggle_strategy in Et.
    destruct (find_strategy strategy_id (strategies (QuantApi.strategy_mgr server)))
      as [s|] eqn:Ef.
    - exists s. split; [done|].
      destruct (toggle_first_Some _ _ status _ Ef) as (l1 & l2 & Hl & Hn & Ht).
      rewrite Ht in Et. unfold bind in Et.
      destruct (_save_strategies io _) as [ms [[]|e]] eqn:Es; [|done].
      injection Et as <-.
      assert (Hss : strategies ms = l1 ++ set_status status s :: l2).
      { revert Es. unfold _save_strategies, bind, makedirs, try_except, dump.
        destruct (makedirs_fails io); [done|]. cbn.
        destruct (write_fails io); by intros [= <-]. }
      unfold get_strategy. rewrite Hss, find_strategy_app, Hn. cbn.
      apply find_strategy_id in Ef. by rewrite Ef, String.eqb_refl.
    - by rewrite (toggle_first_None _ _ _ Ef) in Et. }
  destruct (compile_loop compile_strategy
              (get_active_strategies (RealTimeMonitor.strategy_mgr (QuantApi.monitor_instance server))) [])
    as (_ & Hfrom & _ & Hall). cbv zeta in *.
  rewrite Hcs. split; [done|]. split.
  - intros s_id Hk. apply list_elem_of_In, in_map_iff in Hk as ([k f] & <- & Hin).
    apply list_elem_of_In in Hin.
    destruct (Hfrom _ _ Hin) as [?%elem_of_nil|(s & Hs & ? & _)]; [done|]. by exists s.
  - intros realtime_data now w. unfold run_once.
    destruct (length (compiled_strategies self) =? 0)%nat; [done|].
    rewrite bool_decide_eq_true_2; [done|].
    apply map_eq. intros k. rewrite lookup_empty.
    destruct (history_cache self !! k) as [r|] eqn:Ek; [|done].
    destruct (proj1 (Hdom k)) as [?%elem_of_nil _]; [by eexists|done].
Qed.

Lemma status_update_does_not_reach_the_monitor_witness :
  exists server',
    QuantApi.update_strategy_status (mkIO false false false) (fun _ => Some always_long)
      (fun _ => None) "ffee0011" "inactive" example_server
      = (server', Ret (QuantApi.Message "Status updated to inactive")) /\
    get_active_strategies (QuantApi.strategy_mgr server') = [] /\
    map fst (compiled_strategies (QuantApi.monitor_instance server')) = ["ffee0011"] /\
    (forall s, s ∈ get_active_strategies
                     (RealTimeMonitor.strategy_mgr (QuantApi.monitor_instance example_server)) ->
       is_Some ((fun _ : string => Some always_long) (code s)) ->
       id s ∈ map fst (compiled_strategies (QuantApi.monitor_instance server'))).
Proof.
  eexists. split; [reflexivity|]. split; [reflexivity|]. split; [reflexivity|].
  exact (proj1 (proj2 (proj2
    (status_update_does_not_reach_the_monitor (mkIO false false false)
       (fun _ => Some always_long) (fun _ => None) "ffee0011" "inactive"
       example_server _ "Status updated to inactive" eq_refl)))).
Defined.

(** X23.  The endpoint that deletes answers 404 exactly for an id that is not
    stored, and then leaves the manager as it is. *)
Theorem delete_endpoint_not_found io strategy_id server :
  makedirs_fails io = false ->
  let '(server', answer) := QuantApi.delete_strategy io strategy_id server in
  (get_strategy (QuantApi.strategy_mgr server) strategy_id = None ->
     server' = server /\ answer = Ret (QuantApi.HTTPException 404 "Strategy not found")) /\
  (is_Some (get_strategy (QuantApi.strategy_mgr server) strategy_id) ->
     answer = Ret (QuantApi.Message "Deleted") /\
     get_strategy (QuantApi.strategy_mgr server') strategy_id = None).
Proof.
  intros Hd. unfold QuantApi.delete_strategy, get_strategy.
  destruct (find_strategy strategy_id (strategies (QuantApi.strategy_mgr server)))
    as [s|] eqn:Ef.
  - unfold StrategyManager.delete_strategy.
    pose proof (filter_ne_length _ _ _ Ef) as Hlt. apply Nat.ltb_lt in Hlt. rewrite Hlt.
    set (mk := mkManager _ _ _).
    destruct (save_ok io mk Hd) as (ms & Hs & Hss).
    unfold bind at 1. rewrite Hs. cbn. split; [done|]. intros _. split; [done|].
    rewrite Hss. apply find_strategy_filter_ne.
  - unfold StrategyManager.delete_strategy. rewrite (filter_ne_id _ _ Ef).
    rewrite Nat.ltb_irrefl. split; [|by intros [? ?]]. intros _.
    destruct server as [[] ? ?]. done.
Qed.

Lemma delete_endpoint_not_found_witness :
  let '(server', answer) :=
    QuantApi.delete_strategy (mkIO false false false) "0a1b2c3d" example_server in
  (get_strategy (QuantApi.strategy_mgr example_server) "0a1b2c3d" = None ->
     server' = example_server /\
     answer = Ret (QuantApi.HTTPException 404 "Strategy not found")) /\
  (is_Some (get_strategy (QuantApi.strategy_mgr example_server) "0a1b2c3d") ->
     answer = Ret (QuantApi.Message "Deleted") /\
     get_strategy (QuantApi.strategy_mgr server') "0a1b2c3d" = None).
Proof.
  apply (delete_endpoint_not_found (mkIO false false false) "0a1b2c3d" example_server).
  reflexivity.
Defined.

End Endpoints.

(** * Cleaning the generated code *)

Section CleanCode.

Import StrategyGenerator.

Implicit Types (s t : list N) (x : N).

Lemma re_sub_fence t :
  re_sub N.eqb fence (96 :: 96 :: 96 :: t)%N = re_sub N.eqb fence t.
Proof. reflexivity. Qed.

Lemma re_sub_keep eq pat x t :
  starts_with eq pat (x :: t) = false ->
  re_sub eq pat (x :: t) = x :: re_sub eq pat t.
Proof. intros E. unfold re_sub. cbn [sub_from]. by rewrite E. Qed.

Lemma starts_with_fence s :
  starts_with N.eqb fence s = true <-> exists t, s = (96 :: 96 :: 96 :: t)%N.
Proof.
  split.
  - unfold fence. destruct s as [|a [|b [|c t]]]; cbn [starts_with];
      rewrite ?andb_true_iff, ?N.eqb_eq.
    + done.
    + by intros (_ & [=]).
    + by intros (_ & _ & [=]).
    + intros (<- & <- & <- & _). by exists t.
  - by intros [t ->].
Qed.

Lemma has_fence_cons x s :
  has_fence (x :: s) -> starts_with N.eqb fence (x :: s) = true \/ has_fence s.
Proof.
  intros ([|y l1] & l2 & E).
  - left. apply starts_with_fence. exists l2. by rewrite E.
  - right. injection E as _ ->. by exists l1, l2.
Qed.

Lemma has_fence_app_r s t : has_fence t -> has_fence (s ++ t).
Proof. intros (l1 & l2 & ->). exists (s ++ l1), l2. by rewrite <- app_assoc. Qed.

Lemma has_fence_app_l s t : has_fence s -> has_fence (s ++ t).
Proof. intros (l1 & l2 & ->). exists l1, (l2 ++ t). by rewrite <- !app_assoc. Qed.

Lemma starts_with_cons eq p pat x s :
  starts_with eq (p :: pat) (x :: s) = eq p x && starts_with eq pat s.
Proof. done. Qed.

(** What the second substitution returns starts with a backtick, or with
    two, only if its argument does. *)
Lemma re_sub_head_1 s :
  starts_with N.eqb [96%N] (re_sub N.eqb fence s) = true ->
  starts_with N.eqb [96%N] s = true.
Proof.
  destruct (starts_with N.eqb fence s) eqn:E.
  - apply starts_with_fence in E as [t ->]. done.
  - destruct s as [|x t]; [done|]. by rewrite (re_sub_keep _ _ _ _ E).
Qed.

Lemma re_sub_head_2 s :
  starts_with N.eqb [96; 96]%N (re_sub N.eqb fence s) = true ->
  starts_with N.eqb [96; 96]%N s = true.
Proof.
  destruct (starts_with N.eqb fence s) eqn:E.
  - apply starts_with_fence in E as [t ->]. done.
  - destruct s as [|x t]; [done|]. rewrite (re_sub_keep _ _ _ _ E).
    rewrite !starts_with_cons. intros [Hx Ht]%andb_true_iff.
    apply re_sub_head_1 in Ht. by rewrite Hx, Ht.
Qed.

Lemma re_sub_head_3 (n : nat) s :
  (length s <= n)%nat -> starts_with N.eqb fence (re_sub N.eqb fence s) = false.
Proof.
  revert s. induction n as [|n IH]; intros s Hn.
  { by destruct s; [|cbn in Hn; lia]. }
  destruct (starts_with N.eqb fence s) eqn:E.
  - apply starts_with_fence in E as [t ->]. rewrite re_sub_fence.
    apply IH. cbn [length] in Hn. lia.
  - destruct s as [|x t]; [done|]. rewrite (re_sub_keep _ _ _ _ E).
    apply not_true_iff_false. intros H. apply not_true_iff_false in E. apply E.
    unfold fence in *. rewrite starts_with_cons in H |- *.
    apply andb_true_iff in H as [Hx Ht]. apply re_sub_head_2 in Ht.
    by rewrite Hx, Ht.
Qed.

(** The second substitution leaves no three backticks in a row. *)
Lemma re_sub_no_fence (n : nat) s :
  (length s <= n)%nat -> ~ has_fence (re_sub N.eqb fence s).
Proof.
  revert s. induction n as [|n IH]; intros s Hn.
  { destruct s; [|cbn in Hn; lia]. intros ([|? ?] & ? & [=]). }
  destruct (starts_with N.eqb fence s) eqn:E.
  - apply starts_with_fence in E as [t ->]. rewrite re_sub_fence.
    apply IH. cbn [length] in Hn. lia.
  - destruct s as [|x t]; [intros ([|? ?] & ? & [=])|].
    pose proof (re_sub_head_3 _ (x :: t) (Nat.le_refl _)) as H3.
    rewrite (re_sub_keep _ _ _ _ E) in H3 |- *.
    intros [H|H]%has_fence_cons; [congruence|].
    revert H. apply IH. cbn [length] in Hn. lia.
Qed.

(** A substitution whose pattern starts with three backticks leaves a text
    without three backticks in a row as it is. *)
Lemma re_sub_id eq pat s :
  (forall t, starts_with eq pat t = true -> has_fence t) ->
  ~ has_fence s -> re_sub eq pat s = s.
Proof.
  intros Hpat. induction s as [|x s IH]; intros Hs; [done|].
  rewrite re_sub_keep.
  - rewrite IH; [done|]. intros H. apply Hs. by apply (has_fence_app_r [x]).
  - apply not_true_iff_false. intros H. by apply Hs, Hpat.
Qed.

Lemma lower_backtick x : lower 96 = lower x -> x = 96%N.
Proof.
  unfold lower. cbn.
  destruct ((65 <=? x)%N && (x <=? 90)%N) eqn:E; [|done].
  apply andb_true_iff in E as [H1%N.leb_le H2%N.leb_le]. lia.
Qed.

Lemma starts_with_fence_python t :
  starts_with eq_ignorecase fence_python t = true -> has_fence t.
Proof.
  unfold fence_python. destruct t as [|a [|b [|c t]]]; cbn [starts_with];
    rewrite ?andb_true_iff;
    [done|by intros (_ & [=])|by intros (_ & _ & [=])|].
  unfold eq_ignorecase.
  intros (Ha%N.eqb_eq%lower_backtick & Hb%N.eqb_eq%lower_backtick
          & Hc%N.eqb_eq%lower_backtick & _).
  subst. by exists [], t.
Qed.

Lemma lstrip_suffix s : exists a, s = a ++ lstrip s.
Proof.
  induction s as [|x s [a IH]]; [by exists []|]. cbn.
  destruct (isspace x); [|by exists []]. exists (x :: a). cbn. by rewrite <- IH.
Qed.

Lemma rstrip_prefix s : exists b, s = rstrip s ++ b.
Proof.
  induction s as [|x s [b IH]]; [by exists []|]. cbn.
  destruct (rstrip s) as [|y r] eqn:E.
  - destruct (isspace x); [by exists (x :: s)|]. exists b. cbn. by rewrite IH at 1.
  - exists b. cbn. by rewrite IH at 1.
Qed.

Lemma strip_no_fence s : ~ has_fence s -> ~ has_fence (strip s).
Proof.
  intros Hs H. apply Hs. unfold strip in H.
  destruct (lstrip_suffix s) as [a Ea]. rewrite Ea. apply has_fence_app_r.
  destruct (rstrip_prefix (lstrip s)) as [b Eb]. rewrite Eb. by apply has_fence_app_l.
Qed.

Lemma rstrip_cons x s : isspace x = false -> rstrip (x :: s) = x :: rstrip s.
Proof. intros Hx. cbn. rewrite Hx. by destruct (rstrip s). Qed.

Lemma rstrip_rstrip s : rstrip (rstrip s) = rstrip s.
Proof.
  induction s as [|x s IH]; [done|]. cbn.
  destruct (rstrip s) as [|y r] eqn:E.
  - destruct (isspace x) eqn:Hx; [done|]. cbn. by rewrite Hx.
  - cbn [rstrip]. change (rstrip (y :: r)) with (rstrip (y :: r)) in IH.
    cbn [rstrip] in IH. rewrite IH. done.
Qed.

Lemma strip_strip s : strip (strip s) = strip s.
Proof.
  unfold strip.
  assert (H : lstrip s = [] \/ exists x t, lstrip s = x :: t /\ isspace x = false).
  { induction s as [|x s IH]; [by left|]. cbn.
    destruct (isspace x) eqn:Hx; [done|]. right. by exists x, s. }
  destruct H as [->|(x & t & -> & Hx)]; [done|].
  rewrite (rstrip_cons _ _ Hx). cbn [lstrip]. rewrite Hx.
  rewrite (rstrip_cons _ _ Hx). by rewrite rstrip_rstrip.
Qed.

(** X24.  The cleaned code has no three backticks in a row, whatever the reply of
    the model was. *)
Theorem clean_code_has_no_fence code : ~ has_fence (_clean_code code).
Proof.
  unfold _clean_code. cbv zeta. apply strip_no_fence.
  by apply (re_sub_no_fence (length (re_sub eq_ignorecase fence_python code))).
Qed.

(** X25.  A text without three backticks in a row is only stripped of the white
    space at its ends. *)
Theorem clean_code_of_plain_text code :
  ~ has_fence code -> _clean_code code = strip code.
Proof.
  intros Hc. unfold _clean_code. cbv zeta.
  rewrite (re_sub_id eq_ignorecase fence_python code); [|apply starts_with_fence_python|done].
  rewrite (re_sub_id N.eqb fence code); [done| |done].
  intros t [r ->]%starts_with_fence. by exists [], r.
Qed.

Lemma clean_code_of_plain_text_witness :
  _clean_code (code_points " return 1 ") = strip (code_points " return 1 ").
Proof.
  apply clean_code_of_plain_text.
  intros (l1 & l2 & E). vm_compute in E.
  repeat (destruct l1 as [|? l1]; [discriminate E|injection E as _ E]).
  by destruct l1.
Defined.

(** X26.  Cleaning twice is cleaning once. *)
Theorem clean_code_idempotent code :
  _clean_code (_clean_code code) = _clean_code code.
Proof.
  assert (Hn : ~ has_fence (_clean_code code)).
  { unfold _clean_code. cbv zeta. apply strip_no_fence.
    by apply (re_sub_no_fence (length (re_sub eq_ignorecase fence_python code))). }
  set (c := _clean_code code) in *.
  unfold _clean_code at 1. cbv zeta.
  rewrite (re_sub_id eq_ignorecase fence_python c); [|apply starts_with_fence_python|done].
  rewrite (re_sub_id N.eqb fence c); [| |done].
  - subst c. unfold _clean_code. cbv zeta. apply strip_strip.
  - intros t [r ->]%starts_with_fence. by exists [], r.
Qed.

(** The reply of the example, cleaned: the code between the fences. *)
Example clean_code_example :
  _clean_code example_reply =
  code_points "def generate_signals(df):" ++ [10%N] ++
  code_points "    return df['close'] > 0".
Proof. by vm_compute. Qed.

End CleanCode.

